(** * NewareNDA.NewareNDAx: a shallow embedding of the ndc / ndax readers

    Source: src/NewareNDA/NewareNDAx.py.

    Conventions of the embedding:
    - a byte buffer (an mmap or a [bytes] object) is a [list Byte.byte];
      Python slicing [b[a:c]] is [py_slice];
    - [struct.unpack] / [struct.iter_unpack] with little-endian formats are
      [unpack] / [iter_unpack] over a small format language;
    - a raised Python exception is the [Err] branch of [result];
    - Python floats produced by integer division or multiplication are exact
      rationals [Q] (the ideal value that the float rounds);
    - the IEEE single-precision values of the fixed-block main samples are kept
      symbolically ([fval]), since no claim depends on their numeric value;
    - the lookup tables [state_dict] and [multiplier_dict] of
      NewareNDA.dicts are parameters (Python dicts as partial functions). *)

From Stdlib Require Import String Ascii.
From Stdlib Require Import ZArith QArith List Lia Bool.
From Stdlib Require Import Sorted Permutation Qround DecimalString.
Import ListNotations.

Open Scope Z_scope.

(** ** Python exceptions and the error monad *)

Inductive py_error :=
| KeyError            (* dict lookup of a missing key *)
| ValueError          (* datetime(...) out of range, int('x'), mmap seek *)
| StructError         (* struct.unpack / iter_unpack size mismatch *)
| IndexError          (* indexing past the end of a str or Series *)
| NotImplementedErr   (* raise NotImplementedError(...) *)
| IntCastError        (* Series.astype(int) on NaN *)
| NoTermination.      (* not an exception: the scan loop never ends *)

Inductive result (A : Type) : Type :=
| Ok (a : A)
| Err (e : py_error).
Arguments Ok {A} a.
Arguments Err {A} e.

Definition bind {A B} (m : result A) (k : A -> result B) : result B :=
  match m with
  | Ok a => k a
  | Err e => Err e
  end.

Notation "'let*' x ':=' m 'in' k" := (bind m (fun x => k))
  (at level 200, x binder, m at level 100, k at level 200).

(** Python [d[k]] on a dict modelled as a partial function. *)
Definition dict_get {K V} (d : K -> option V) (k : K) : result V :=
  match d k with
  | Some v => Ok v
  | None => Err KeyError
  end.

(** ** Bytes *)

Definition byte_val (b : Byte.byte) : Z := Z.of_N (Byte.to_N b).

(** Unsigned little-endian integer of a byte string. *)
Fixpoint le_u (bs : list Byte.byte) : Z :=
  match bs with
  | [] => 0
  | b :: r => byte_val b + 256 * le_u r
  end.

(** Signed (two's complement) little-endian integer of a byte string. *)
Definition le_s (bs : list Byte.byte) : Z :=
  let u := le_u bs in
  let m := 2 ^ (8 * Z.of_nat (length bs)) in
  if m <=? 2 * u then u - m else u.

(** Python [b[a:c]] for non-negative bounds (both clamped to the length). *)
Definition py_slice (a c : nat) (bs : list Byte.byte) : list Byte.byte :=
  firstn (c - a) (skipn a bs).

(** Python [b[a:-k]] : the end bound is [len(b) - k], clamped at 0. *)
Definition py_slice_neg (a k : nat) (bs : list Byte.byte) : list Byte.byte :=
  py_slice a (length bs - k) bs.

(** ** The [struct] module, little-endian formats without padding *)

Inductive fmt_item :=
| FU (w : nat)    (* B, H, I, Q : unsigned integer of w bytes *)
| FS (w : nat)    (* b, h, i, q : signed integer of w bytes *)
| FStr (w : nat). (* ws : byte string of w bytes *)

Inductive pyval :=
| VInt (z : Z)
| VBytes (b : list Byte.byte).

Definition item_size (f : fmt_item) : nat :=
  match f with FU w | FS w | FStr w => w end.

Definition calcsize (fmt : list fmt_item) : nat :=
  fold_right (fun f n => (item_size f + n)%nat) 0%nat fmt.

Fixpoint decode_fields (fmt : list fmt_item) (bs : list Byte.byte) : list pyval :=
  match fmt with
  | [] => []
  | f :: fs =>
      let w := item_size f in
      let field := firstn w bs in
      let v := match f with
               | FU _ => VInt (le_u field)
               | FS _ => VInt (le_s field)
               | FStr _ => VBytes field
               end in
      v :: decode_fields fs (skipn w bs)
  end.

(** [struct.unpack(fmt, bs)]: the buffer must have exactly [calcsize(fmt)] bytes. *)
Definition unpack (fmt : list fmt_item) (bs : list Byte.byte) : result (list pyval) :=
  if Nat.eqb (length bs) (calcsize fmt) then Ok (decode_fields fmt bs)
  else Err StructError.

(** Consecutive pieces of [n] bytes (the last one may be shorter). *)
Fixpoint chunks (n : nat) (fuel : nat) (bs : list Byte.byte) : list (list Byte.byte) :=
  match fuel with
  | O => []
  | S fuel' =>
      match bs with
      | [] => []
      | _ => firstn n bs :: chunks n fuel' (skipn n bs)
      end
  end.

(** [struct.iter_unpack(fmt, bs)]: the buffer length must be a multiple of
    [calcsize(fmt)]; the error is raised when the iterator is created. *)
Definition iter_unpack (fmt : list fmt_item) (bs : list Byte.byte)
  : result (list (list pyval)) :=
  let n := calcsize fmt in
  if Nat.eqb (Nat.modulo (length bs) n) 0
  then Ok (map (decode_fields fmt) (chunks n (length bs) bs))
  else Err StructError.

(** ** [datetime.datetime(Y, M, D, h, m, s)] *)

Record datetime := mk_dt {
  dt_year : Z; dt_month : Z; dt_day : Z;
  dt_hour : Z; dt_minute : Z; dt_second : Z }.

Definition is_leap (y : Z) : bool :=
  (y mod 4 =? 0) && (negb (y mod 100 =? 0) || (y mod 400 =? 0)).

Definition days_in_month (y m : Z) : Z :=
  if (m =? 2) then (if is_leap y then 29 else 28)
  else if (m =? 4) || (m =? 6) || (m =? 9) || (m =? 11) then 30
  else 31.

Definition valid_datetime (Y M D h mi s : Z) : bool :=
  (1 <=? Y) && (Y <=? 9999) && (1 <=? M) && (M <=? 12) &&
  (1 <=? D) && (D <=? days_in_month Y M) &&
  (0 <=? h) && (h <=? 23) && (0 <=? mi) && (mi <=? 59) &&
  (0 <=? s) && (s <=? 59).

Definition py_datetime (Y M D h mi s : Z) : result datetime :=
  if valid_datetime Y M D h mi s then Ok (mk_dt Y M D h mi s)
  else Err ValueError.

(** [datetime.fromtimestamp(secs)]: kept as the integer it is built from. *)
Inductive stamp := fromtimestamp (secs : Z).

(** ** Lookup tables of NewareNDA.dicts

    [state_dict] maps a status code to its state name and [multiplier_dict]
    maps a current-range code to its scale factor.  The module defining them
    is not part of the sources; the readers below take them as parameters. *)

Definition state_table := Z -> option String.string.
Definition multiplier_table := Z -> option Q.

(** ** Legacy ndc records: [_bytes_to_list_ndc] and the aux helpers *)

(** One row of [rec_columns]. *)
Record ndc_row := mk_ndc_row {
  Index : Z;
  Cycle : Z;
  Step : Z;
  Status : String.string;
  Time : Q;
  Voltage : Q;
  Current : Q;
  Charge_Capacity : Q;
  Discharge_Capacity : Q;
  Charge_Energy : Q;
  Discharge_Energy : Q;
  Timestamp : datetime }.

(** Row of [_aux_bytes_65_to_list_ndc]: [Index, Aux, V, T]. *)
Record aux65_row := mk_aux65 { a65_Index : Z; a65_Aux : Z; a65_V : Q; a65_T : Q }.

(** Row of [_aux_bytes_74_to_list_ndc]: [Index, Aux, V, T, t]. *)
Record aux74_row := mk_aux74 {
  a74_Index : Z; a74_Aux : Z; a74_V : Q; a74_T : Q; a74_t : Q }.

Section LegacyDecode.

Variable state_dict : state_table.
Variable multiplier_dict : multiplier_table.

Definition bytes_to_list_ndc (bytes : list Byte.byte) : result ndc_row :=
  let* v := unpack [FU 4; FU 4] (py_slice 8 16 bytes) in
  match v with
  | [VInt Index; VInt Cycle] =>
  let* v := unpack [FU 1] (py_slice 16 17 bytes) in
  match v with
  | [VInt Step] =>
  let* v := unpack [FU 1] (py_slice 17 18 bytes) in
  match v with
  | [VInt Status] =>
  let* v := unpack [FU 8] (py_slice 23 31 bytes) in
  match v with
  | [VInt Time] =>
  let* v := unpack [FS 4; FS 4] (py_slice 31 39 bytes) in
  match v with
  | [VInt Voltage; VInt Current] =>
  let* v := unpack [FS 8; FS 8] (py_slice 43 59 bytes) in
  match v with
  | [VInt Charge_capacity; VInt Discharge_capacity] =>
  let* v := unpack [FS 8; FS 8] (py_slice 59 75 bytes) in
  match v with
  | [VInt Charge_energy; VInt Discharge_energy] =>
  let* v := unpack [FU 2; FU 1; FU 1; FU 1; FU 1; FU 1] (py_slice 75 82 bytes) in
  match v with
  | [VInt Y; VInt M; VInt D; VInt h; VInt m; VInt s] =>
  let* v := unpack [FS 4] (py_slice 82 86 bytes) in
  match v with
  | [VInt Range] =>
  let* multiplier := dict_get multiplier_dict Range in
  let* status := dict_get state_dict Status in
  let* ts := py_datetime Y M D h m s in
  Ok {| Index := Index;
        Cycle := Cycle + 1;
        Step := Step;
        Status := status;
        Time := (inject_Z Time / 1000)%Q;
        Voltage := (inject_Z Voltage / 10000)%Q;
        Current := (inject_Z Current * multiplier)%Q;
        Charge_Capacity := (inject_Z Charge_capacity * multiplier / 3600)%Q;
        Discharge_Capacity := (inject_Z Discharge_capacity * multiplier / 3600)%Q;
        Charge_Energy := (inject_Z Charge_energy * multiplier / 3600)%Q;
        Discharge_Energy := (inject_Z Discharge_energy * multiplier / 3600)%Q;
        Timestamp := ts |}
  | _ => Err ValueError end
  | _ => Err ValueError end
  | _ => Err ValueError end
  | _ => Err ValueError end
  | _ => Err ValueError end
  | _ => Err ValueError end
  | _ => Err ValueError end
  | _ => Err ValueError end
  | _ => Err ValueError end.

End LegacyDecode.

Definition aux_bytes_65_to_list_ndc (bytes : list Byte.byte) : result aux65_row :=
  let* v := unpack [FU 1] (py_slice 3 4 bytes) in
  match v with
  | [VInt Aux] =>
  let* v := unpack [FU 4] (py_slice 8 12 bytes) in
  match v with
  | [VInt Index] =>
  let* v := unpack [FS 2] (py_slice 41 43 bytes) in
  match v with
  | [VInt T] =>
  let* v := unpack [FS 4] (py_slice 31 35 bytes) in
  match v with
  | [VInt V] =>
  Ok (mk_aux65 Index Aux (inject_Z V / 10000)%Q (inject_Z T / 10)%Q)
  | _ => Err ValueError end
  | _ => Err ValueError end
  | _ => Err ValueError end
  | _ => Err ValueError end.

Definition aux_bytes_74_to_list_ndc (bytes : list Byte.byte) : result aux74_row :=
  let* v := unpack [FU 1] (py_slice 3 4 bytes) in
  match v with
  | [VInt Aux] =>
  let* v := unpack [FU 4] (py_slice 8 12 bytes) in
  match v with
  | [VInt Index] =>
  let* v := unpack [FS 4] (py_slice 31 35 bytes) in
  match v with
  | [VInt V] =>
  let* v := unpack [FS 2; FS 2] (py_slice 41 45 bytes) in
  match v with
  | [VInt T; VInt t] =>
  Ok (mk_aux74 Index Aux (inject_Z V / 10000)%Q (inject_Z T / 10)%Q
               (inject_Z t / 10)%Q)
  | _ => Err ValueError end
  | _ => Err ValueError end
  | _ => Err ValueError end
  | _ => Err ValueError end.

(** ** [read_ndc]: the legacy anchor scan *)

Fixpoint bytes_eqb (a b : list Byte.byte) : bool :=
  match a, b with
  | [], [] => true
  | x :: a', y :: b' => Byte.eqb x y && bytes_eqb a' b'
  | _, _ => false
  end.

(** First position [>= p] of [sub] inside [l], [p] being the offset of [l]. *)
Fixpoint find_in (sub l : list Byte.byte) (p : nat) : option nat :=
  if bytes_eqb (firstn (length sub) l) sub then Some p
  else match l with
       | [] => None
       | _ :: l' => find_in sub l' (S p)
       end.

(** [mm.find(sub, start)]: [start] is clamped to the buffer size;
    [None] is Python's [-1]. *)
Definition mm_find (sub buf : list Byte.byte) (start : nat) : option nat :=
  let s := Nat.min start (length buf) in
  find_in sub (skipn s buf) s.

Inductive aux_entry :=
| A65 (r : aux65_row)
| A74 (r : aux74_row).

(** What one iteration of the scan loop does with the record it read:
    a main record, an auxiliary record, or a logged warning. *)
Inductive scanned :=
| SMain (r : ndc_row)
| SAux (a : aux_entry)
| SUnknown (tag : list Byte.byte).

(** The table [aux_df] with its column set. *)
Inductive aux_table :=
| AuxEmpty                        (* pd.DataFrame([]) *)
| AuxVT (rows : list aux65_row)   (* columns Index, Aux, V, T *)
| AuxVTt (rows : list aux74_row). (* columns Index, Aux, V, T, t *)

Definition record_len : nat := 94.

Section LegacyScan.

Variable state_dict : state_table.
Variable multiplier_dict : multiplier_table.

(** Body of the [while] loop on one record [bytes]. *)
Definition dispatch_record (bytes : list Byte.byte) : result scanned :=
  match firstn 1 bytes with
  | [b] =>
      if Byte.eqb b Byte.x55 then
        let* r := bytes_to_list_ndc state_dict multiplier_dict bytes in Ok (SMain r)
      else if Byte.eqb b Byte.x65 then
        let* r := aux_bytes_65_to_list_ndc bytes in Ok (SAux (A65 r))
      else if Byte.eqb b Byte.x74 then
        let* r := aux_bytes_74_to_list_ndc bytes in Ok (SAux (A74 r))
      else Ok (SUnknown [b])
  | tag => Ok (SUnknown tag)
  end.

(** [while header != -1: mm.seek(header); bytes = mm.read(record_len); ...;
     header = mm.find(identifier, header + record_len)].
    With a non-empty identifier every iteration moves [header] forward by at
    least [record_len], so [S (length buf)] rounds of fuel are enough; with an
    empty identifier [mm.find] keeps returning the end of the buffer and the
    Python loop never ends, which is [NoTermination] here. *)
Fixpoint scan_ndc (fuel : nat) (buf identifier : list Byte.byte) (header : nat)
  : result (list scanned) :=
  match fuel with
  | O => Err NoTermination
  | S fuel' =>
      if Nat.ltb (length buf) header then Err ValueError (* mm.seek out of range *)
      else
        let bytes := py_slice header (header + record_len) buf in
        let* r := dispatch_record bytes in
        match mm_find identifier buf (header + record_len) with
        | None => Ok [r]
        | Some header' =>
            let* rest := scan_ndc fuel' buf identifier header' in Ok (r :: rest)
        end
  end.

End LegacyScan.

Fixpoint main_rows (l : list scanned) : list ndc_row :=
  match l with
  | [] => []
  | SMain r :: l' => r :: main_rows l'
  | _ :: l' => main_rows l'
  end.

Fixpoint aux_rows (l : list scanned) : list aux_entry :=
  match l with
  | [] => []
  | SAux a :: l' => a :: aux_rows l'
  | _ :: l' => aux_rows l'
  end.

(** [df.drop_duplicates(subset='Index')]: keep the first row of each Index. *)
Fixpoint drop_duplicates_from (seen : list Z) (rows : list ndc_row) : list ndc_row :=
  match rows with
  | [] => []
  | r :: rs =>
      if existsb (Z.eqb (Index r)) seen then drop_duplicates_from seen rs
      else r :: drop_duplicates_from (Index r :: seen) rs
  end.

Definition drop_duplicates (rows : list ndc_row) : list ndc_row :=
  drop_duplicates_from [] rows.

(** [Series.is_monotonic_increasing] (non-strict). *)
Fixpoint is_monotonic_increasing (l : list Z) : bool :=
  match l with
  | a :: ((b :: _) as t) => (a <=? b) && is_monotonic_increasing t
  | _ => true
  end.

(** [df.sort_values('Index')].  Pandas' default sort is not stable; it is only
    applied after [drop_duplicates], when the keys are pairwise distinct and
    every sorting algorithm yields the same order. *)
Fixpoint insert_by_index (r : ndc_row) (rows : list ndc_row) : list ndc_row :=
  match rows with
  | [] => [r]
  | r' :: rs => if Index r <=? Index r' then r :: rows else r' :: insert_by_index r rs
  end.

Fixpoint sort_by_index (rows : list ndc_row) : list ndc_row :=
  match rows with
  | [] => []
  | r :: rs => insert_by_index r (sort_by_index rs)
  end.

(** Lines 192-198 (the DataFrame is the list of its rows, so [reset_index]
    is the list order; [astype(dtype_dict)] does not change the values). *)
Definition assemble_ndc (output : list ndc_row) : list ndc_row :=
  let df := drop_duplicates output in
  if is_monotonic_increasing (map Index df) then df else sort_by_index df.

Fixpoint aux_frame65 (aux : list aux_entry) : result (list aux65_row) :=
  match aux with
  | [] => Ok []
  | A65 r :: l => let* rs := aux_frame65 l in Ok (r :: rs)
  | A74 _ :: _ => Err ValueError (* 5 values for 4 columns *)
  end.

Fixpoint aux_frame74 (aux : list aux_entry) : result (list aux74_row) :=
  match aux with
  | [] => Ok []
  | A74 r :: l => let* rs := aux_frame74 l in Ok (r :: rs)
  | A65 _ :: _ => Err ValueError (* 4 values for 5 columns *)
  end.

(** Lines 200-206: the column set of [aux_df] follows [identifier[0:1]]. *)
Definition build_aux_df (identifier : list Byte.byte) (aux : list aux_entry)
  : result aux_table :=
  match firstn 1 identifier with
  | [b] =>
      if Byte.eqb b Byte.x65 then let* rs := aux_frame65 aux in Ok (AuxVT rs)
      else if Byte.eqb b Byte.x74 then let* rs := aux_frame74 aux in Ok (AuxVTt rs)
      else Ok AuxEmpty
  | _ => Ok AuxEmpty
  end.

Definition ndc_header : nat := 517.

(** The scan of [read_ndc] (lines 170-189): the records it dispatched. *)
Definition read_ndc_scan (state_dict : state_table) (multiplier_dict : multiplier_table)
  (buf : list Byte.byte) : result (list scanned) :=
  let identifier := py_slice 517 525 buf in
  scan_ndc state_dict multiplier_dict (S (length buf)) buf identifier ndc_header.

Definition read_ndc (state_dict : state_table) (multiplier_dict : multiplier_table)
  (buf : list Byte.byte) : result (list ndc_row * aux_table) :=
  let identifier := py_slice 517 525 buf in
  let* recs := read_ndc_scan state_dict multiplier_dict buf in
  let df := assemble_ndc (main_rows recs) in
  let* aux_df := build_aux_df identifier (aux_rows recs) in
  Ok (df, aux_df).

(** ** Revision 8 fixed-block files *)

(** A Python float obtained from an IEEE single-precision field: [F32 bits]
    is the value of [struct.unpack('<f', ...)] on those bits and [FDiv x d]
    is the float [x / d]. *)
Inductive fval :=
| F32 (bits : Z)
| FDiv (x : fval) (d : Z).

Definition block_len : nat := 4096.

(** [mm.seek(header); while mm.tell() < mm_size: bytes = mm.read(record_len)]
    with [header = record_len = 4096]: the blocks after the header, the last
    one possibly shorter.  Seeking past the end raises [ValueError]. *)
Definition read_blocks (buf : list Byte.byte) : result (list (list Byte.byte)) :=
  if Nat.ltb (length buf) block_len then Err ValueError
  else let rest := skipn block_len buf in Ok (chunks block_len (length rest) rest).

Fixpoint map_result {A B} (f : A -> result (list B)) (l : list A) : result (list B) :=
  match l with
  | [] => Ok []
  | x :: l' => let* y := f x in let* ys := map_result f l' in Ok (y ++ ys)
  end.

(** The [for] loop over [struct.iter_unpack(fmt, bytes[132:-trim])] of every
    block; [f] gives what the loop body appends for one unpacked tuple. *)
Definition scan_blocks {A} (fmt : list fmt_item) (trim : nat)
  (f : list pyval -> result (list A)) (blocks : list (list Byte.byte)) : result (list A) :=
  map_result (fun b => let* items := iter_unpack fmt (py_slice_neg 132 trim b) in
                       map_result f items) blocks.

(** *** [read_ndc_8] *)

Record ndc8_row := mk_ndc8_row { m_Voltage : fval; m_Current : fval; m_Index : Z }.

Definition fmt_ff : list fmt_item := [FU 4; FU 4].

Definition ndc8_item (i : list pyval) : result (list (fval * fval)) :=
  match i with
  | [VInt v; VInt c] => Ok [(FDiv (F32 v) 10000, F32 c)]
  | _ => Err ValueError
  end.

(** [df['Index'] = df.index + 1]. *)
Fixpoint number_rows (k : Z) (rec : list (fval * fval)) : list ndc8_row :=
  match rec with
  | [] => []
  | (v, c) :: rec' => mk_ndc8_row v c k :: number_rows (k + 1) rec'
  end.

Definition read_ndc_8_rec (buf : list Byte.byte) : result (list (fval * fval)) :=
  let* blocks := read_blocks buf in
  scan_blocks fmt_ff 4 ndc8_item blocks.

Definition read_ndc_8 (buf : list Byte.byte) : result (list ndc8_row) :=
  let* rec := read_ndc_8_rec buf in
  Ok (number_rows 1 rec).

(** *** [read_data_runInfo_ndc8] *)

Record runinfo_row := mk_runinfo {
  ri_Time : Q; ri_Timestamp : Z; ri_Step : Z; ri_Index : Z }.

Definition fmt_runinfo : list fmt_item := [FS 4; FStr 29; FS 4; FS 4; FS 4; FStr 2].

Definition runinfo_item (i : list pyval) : result (list runinfo_row) :=
  match i with
  | [VInt Time; _; VInt Timestamp; VInt Step; VInt Index; _] =>
      if negb (Index =? 0) then Ok [mk_runinfo (inject_Z Time / 1000)%Q Timestamp Step Index]
      else Ok []
  | _ => Err ValueError
  end.

(** Modelled from the spec: [NewareNDA.NewareNDA._count_changes], which is not
    among the sources.  Section 4.3: the step value becomes a counter that
    starts at 1 and increments exactly when the raw value differs from the
    previous record's raw value. *)
Fixpoint count_changes_from (prev c : Z) (l : list Z) : list Z :=
  match l with
  | [] => []
  | x :: l' =>
      let c' := if x =? prev then c else c + 1 in
      c' :: count_changes_from x c' l'
  end.

Definition count_changes (l : list Z) : list Z :=
  match l with
  | [] => []
  | x :: l' => 1 :: count_changes_from x 1 l'
  end.

Fixpoint set_steps (rows : list runinfo_row) (steps : list Z) : list runinfo_row :=
  match rows, steps with
  | r :: rs, s :: ss =>
      mk_runinfo (ri_Time r) (ri_Timestamp r) s (ri_Index r) :: set_steps rs ss
  | _, _ => []
  end.

Definition read_data_runInfo_rec (buf : list Byte.byte) : result (list runinfo_row) :=
  let* blocks := read_blocks buf in
  scan_blocks fmt_runinfo 63 runinfo_item blocks.

Definition read_data_runInfo_ndc8 (buf : list Byte.byte) : result (list runinfo_row) :=
  let* rec := read_data_runInfo_rec buf in
  Ok (set_steps rec (count_changes (map ri_Step rec))).

(** *** [read_data_step_ndc8] *)

Record step_row := mk_step_row {
  s_Cycle : Z; s_Step_Index : Z; s_Status : String.string; s_Step : Z }.

Definition fmt_step : list fmt_item := [FS 4; FS 4; FStr 16; FS 1; FStr 12].

Definition step_item (state_dict : state_table) (i : list pyval)
  : result (list (Z * Z * String.string)) :=
  match i with
  | [VInt Cycle; VInt Step_Index; _; VInt Status; _] =>
      if negb (Step_Index =? 0) then
        let* st := dict_get state_dict Status in Ok [(Cycle + 1, Step_Index, st)]
      else Ok []
  | _ => Err ValueError
  end.

(** [df['Step'] = df.index + 1]. *)
Fixpoint number_steps (k : Z) (rec : list (Z * Z * String.string)) : list step_row :=
  match rec with
  | [] => []
  | (c, si, st) :: rec' => mk_step_row c si st k :: number_steps (k + 1) rec'
  end.

Definition read_data_step_rec (state_dict : state_table) (buf : list Byte.byte)
  : result (list (Z * Z * String.string)) :=
  let* blocks := read_blocks buf in
  scan_blocks fmt_step 5 (step_item state_dict) blocks.

Definition read_data_step_ndc8 (state_dict : state_table) (buf : list Byte.byte)
  : result (list step_row) :=
  let* rec := read_data_step_rec state_dict buf in
  Ok (number_steps 1 rec).

(** ** Merging the revision 8 tables (read_ndax, lines 52-63) *)

(** A row of [data_df] after the left join with [runInfo_df]: the run-info
    columns are [None] (NaN) where no run-info record has the row's Index. *)
Record joined_row := mk_joined {
  j_Voltage : fval; j_Current : fval; j_Index : Z;
  j_Time : option Q; j_Timestamp : option Z; j_Step : option Z }.

(** [data_df.merge(runInfo_df, how='left', on='Index')]: each left row in
    order, once per matching right row (in right order), or once with NaN. *)
Definition merge_runinfo (data : list ndc8_row) (ri : list runinfo_row) : list joined_row :=
  flat_map (fun d =>
    match filter (fun r => ri_Index r =? m_Index d) ri with
    | [] => [mk_joined (m_Voltage d) (m_Current d) (m_Index d) None None None]
    | ms => map (fun r => mk_joined (m_Voltage d) (m_Current d) (m_Index d)
                           (Some (ri_Time r)) (Some (ri_Timestamp r)) (Some (ri_Step r))) ms
    end) data.

(** [Series.ffill()]. *)
Fixpoint ffill_from {A} (last : option A) (l : list (option A)) : list (option A) :=
  match l with
  | [] => []
  | x :: l' =>
      let v := match x with Some _ => x | None => last end in
      v :: ffill_from v l'
  end.

Definition ffill {A} (l : list (option A)) : list (option A) := ffill_from None l.

(** Last valid position strictly before [k]. *)
Fixpoint prev_valid (xs : list (option Q)) (k : nat) : option (nat * Q) :=
  match k with
  | O => None
  | S k' =>
      match nth k' xs None with
      | Some v => Some (k', v)
      | None => prev_valid xs k'
      end
  end.

Fixpoint first_valid (l : list (option Q)) (p : nat) : option (nat * Q) :=
  match l with
  | [] => None
  | Some v :: _ => Some (p, v)
  | None :: l' => first_valid l' (S p)
  end.

(** First valid position strictly after [k]. *)
Definition next_valid (xs : list (option Q)) (k : nat) : option (nat * Q) :=
  first_valid (skipn (S k) xs) (S k).

Definition lin (va vb : Q) (a b k : nat) : Q :=
  (va + (vb - va) * (inject_Z (Z.of_nat k - Z.of_nat a) / inject_Z (Z.of_nat b - Z.of_nat a)))%Q.

(** [Series.interpolate(method='linear')] (limit_direction 'forward', no
    limit): positions are equally spaced; NaNs before the first valid value
    stay NaN, NaNs between two valid values are interpolated, NaNs after the
    last valid value take that value (numpy.interp). *)
Definition interp_at (xs : list (option Q)) (k : nat) : option Q :=
  match nth k xs None with
  | Some v => Some v
  | None =>
      match prev_valid xs k with
      | None => None
      | Some (a, va) =>
          match next_valid xs k with
          | Some (b, vb) => Some (lin va vb a b k)
          | None => Some va
          end
      end
  end.

Definition interpolate (xs : list (option Q)) : list (option Q) :=
  map (interp_at xs) (seq 0 (length xs)).

(** Python's [int(x)] on a float: truncation towards zero. *)
Definition qtrunc (q : Q) : Z :=
  if Qle_bool 0 q then Qfloor q else - Qfloor (- q).

(** [Series.astype(int)]: NaN cannot be cast. *)
Fixpoint astype_int (xs : list (option Q)) : result (list Z) :=
  match xs with
  | [] => Ok []
  | None :: _ => Err IntCastError
  | Some q :: xs' => let* zs := astype_int xs' in Ok (qtrunc q :: zs)
  end.

Record mid_row := mk_mid {
  x_Voltage : fval; x_Current : fval; x_Index : Z;
  x_Time : option Q; x_Timestamp : stamp; x_Step : option Z }.

Fixpoint rebuild (j : list joined_row) (steps : list (option Z)) (times : list (option Q))
  (stamps : list Z) : list mid_row :=
  match j, steps, times, stamps with
  | r :: j', s :: steps', t :: times', ts :: stamps' =>
      mk_mid (j_Voltage r) (j_Current r) (j_Index r) t (fromtimestamp ts) s
        :: rebuild j' steps' times' stamps'
  | _, _, _, _ => []
  end.

Definition last_opt {A} (l : list A) : option A :=
  match rev l with [] => None | x :: _ => Some x end.

(** Lines 52-59: truncate, left join on Index, ffill Step, interpolate Time
    and Timestamp, cast Timestamp to int and map [datetime.fromtimestamp]. *)
Definition truncate_to_runinfo (data : list ndc8_row) (ri : list runinfo_row)
  : result (list ndc8_row) :=
  match last_opt ri with
  | None => Err IndexError (* runInfo_df['Index'].iat[-1] on an empty frame *)
  | Some r => Ok (filter (fun d => m_Index d <=? ri_Index r) data)
  end.

Definition join_runinfo (data : list ndc8_row) (ri : list runinfo_row)
  : result (list mid_row) :=
  let* data := truncate_to_runinfo data ri in
  let j := merge_runinfo data ri in
  let steps := ffill (map j_Step j) in
  let times := interpolate (map j_Time j) in
  let* stamps := astype_int (interpolate (map (fun r => option_map inject_Z (j_Timestamp r)) j)) in
  Ok (rebuild j steps times stamps).

Record out_row := mk_out {
  o_Voltage : fval; o_Current : fval; o_Index : Z;
  o_Time : option Q; o_Timestamp : stamp; o_Step : option Z;
  o_Cycle : option Z; o_Step_Index : option Z; o_Status : option String.string }.

(** Line 63: [data_df.merge(step_df, how='left', on='Step')]. *)
Definition merge_step (mid : list mid_row) (st : list step_row) : list out_row :=
  flat_map (fun d =>
    let ms := match x_Step d with
              | Some s => filter (fun r => s_Step r =? s) st
              | None => []
              end in
    match ms with
    | [] => [mk_out (x_Voltage d) (x_Current d) (x_Index d) (x_Time d) (x_Timestamp d)
               (x_Step d) None None None]
    | _ => map (fun r => mk_out (x_Voltage d) (x_Current d) (x_Index d) (x_Time d)
                           (x_Timestamp d) (x_Step d) (Some (s_Cycle r))
                           (Some (s_Step_Index r)) (Some (s_Status r))) ms
    end) mid.

(** Lines 48-63 on the three data files of a revision 8 archive. *)
Definition read_ndax8 (state_dict : state_table)
  (data_buf runinfo_buf step_buf : list Byte.byte) : result (list out_row) :=
  let* data := read_ndc_8 data_buf in
  let* ri := read_data_runInfo_ndc8 runinfo_buf in
  let* mid := join_runinfo data ri in
  let* st := read_data_step_ndc8 state_dict step_buf in
  Ok (merge_step mid st).

(** ** [read_ndax]: routing on the server version *)

(** [int(c)] on a one-character string (ASCII digits). *)
Definition py_int_of_char (c : Ascii.ascii) : result Z :=
  let n := Z.of_nat (Ascii.nat_of_ascii c) in
  if (48 <=? n) && (n <=? 57) then Ok (n - 48) else Err ValueError.

(** [int(server[14])]. *)
Definition revision (server : String.string) : result Z :=
  match String.get 14 server with
  | None => Err IndexError
  | Some c => py_int_of_char c
  end.

Inductive reader := RNdc | RNdc8 | RRunInfo | RStep.

(** Observable steps of [read_ndax]: a member extracted from the archive, and
    a reader run on an extracted member. *)
Inductive event :=
| Extract (name : String.string)
| Decode (r : reader) (name : String.string).

Definition traced (A : Type) : Type := (list event * result A)%type.

Definition tbind {A B} (m : traced A) (k : A -> traced B) : traced B :=
  match m with
  | (t, Ok a) => let (t', r) := k a in (t ++ t', r)
  | (t, Err e) => (t, Err e)
  end.

Notation "x <- m ;; k" := (tbind m (fun x => k))
  (at level 61, m at next level, right associativity).

Definition tret {A} (a : A) : traced A := ([], Ok a).
Definition traise {A} (e : py_error) : traced A := ([], Err e).
Definition lift {A} (r : result A) : traced A := ([], r).
Definition emit (e : event) : traced unit := ([e], Ok tt).

(** The archive: [zf.namelist()] and its members by name; [zf.extract] of a
    missing member raises [KeyError]. *)
Record archive := mk_archive {
  namelist : list String.string;
  member : String.string -> option (list Byte.byte) }.

Definition extract (zf : archive) (name : String.string) : traced (list Byte.byte) :=
  ([Extract name], match member zf name with Some b => Ok b | None => Err KeyError end).

Definition decode {A} (r : reader) (name : String.string) (x : result A) : traced A :=
  ([Decode r name], x).

(** *** Auxiliary-channel members (lines 67-78) *)

Definition is_digit (c : Ascii.ascii) : bool :=
  let n := Ascii.nat_of_ascii c in Nat.leb 48 n && Nat.leb n 57.

(** One or more ASCII digits followed by ".ndc". *)
Fixpoint digits_then_ndc (s : String.string) : bool :=
  match s with
  | String.String c s' => is_digit c && (String.prefix ".ndc"%string s' || digits_then_ndc s')
  | String.EmptyString => false
  end.

(** [re.search(".*_([0-9]+)[.]ndc", f)] succeeds: the leading [.*] may match
    the empty string, so the name contains "_", one or more digits and
    ".ndc", adjacent, somewhere. *)
Fixpoint aux_name_match (s : String.string) : bool :=
  match s with
  | String.String c s' => (Ascii.eqb c "_"%char && digits_then_ndc s') || aux_name_match s'
  | String.EmptyString => false
  end.

(** A row of the concatenated [aux_df]: [t] is NaN for the rows of a frame
    without a [t] column. *)
Record aux_flat := mk_aux_flat {
  f_Index : Z; f_Aux : Z; f_V : Q; f_T : Q; f_t : option Q }.

(** [aux_df] during the loop: whether it has a [t] column, and its rows. *)
Definition aux_acc := (bool * list aux_flat)%type.

(** [pd.concat([aux_df, aux], ignore_index=True)]: rows appended, columns
    united; [pd.DataFrame([])] adds nothing. *)
Definition concat_aux (acc : aux_acc) (aux : aux_table) : aux_acc :=
  match aux with
  | AuxEmpty => acc
  | AuxVT rows =>
      (fst acc, snd acc ++ map (fun r => mk_aux_flat (a65_Index r) (a65_Aux r)
                                          (a65_V r) (a65_T r) None) rows)
  | AuxVTt rows =>
      (true, snd acc ++ map (fun r => mk_aux_flat (a74_Index r) (a74_Aux r)
                                       (a74_V r) (a74_T r) (Some (a74_t r))) rows)
  end.

(** Lines 68-73: the loop over [zf.namelist()]. *)
Fixpoint read_aux_members (state_dict : state_table) (multiplier_dict : multiplier_table)
  (zf : archive) (names : list String.string) (aux_df : aux_acc) : traced aux_acc :=
  match names with
  | [] => tret aux_df
  | f :: names' =>
      if aux_name_match f then
        aux_file <- extract zf f ;;
        dfs <- decode RNdc f (read_ndc state_dict multiplier_dict aux_file) ;;
        read_aux_members state_dict multiplier_dict zf names' (concat_aux aux_df (snd dfs))
      else read_aux_members state_dict multiplier_dict zf names' aux_df
  end.

(** The value columns of [aux_df] besides Index and Aux. *)
Inductive aux_col := ColV | ColT | Colt.

Definition aux_col_name (c : aux_col) : String.string :=
  match c with ColV => "V"%string | ColT => "T"%string | Colt => "t"%string end.

Definition aux_col_value (c : aux_col) (r : aux_flat) : option Q :=
  match c with ColV => Some (f_V r) | ColT => Some (f_T r) | Colt => f_t r end.

(** The distinct values of a column in ascending order (the levels of the
    MultiIndex built by [pivot]). *)
Fixpoint insert_uniq (x : Z) (l : list Z) : list Z :=
  match l with
  | [] => [x]
  | y :: l' => if x <? y then x :: l else if x =? y then l else y :: insert_uniq x l'
  end.

Definition sorted_uniq (l : list Z) : list Z := fold_right insert_uniq [] l.

(** [pivot] raises [ValueError] when an (Index, Aux) pair occurs twice. *)
Fixpoint dup_keys (rows : list aux_flat) : bool :=
  match rows with
  | [] => false
  | r :: rs =>
      existsb (fun r' => (f_Index r' =? f_Index r) && (f_Aux r' =? f_Aux r)) rs || dup_keys rs
  end.

(** Columns of [pvt_df]: value column by Aux level, in that order. *)
Definition pivot_columns (has_t : bool) (auxs : list Z) : list (aux_col * Z) :=
  map (pair ColV) auxs ++ map (pair ColT) auxs ++ (if has_t then map (pair Colt) auxs else []).

(** [''.join(map(str, x))] on a column label [(c, aux)]. *)
Definition column_name (x : aux_col * Z) : String.string :=
  (aux_col_name (fst x) ++ NilZero.string_of_int (Z.to_int (snd x)))%string.

(** The cell of [pvt_df] at row [i] and column [x]: NaN when no aux row has
    that Index and Aux. *)
Definition pivot_cell (rows : list aux_flat) (i : Z) (x : aux_col * Z) : option Q :=
  match find (fun r => (f_Index r =? i) && (f_Aux r =? snd x)) rows with
  | Some r => aux_col_value (fst x) r
  | None => None
  end.

(** Line 75 and 76: [aux_df.pivot(index='Index', columns='Aux')] with its
    column labels joined into strings; rows are the distinct Index values. *)
Definition pivot (acc : aux_acc) : result (list String.string * list (Z * list (option Q))) :=
  let rows := snd acc in
  if dup_keys rows then Err ValueError
  else
    let cols := pivot_columns (fst acc) (sorted_uniq (map f_Aux rows)) in
    Ok (map column_name cols,
        map (fun i => (i, map (pivot_cell rows i) cols)) (sorted_uniq (map f_Index rows))).

Inductive ndax_table :=
| FixedBlockTable (rows : list out_row)
| LegacyTable (aux_columns : list String.string) (rows : list (ndc_row * list (option Q))).

(** Line 77: [data_df.join(pvt_df, on='Index')]: each main row once, with the
    pivot row of its Index, or NaN in every aux column. *)
Definition join_on_index (data : list ndc_row) (cols : list String.string)
  (pvt : list (Z * list (option Q))) : list (ndc_row * list (option Q)) :=
  map (fun d =>
    (d, match find (fun p => fst p =? Index d) pvt with
        | Some p => snd p
        | None => repeat None (length cols)
        end)) data.

(** Lines 74-78. *)
Definition merge_aux (data : list ndc_row) (aux_df : aux_acc) : result ndax_table :=
  match snd aux_df with
  | [] => Ok (LegacyTable [] (map (fun d => (d, [])) data))
  | _ =>
      let* pvt := pivot aux_df in
      Ok (LegacyTable (fst pvt) (join_on_index data (fst pvt) (snd pvt)))
  end.

(** Lines 41-78. *)
Definition read_ndax (state_dict : state_table) (multiplier_dict : multiplier_table)
  (server : String.string) (zf : archive) : traced ndax_table :=
  rev <- lift (revision server) ;;
  if 8 <? rev then traise NotImplementedErr
  else
    data_file <- extract zf "data.ndc"%string ;;
    if 7 <? rev then
      data_df <- decode RNdc8 "data.ndc"%string (read_ndc_8 data_file) ;;
      runInfo_file <- extract zf "data_runInfo.ndc"%string ;;
      runInfo_df <- decode RRunInfo "data_runInfo.ndc"%string (read_data_runInfo_ndc8 runInfo_file) ;;
      mid <- lift (join_runinfo data_df runInfo_df) ;;
      step_file <- extract zf "data_step.ndc"%string ;;
      step_df <- decode RStep "data_step.ndc"%string (read_data_step_ndc8 state_dict step_file) ;;
      tret (FixedBlockTable (merge_step mid step_df))
    else
      dfs <- decode RNdc "data.ndc"%string (read_ndc state_dict multiplier_dict data_file) ;;
      aux_df <- read_aux_members state_dict multiplier_dict zf (namelist zf) (false, []) ;;
      lift (merge_aux (fst dfs) aux_df).

(** What the loop of lines 68-73 may do: extract a member whose name matches
    the pattern and decode it with [read_ndc]. *)
Definition aux_member_event (names : list String.string) (e : event) : Prop :=
  exists f, In f names /\ aux_name_match f = true /\ (e = Extract f \/ e = Decode RNdc f).

(** Row [s - 1] of [step_df]: the step whose Step is [s]. *)
Definition step_at (st : list step_row) (s : Z) : option step_row :=
  if 1 <=? s then nth_error st (Z.to_nat (s - 1)) else None.

(** ** Building synthetic input buffers *)

Definition byte_of_Z (z : Z) : Byte.byte :=
  match Byte.of_N (Z.to_N (z mod 256)) with
  | Some b => b
  | None => Byte.x00
  end.

(** The [w]-byte little-endian encoding of [z mod 2^(8w)]. *)
Fixpoint le_bytes (w : nat) (z : Z) : list Byte.byte :=
  match w with
  | O => []
  | S w' => byte_of_Z z :: le_bytes w' (z / 256)
  end.

Definition zeros (n : nat) : list Byte.byte := repeat Byte.x00 n.

(** A 94-byte legacy main record (type byte 0x55) carrying the given raw
    field values at the offsets read by [_bytes_to_list_ndc]. *)
Definition encode_main (index cycle step status time voltage current
  charge_cap discharge_cap charge_en discharge_en y mo d h mi s range : Z)
  : list Byte.byte :=
  [Byte.x55] ++ zeros 7 ++
  le_bytes 4 index ++ le_bytes 4 cycle ++ le_bytes 1 step ++ le_bytes 1 status ++
  zeros 5 ++ le_bytes 8 time ++ le_bytes 4 voltage ++ le_bytes 4 current ++
  zeros 4 ++ le_bytes 8 charge_cap ++ le_bytes 8 discharge_cap ++
  le_bytes 8 charge_en ++ le_bytes 8 discharge_en ++
  le_bytes 2 y ++ le_bytes 1 mo ++ le_bytes 1 d ++ le_bytes 1 h ++ le_bytes 1 mi ++
  le_bytes 1 s ++ le_bytes 4 range ++ zeros 8.

(** ** Example inputs *)

(** Modelled from the spec: [state_dict] of NewareNDA.dicts is not among the
    sources; this table has the single entry used by the examples below. *)
Definition example_state_dict : state_table :=
  fun code => if code =? 1 then Some "CC_Chg"%string else None.

(** Modelled from the spec: [multiplier_dict] of NewareNDA.dicts is not among
    the sources; Section 8 gives the entry [Range=0 -> multiplier=1]. *)
Definition example_multiplier_dict : multiplier_table :=
  fun range => if range =? 0 then Some 1%Q else None.

(** The record of the end-to-end example of Section 8: Index 1, raw voltage
    36000, raw current 500, range 0, status code 1, on 2023-05-17 10:20:30. *)
Definition example_main_record : list Byte.byte :=
  encode_main 1 0 1 1 5000 36000 500 3600 0 7200 0 2023 5 17 10 20 30 0.


(** A 4096-byte block whose payload region (from byte 132) starts with the
    given sub-records, the rest of the block being zero. *)
Definition fixed_block (entries : list (list Byte.byte)) : list Byte.byte :=
  let payload := concat entries in
  zeros 132 ++ payload ++ zeros (block_len - 132 - length payload).

(** A fixed-block file: the 4096-byte header, then the blocks. *)
Definition fixed_file (blocks : list (list Byte.byte)) : list Byte.byte :=
  zeros block_len ++ concat blocks.

(** One run-info sub-record ['<i29siii2s']. *)
Definition encode_runinfo (time timestamp step index : Z) : list Byte.byte :=
  le_bytes 4 time ++ zeros 29 ++ le_bytes 4 timestamp ++ le_bytes 4 step ++
  le_bytes 4 index ++ zeros 2.

(** One step sub-record ['<ii16sb12s']. *)
Definition encode_step (cycle step_index status : Z) : list Byte.byte :=
  le_bytes 4 cycle ++ le_bytes 4 step_index ++ zeros 16 ++ le_bytes 1 status ++ zeros 12.

(** One main sample ['<ff'] given by the bit patterns of its two floats. *)
Definition encode_sample (vbits cbits : Z) : list Byte.byte :=
  le_bytes 4 vbits ++ le_bytes 4 cbits.

(** A run-info file whose raw Step values are 5, 5, 5, 7, 7, 9 (Section 8). *)
Definition example_runinfo_file : list Byte.byte :=
  fixed_file [fixed_block
    [encode_runinfo 1000 100 5 1; encode_runinfo 2000 200 5 2;
     encode_runinfo 3000 300 5 3; encode_runinfo 4000 400 7 4;
     encode_runinfo 5000 500 7 5; encode_runinfo 6000 600 9 6]].

(** A main-sample file with one block. *)
Definition example_sample_file : list Byte.byte :=
  fixed_file [fixed_block [encode_sample 1 2; encode_sample 3 4]].


(** A legacy ndc file: 517 header bytes, then the records back to back. *)
Definition legacy_file (records : list (list Byte.byte)) : list Byte.byte :=
  zeros ndc_header ++ concat records.

(** Three main records with Index 2, 1 and 2 again. *)
Definition example_legacy_file : list Byte.byte :=
  legacy_file
    [encode_main 2 0 1 1 5000 36000 500 3600 0 7200 0 2023 5 17 10 20 30 0;
     encode_main 1 0 1 1 4000 35000 500 3600 0 7200 0 2023 5 17 10 20 29 0;
     encode_main 2 0 1 1 6000 37000 500 3600 0 7200 0 2023 5 17 10 20 31 0].

(** One 94-byte auxiliary record of type 0x65: channel [aux] at offset 3,
    Index u32@8, V i32@31, T i16@41. *)
Definition encode_aux65 (index aux v t : Z) : list Byte.byte :=
  [Byte.x65] ++ zeros 2 ++ le_bytes 1 aux ++ zeros 4 ++ le_bytes 4 index ++
  zeros 19 ++ le_bytes 4 v ++ zeros 6 ++ le_bytes 2 t ++ zeros 51.

(** One 94-byte auxiliary record of type 0x74: channel [aux] at offset 3,
    Index u32@8, V i32@31, T i16@41, t i16@43. *)
Definition encode_aux74 (index aux v t t2 : Z) : list Byte.byte :=
  [Byte.x74] ++ zeros 2 ++ le_bytes 1 aux ++ zeros 4 ++ le_bytes 4 index ++
  zeros 19 ++ le_bytes 4 v ++ zeros 6 ++ le_bytes 2 t ++ le_bytes 2 t2 ++ zeros 49.

(** An auxiliary ndc file: two temperature records of channel 1. *)
Definition example_aux_file : list Byte.byte :=
  legacy_file [encode_aux65 1 1 12000 250; encode_aux65 2 1 12010 251].

(** A revision 7 archive: data.ndc and one auxiliary-channel member. *)
Definition example_legacy_archive : archive :=
  mk_archive ["VersionInfo.xml"; "data.ndc"; "data_1.ndc"]%string
    (fun f => if String.eqb f "data.ndc" then Some example_legacy_file
              else if String.eqb f "data_1.ndc" then Some example_aux_file else None).

(** A main-sample file whose trailing block holds 144 bytes: its payload
    [bytes[132:-4]] is exactly one sample. *)
Definition example_short_tail_file : list Byte.byte :=
  example_sample_file ++ zeros 132 ++ encode_sample 5 6 ++ zeros 4.

(** Ten main samples, Index 1..10 once numbered. *)
Definition example_samples10 : list (fval * fval) :=
  map (fun k => (FDiv (F32 (Z.of_nat k)) 10000, F32 0)) (seq 1 10).

(** Run-info records at Index 1, 5 and 8. *)
Definition example_ri158 : list runinfo_row :=
  [mk_runinfo 1%Q 100 1 1; mk_runinfo 5%Q 500 1 5; mk_runinfo 8%Q 800 2 8].

(** Run-info records at Index 2, 5 and 8. *)
Definition example_ri258 : list runinfo_row :=
  [mk_runinfo 2%Q 200 1 2; mk_runinfo 5%Q 500 1 5; mk_runinfo 8%Q 800 2 8].

(** A main-sample file holding exactly ten samples in one short block. *)
Definition example_data10_file : list Byte.byte :=
  fixed_file [zeros 132 ++ concat (map (fun k => encode_sample (Z.of_nat k) 0) (seq 1 10))
              ++ zeros 4].

(** A run-info file with records at Index 2, 5 and 8. *)
Definition example_runinfo258_file : list Byte.byte :=
  fixed_file [fixed_block
    [encode_runinfo 2000 200 5 2; encode_runinfo 5000 500 5 5; encode_runinfo 8000 800 7 8]].

(** A run-info file with records at Index 1, 5 and 8. *)
Definition example_runinfo158_file : list Byte.byte :=
  fixed_file [fixed_block
    [encode_runinfo 1000 100 5 1; encode_runinfo 5000 500 5 5; encode_runinfo 8000 800 7 8]].

(** A step file with two steps of status code 1. *)
Definition example_step_file : list Byte.byte :=
  fixed_file [fixed_block [encode_step 0 1 1; encode_step 0 2 1]].


(** * Facts *)

(** ** Slices *)

Lemma py_slice_length a c bs :
  (a <= c)%nat -> (c <= length bs)%nat -> length (py_slice a c bs) = (c - a)%nat.
Proof.
  intros Hac Hc. unfold py_slice.
  rewrite length_firstn, length_skipn. lia.
Qed.

Lemma firstn_py_slice n a c bs :
  (a + n <= c)%nat -> firstn n (py_slice a c bs) = py_slice a (a + n) bs.
Proof.
  intros H. unfold py_slice. rewrite firstn_firstn. f_equal. lia.
Qed.

Lemma skipn_py_slice n a c bs :
  skipn n (py_slice a c bs) = py_slice (a + n) c bs.
Proof.
  unfold py_slice. rewrite skipn_firstn_comm, skipn_skipn.
  replace (n + a)%nat with (a + n)%nat by lia. f_equal. lia.
Qed.

Lemma unpack_py_slice fmt a c bs :
  (a <= c)%nat -> (c <= length bs)%nat -> (c - a)%nat = calcsize fmt ->
  unpack fmt (py_slice a c bs) = Ok (decode_fields fmt (py_slice a c bs)).
Proof.
  intros Hac Hc Hsz. unfold unpack.
  rewrite py_slice_length by lia. rewrite Hsz, Nat.eqb_refl. reflexivity.
Qed.

Lemma py_slice_full a c bs : (c - a = 0)%nat -> decode_fields [] (py_slice a c bs) = [].
Proof. reflexivity. Qed.

(** Decoding the fields of a slice field by field. *)
Lemma decode_fields_py_slice f fs a c bs :
  (a + item_size f <= c)%nat ->
  decode_fields (f :: fs) (py_slice a c bs) =
  (match f with
   | FU _ => VInt (le_u (py_slice a (a + item_size f) bs))
   | FS _ => VInt (le_s (py_slice a (a + item_size f) bs))
   | FStr _ => VBytes (py_slice a (a + item_size f) bs)
   end) :: decode_fields fs (py_slice (a + item_size f) c bs).
Proof.
  intros H. cbn [decode_fields]. rewrite firstn_py_slice by exact H.
  rewrite skipn_py_slice. reflexivity.
Qed.

Ltac decode_slices :=
  repeat (rewrite decode_fields_py_slice by (cbn; lia); cbn [item_size Nat.add]);
  cbn [decode_fields].

(** ** The legacy main-record decoder *)

Section LegacyDecodeFacts.

Variable state_dict : state_table.
Variable multiplier_dict : multiplier_table.

(** [_bytes_to_list_ndc] on a 94-byte record: every [struct.unpack] succeeds,
    and the record is built from the raw fields once the multiplier, the state
    and the datetime are found. *)
Lemma bytes_to_list_ndc_unfold bs :
  length bs = 94%nat ->
  bytes_to_list_ndc state_dict multiplier_dict bs =
  let* multiplier := dict_get multiplier_dict (le_s (py_slice 82 86 bs)) in
  let* status := dict_get state_dict (le_u (py_slice 17 18 bs)) in
  let* ts := py_datetime (le_u (py_slice 75 77 bs)) (le_u (py_slice 77 78 bs))
               (le_u (py_slice 78 79 bs)) (le_u (py_slice 79 80 bs))
               (le_u (py_slice 80 81 bs)) (le_u (py_slice 81 82 bs)) in
  Ok {| Index := le_u (py_slice 8 12 bs);
        Cycle := le_u (py_slice 12 16 bs) + 1;
        Step := le_u (py_slice 16 17 bs);
        Status := status;
        Time := (inject_Z (le_u (py_slice 23 31 bs)) / 1000)%Q;
        Voltage := (inject_Z (le_s (py_slice 31 35 bs)) / 10000)%Q;
        Current := (inject_Z (le_s (py_slice 35 39 bs)) * multiplier)%Q;
        Charge_Capacity := (inject_Z (le_s (py_slice 43 51 bs)) * multiplier / 3600)%Q;
        Discharge_Capacity := (inject_Z (le_s (py_slice 51 59 bs)) * multiplier / 3600)%Q;
        Charge_Energy := (inject_Z (le_s (py_slice 59 67 bs)) * multiplier / 3600)%Q;
        Discharge_Energy := (inject_Z (le_s (py_slice 67 75 bs)) * multiplier / 3600)%Q;
        Timestamp := ts |}.
Proof.
  intros Hlen. unfold bytes_to_list_ndc.
  repeat (rewrite unpack_py_slice by (cbn; lia); cbn [bind]; decode_slices).
  reflexivity.
Qed.

End LegacyDecodeFacts.

(** ** Little-endian encoding *)

Lemma byte_val_of_Z z : byte_val (byte_of_Z z) = z mod 256.
Proof.
  unfold byte_val, byte_of_Z.
  pose proof (Z.mod_pos_bound z 256 ltac:(lia)) as Hb.
  destruct (Byte.of_N (Z.to_N (z mod 256))) as [b|] eqn:E.
  - apply Byte.to_of_N in E. rewrite E. apply Z2N.id. lia.
  - apply Byte.of_N_None_iff in E. apply N2Z.inj_lt in E.
    rewrite Z2N.id in E by lia. lia.
Qed.

Lemma length_le_bytes w z : length (le_bytes w z) = w.
Proof.
  revert z. induction w as [|w IH]; intros z; simpl; [reflexivity | now rewrite IH].
Qed.

Lemma le_u_le_bytes w z : le_u (le_bytes w z) = z mod 2 ^ (8 * Z.of_nat w).
Proof.
  revert z. induction w as [|w IH]; intros z.
  - simpl. rewrite Z.mod_1_r. reflexivity.
  - cbn [le_bytes le_u]. rewrite IH, byte_val_of_Z.
    replace (8 * Z.of_nat (S w)) with (8 + 8 * Z.of_nat w) by lia.
    rewrite Z.pow_add_r by lia.
    rewrite Z.rem_mul_r by (try apply Z.pow_pos_nonneg; lia).
    reflexivity.
Qed.

Lemma le_u_le_bytes_small w z :
  0 <= z < 2 ^ (8 * Z.of_nat w) -> le_u (le_bytes w z) = z.
Proof. intros H. rewrite le_u_le_bytes. apply Z.mod_small. exact H. Qed.

Lemma le_s_le_bytes w z :
  - 2 ^ (8 * Z.of_nat w) <= 2 * z < 2 ^ (8 * Z.of_nat w) ->
  le_s (le_bytes w z) = z.
Proof.
  intros H. unfold le_s. rewrite length_le_bytes, le_u_le_bytes.
  set (m := 2 ^ (8 * Z.of_nat w)) in *.
  assert (Hm : 0 < m) by (apply Z.pow_pos_nonneg; lia).
  destruct (Z_le_gt_dec 0 z) as [Hz | Hz].
  - rewrite Z.mod_small by lia.
    destruct (Z.leb_spec m (2 * z)); lia.
  - assert (E : z mod m = z + m).
    { rewrite <- (Z.mod_small (z + m) m) by lia.
      rewrite <- Z.add_mod_idemp_r by lia. rewrite Z.mod_same by lia.
      rewrite Z.add_0_r. reflexivity. }
    rewrite E. destruct (Z.leb_spec m (2 * (z + m))); lia.
Qed.

Lemma length_encode_main index cycle step status time voltage current cc dc ce de
  y mo d h mi s range :
  length (encode_main index cycle step status time voltage current cc dc ce de
            y mo d h mi s range) = 94%nat.
Proof. reflexivity. Qed.

(** Every field of [encode_main] sits at the offset [_bytes_to_list_ndc] reads. *)
Lemma encode_main_slices index cycle step status time voltage current cc dc ce de
  y mo d h mi s range :
  let bs := encode_main index cycle step status time voltage current cc dc ce de
              y mo d h mi s range in
  py_slice 8 12 bs = le_bytes 4 index /\ py_slice 12 16 bs = le_bytes 4 cycle /\
  py_slice 16 17 bs = le_bytes 1 step /\ py_slice 17 18 bs = le_bytes 1 status /\
  py_slice 23 31 bs = le_bytes 8 time /\ py_slice 31 35 bs = le_bytes 4 voltage /\
  py_slice 35 39 bs = le_bytes 4 current /\ py_slice 43 51 bs = le_bytes 8 cc /\
  py_slice 51 59 bs = le_bytes 8 dc /\ py_slice 59 67 bs = le_bytes 8 ce /\
  py_slice 67 75 bs = le_bytes 8 de /\ py_slice 75 77 bs = le_bytes 2 y /\
  py_slice 77 78 bs = le_bytes 1 mo /\ py_slice 78 79 bs = le_bytes 1 d /\
  py_slice 79 80 bs = le_bytes 1 h /\ py_slice 80 81 bs = le_bytes 1 mi /\
  py_slice 81 82 bs = le_bytes 1 s /\ py_slice 82 86 bs = le_bytes 4 range.
Proof. intros bs. repeat split. Qed.

Section LegacyClaims.

Variable state_dict : state_table.
Variable multiplier_dict : multiplier_table.

(** C1.  On every 94-byte legacy main record whose range code has a multiplier,
    whose status code has a state and whose packed date is a valid calendar
    date, [_bytes_to_list_ndc] returns the raw little-endian fields at the
    documented offsets, scaled as documented: Index u32@8, Step u8@16, the
    state of u8@17, Time u64@23 / 1000, Voltage i32@31 / 10000,
    Current i32@35 * multiplier, the four capacities and energies
    i64@43,51,59,67 * multiplier / 3600, and the timestamp of the six packed
    integers at 75..82 (the multiplier being that of the range i32@82).
    Cycle is the subject of C7.  The type byte is not read by the decoder. *)
Theorem bytes_to_list_ndc_scaled_fields bs multiplier state :
  length bs = 94%nat ->
  multiplier_dict (le_s (py_slice 82 86 bs)) = Some multiplier ->
  state_dict (le_u (py_slice 17 18 bs)) = Some state ->
  valid_datetime (le_u (py_slice 75 77 bs)) (le_u (py_slice 77 78 bs))
    (le_u (py_slice 78 79 bs)) (le_u (py_slice 79 80 bs))
    (le_u (py_slice 80 81 bs)) (le_u (py_slice 81 82 bs)) = true ->
  bytes_to_list_ndc state_dict multiplier_dict bs =
  Ok {| Index := le_u (py_slice 8 12 bs);
        Cycle := le_u (py_slice 12 16 bs) + 1;
        Step := le_u (py_slice 16 17 bs);
        Status := state;
        Time := (inject_Z (le_u (py_slice 23 31 bs)) / 1000)%Q;
        Voltage := (inject_Z (le_s (py_slice 31 35 bs)) / 10000)%Q;
        Current := (inject_Z (le_s (py_slice 35 39 bs)) * multiplier)%Q;
        Charge_Capacity := (inject_Z (le_s (py_slice 43 51 bs)) * multiplier / 3600)%Q;
        Discharge_Capacity := (inject_Z (le_s (py_slice 51 59 bs)) * multiplier / 3600)%Q;
        Charge_Energy := (inject_Z (le_s (py_slice 59 67 bs)) * multiplier / 3600)%Q;
        Discharge_Energy := (inject_Z (le_s (py_slice 67 75 bs)) * multiplier / 3600)%Q;
        Timestamp := mk_dt (le_u (py_slice 75 77 bs)) (le_u (py_slice 77 78 bs))
                       (le_u (py_slice 78 79 bs)) (le_u (py_slice 79 80 bs))
                       (le_u (py_slice 80 81 bs)) (le_u (py_slice 81 82 bs)) |}.
Proof.
  intros Hlen Hm Hs Hd.
  rewrite bytes_to_list_ndc_unfold by exact Hlen.
  unfold dict_get, py_datetime. rewrite Hm, Hs, Hd. reflexivity.
Qed.

(** A synthetic record built with [encode_main] from in-range raw values
    decodes back to those values, scaled as documented. *)
Lemma encode_main_decodes index cycle step status time voltage current cc dc ce de
  y mo d h mi s range multiplier state :
  0 <= index < 2 ^ 32 -> 0 <= cycle < 2 ^ 32 -> 0 <= step < 2 ^ 8 ->
  0 <= status < 2 ^ 8 -> 0 <= time < 2 ^ 64 ->
  - 2 ^ 32 <= 2 * voltage < 2 ^ 32 -> - 2 ^ 32 <= 2 * current < 2 ^ 32 ->
  - 2 ^ 64 <= 2 * cc < 2 ^ 64 -> - 2 ^ 64 <= 2 * dc < 2 ^ 64 ->
  - 2 ^ 64 <= 2 * ce < 2 ^ 64 -> - 2 ^ 64 <= 2 * de < 2 ^ 64 ->
  - 2 ^ 32 <= 2 * range < 2 ^ 32 ->
  0 <= y < 2 ^ 16 -> 0 <= mo < 2 ^ 8 -> 0 <= d < 2 ^ 8 -> 0 <= h < 2 ^ 8 ->
  0 <= mi < 2 ^ 8 -> 0 <= s < 2 ^ 8 ->
  multiplier_dict range = Some multiplier -> state_dict status = Some state ->
  valid_datetime y mo d h mi s = true ->
  bytes_to_list_ndc state_dict multiplier_dict
    (encode_main index cycle step status time voltage current cc dc ce de
       y mo d h mi s range) =
  Ok {| Index := index; Cycle := cycle + 1; Step := step; Status := state;
        Time := (inject_Z time / 1000)%Q;
        Voltage := (inject_Z voltage / 10000)%Q;
        Current := (inject_Z current * multiplier)%Q;
        Charge_Capacity := (inject_Z cc * multiplier / 3600)%Q;
        Discharge_Capacity := (inject_Z dc * multiplier / 3600)%Q;
        Charge_Energy := (inject_Z ce * multiplier / 3600)%Q;
        Discharge_Energy := (inject_Z de * multiplier / 3600)%Q;
        Timestamp := mk_dt y mo d h mi s |}.
Proof.
  intros Hi Hc Hst Hstat Ht Hv Hcur Hcc Hdc Hce Hde Hr Hy Hmo Hd Hh Hmi Hs Hm Hsd Hdt.
  rewrite bytes_to_list_ndc_unfold by apply length_encode_main.
  destruct (encode_main_slices index cycle step status time voltage current cc dc ce de
              y mo d h mi s range)
    as (E1 & E2 & E3 & E4 & E5 & E6 & E7 & E8 & E9 & E10 & E11 & E12 & E13 & E14
        & E15 & E16 & E17 & E18).
  rewrite E1, E2, E3, E4, E5, E6, E7, E8, E9, E10, E11, E12, E13, E14, E15, E16, E17, E18.
  rewrite !le_u_le_bytes_small by (cbn -[Z.pow]; first [assumption | lia]).
  rewrite !le_s_le_bytes by (cbn -[Z.pow]; first [assumption | lia]).
  unfold dict_get, py_datetime. rewrite Hm, Hsd, Hdt. reflexivity.
Qed.

(** C7, as the code has it.  The decoded Cycle of a legacy main record is the
    raw u32 at offset 12 plus one. *)
Theorem bytes_to_list_ndc_cycle bs r :
  length bs = 94%nat ->
  bytes_to_list_ndc state_dict multiplier_dict bs = Ok r ->
  Cycle r = le_u (py_slice 12 16 bs) + 1.
Proof.
  intros Hlen Hr. rewrite bytes_to_list_ndc_unfold in Hr by exact Hlen.
  unfold dict_get in Hr.
  destruct (multiplier_dict _); [|discriminate]. cbn [bind] in Hr.
  destruct (state_dict _); [|discriminate]. cbn [bind] in Hr.
  unfold py_datetime in Hr. destruct (valid_datetime _ _ _ _ _ _); [|discriminate].
  cbn [bind] in Hr. injection Hr as <-. reflexivity.
Qed.

End LegacyClaims.

(** ** Errors propagate through the scans *)

Lemma map_result_fails {A B} (f : A -> result (list B)) (l : list A) x :
  In x l -> (forall y, f x <> Ok y) -> forall ys, map_result f l <> Ok ys.
Proof.
  induction l as [|a l IH]; intros Hin Hx ys; [destruct Hin|].
  cbn [map_result]. destruct Hin as [-> | Hin].
  - destruct (f x) as [y|e] eqn:E; [exfalso; exact (Hx y eq_refl)|]. discriminate.
  - destruct (f a) as [y|e]; [|discriminate]. cbn [bind].
    destruct (map_result f l) as [zs|e] eqn:E; [|discriminate].
    exfalso. exact (IH Hin Hx zs eq_refl).
Qed.

Lemma scan_blocks_fails {A} fmt trim (f : list pyval -> result (list A)) blocks b items i :
  In b blocks -> iter_unpack fmt (py_slice_neg 132 trim b) = Ok items -> In i items ->
  (forall y, f i <> Ok y) -> forall ys, scan_blocks fmt trim f blocks <> Ok ys.
Proof.
  intros Hb Hit Hi Hf. unfold scan_blocks.
  apply (map_result_fails _ _ b Hb). intros y. rewrite Hit. cbn [bind].
  apply (map_result_fails _ _ i Hi Hf).
Qed.

(** C6.  A missing multiplier or a missing state is a [KeyError]: for a legacy
    main record whose range code (i32@82) has no multiplier, or whose status
    code (u8@17) has no state, [_bytes_to_list_ndc] raises; a non-padding
    entry (Step_Index <> 0) of a step file whose status byte has no state makes
    [read_data_step_ndc8] raise.  No default is substituted. *)
Theorem missing_table_entry_is_error (state_dict : state_table)
  (multiplier_dict : multiplier_table) :
  (forall bs, length bs = 94%nat ->
     multiplier_dict (le_s (py_slice 82 86 bs)) = None ->
     bytes_to_list_ndc state_dict multiplier_dict bs = Err KeyError) /\
  (forall bs, length bs = 94%nat ->
     state_dict (le_u (py_slice 17 18 bs)) = None ->
     bytes_to_list_ndc state_dict multiplier_dict bs = Err KeyError) /\
  (forall buf blocks b items cyc si x status y,
     read_blocks buf = Ok blocks -> In b blocks ->
     iter_unpack fmt_step (py_slice_neg 132 5 b) = Ok items ->
     In [VInt cyc; VInt si; VBytes x; VInt status; VBytes y] items ->
     si <> 0 -> state_dict status = None ->
     forall rows, read_data_step_ndc8 state_dict buf <> Ok rows).
Proof.
  split; [|split].
  - intros bs Hlen Hm. rewrite bytes_to_list_ndc_unfold by exact Hlen.
    unfold dict_get. rewrite Hm. reflexivity.
  - intros bs Hlen Hs. rewrite bytes_to_list_ndc_unfold by exact Hlen.
    unfold dict_get. destruct (multiplier_dict _); [|reflexivity].
    cbn [bind]. rewrite Hs. reflexivity.
  - intros buf blocks b items cyc si x status y Hbl Hb Hit Hi Hsi Hs rows.
    unfold read_data_step_ndc8, read_data_step_rec. rewrite Hbl. cbn [bind].
    destruct (scan_blocks fmt_step 5 (step_item state_dict) blocks) as [rec|e] eqn:E;
      [|discriminate].
    exfalso. refine (scan_blocks_fails _ _ _ _ _ _ _ Hb Hit Hi _ rec E).
    intros z. unfold step_item, dict_get.
    rewrite (proj2 (Z.eqb_neq si 0) Hsi), Hs. cbn. discriminate.
Qed.

Lemma missing_table_entry_is_error_witness :
  bytes_to_list_ndc example_state_dict example_multiplier_dict
    (encode_main 1 0 1 1 5000 36000 500 0 0 0 0 2023 5 17 10 20 30 7) = Err KeyError.
Proof.
  apply (proj1 (missing_table_entry_is_error example_state_dict example_multiplier_dict));
    vm_compute; reflexivity.
Defined.

Lemma bytes_to_list_ndc_scaled_fields_witness :
  bytes_to_list_ndc example_state_dict example_multiplier_dict example_main_record =
  Ok {| Index := 1; Cycle := 1; Step := 1; Status := "CC_Chg"%string;
        Time := (inject_Z 5000 / 1000)%Q;
        Voltage := (inject_Z 36000 / 10000)%Q;
        Current := (inject_Z 500 * 1)%Q;
        Charge_Capacity := (inject_Z 3600 * 1 / 3600)%Q;
        Discharge_Capacity := (inject_Z 0 * 1 / 3600)%Q;
        Charge_Energy := (inject_Z 7200 * 1 / 3600)%Q;
        Discharge_Energy := (inject_Z 0 * 1 / 3600)%Q;
        Timestamp := mk_dt 2023 5 17 10 20 30 |}.
Proof.
  exact (bytes_to_list_ndc_scaled_fields example_state_dict example_multiplier_dict
           example_main_record 1%Q "CC_Chg"%string eq_refl eq_refl eq_refl eq_refl).
Defined.

Lemma bytes_to_list_ndc_cycle_witness :
  exists r, bytes_to_list_ndc example_state_dict example_multiplier_dict
              example_main_record = Ok r /\
            Cycle r = le_u (py_slice 12 16 example_main_record) + 1.
Proof.
  eexists. split.
  - vm_compute. reflexivity.
  - apply (bytes_to_list_ndc_cycle example_state_dict example_multiplier_dict
             example_main_record); [reflexivity | vm_compute; reflexivity].
Defined.

(** C7 as stated fails: the record of Section 8 has raw cycle 0 at offset 12
    and decodes with Cycle 1.  The + 1 is written out at line 229, as it is
    for the step records at line 149. *)
Lemma bytes_to_list_ndc_cycle_not_raw :
  le_u (py_slice 12 16 example_main_record) = 0 /\
  exists r, bytes_to_list_ndc example_state_dict example_multiplier_dict
              example_main_record = Ok r /\ Cycle r = 1.
Proof.
  split; [reflexivity|]. eexists. split; [vm_compute; reflexivity | reflexivity].
Qed.

(** ** Scanned lists *)

Lemma map_result_Forall {A B} (P : B -> Prop) (f : A -> result (list B)) l ys :
  (forall x zs, f x = Ok zs -> Forall P zs) ->
  map_result f l = Ok ys -> Forall P ys.
Proof.
  intros Hf. revert ys. induction l as [|x l IH]; intros ys H.
  - cbn in H. injection H as <-. constructor.
  - cbn [map_result] in H. destruct (f x) as [zs|e] eqn:E; [|discriminate].
    cbn [bind] in H. destruct (map_result f l) as [ws|e] eqn:E'; [|discriminate].
    cbn [bind] in H. injection H as <-.
    apply Forall_app. split; [exact (Hf x zs E) | exact (IH ws eq_refl)].
Qed.

(** ** Run-info step normalisation *)

Lemma length_count_changes_from prev c l : length (count_changes_from prev c l) = length l.
Proof.
  revert prev c. induction l as [|x l IH]; intros prev c; cbn; [reflexivity | now rewrite IH].
Qed.

Lemma length_count_changes l : length (count_changes l) = length l.
Proof. destruct l; cbn; [reflexivity | now rewrite length_count_changes_from]. Qed.

Lemma count_changes_from_step l prev c k x y cx cy :
  nth_error (prev :: l) k = Some x -> nth_error (prev :: l) (S k) = Some y ->
  nth_error (c :: count_changes_from prev c l) k = Some cx ->
  nth_error (c :: count_changes_from prev c l) (S k) = Some cy ->
  cy = cx + (if y =? x then 0 else 1).
Proof.
  revert prev c k. induction l as [|a l IH]; intros prev c k Hx Hy Hcx Hcy.
  - destruct k; discriminate.
  - destruct k as [|k].
    + cbn in Hx, Hy, Hcx, Hcy. injection Hx as <-. injection Hy as <-.
      injection Hcx as <-. injection Hcy as <-.
      destruct (a =? prev); lia.
    + cbn [nth_error] in Hx, Hy. cbn [count_changes_from nth_error] in Hcx, Hcy.
      exact (IH a _ k Hx Hy Hcx Hcy).
Qed.

Lemma nth_error_set_steps rs ss k r :
  nth_error (set_steps rs ss) k = Some r ->
  exists r0 s, nth_error rs k = Some r0 /\ nth_error ss k = Some s /\
               r = mk_runinfo (ri_Time r0) (ri_Timestamp r0) s (ri_Index r0).
Proof.
  revert ss k. induction rs as [|r0 rs IH]; intros ss k H.
  - destruct k; discriminate.
  - destruct ss as [|s ss]; [destruct k; discriminate|].
    destruct k as [|k]; cbn in H |- *.
    + injection H as <-. eauto.
    + exact (IH ss k H).
Qed.

(** C3.  The run-info scanner keeps the entries with a non-zero Index and
    replaces their raw Step by a counter: the first row has Step 1 and each
    next row's Step is the previous one's plus 1 exactly when the raw value
    differs from the previous record's raw value; [5;5;5;7;7;9] becomes
    [1;1;1;2;2;3]. *)
Theorem runinfo_step_counter buf rows :
  read_data_runInfo_ndc8 buf = Ok rows ->
  exists raw,
    read_data_runInfo_rec buf = Ok raw /\
    Forall (fun r => ri_Index r <> 0) raw /\
    length rows = length raw /\
    map ri_Index rows = map ri_Index raw /\
    (forall r, nth_error rows 0 = Some r -> ri_Step r = 1) /\
    (forall k a b ra rb,
       nth_error raw k = Some ra -> nth_error raw (S k) = Some rb ->
       nth_error rows k = Some a -> nth_error rows (S k) = Some b ->
       ri_Step b = ri_Step a + (if ri_Step rb =? ri_Step ra then 0 else 1)) /\
    count_changes [5; 5; 5; 7; 7; 9] = [1; 1; 1; 2; 2; 3].
Proof.
  unfold read_data_runInfo_ndc8. intros H.
  destruct (read_data_runInfo_rec buf) as [raw|e] eqn:E; [|discriminate].
  cbn [bind] in H. injection H as <-. exists raw.
  assert (Hlen : length (set_steps raw (count_changes (map ri_Step raw))) = length raw).
  { assert (G : forall rs ss, length ss = length rs -> length (set_steps rs ss) = length rs).
    { induction rs as [|r rs IH]; intros [|s ss] Hl; cbn in *; try lia.
      rewrite IH; lia. }
    apply G. rewrite length_count_changes, length_map. reflexivity. }
  split; [reflexivity|]. split.
  - unfold read_data_runInfo_rec in E. destruct (read_blocks buf) as [bl|e]; [|discriminate].
    cbn [bind] in E. unfold scan_blocks in E.
    refine (map_result_Forall _ _ _ _ _ E). intros b zs Hb.
    destruct (iter_unpack fmt_runinfo (py_slice_neg 132 63 b)) as [items|e];
      cbn [bind] in Hb; [|discriminate].
    refine (map_result_Forall _ _ _ _ _ Hb). intros i ws Hi.
    unfold runinfo_item in Hi.
    destruct i as [|[t|?] [|?[|[ts|?][|[st|?][|[ix|?][|? [|]]]]]]]; try discriminate.
    destruct (negb (ix =? 0)) eqn:Hix; injection Hi as <-; [|constructor].
    constructor; [|constructor]. cbn. apply negb_true_iff, Z.eqb_neq in Hix. exact Hix.
  - split; [exact Hlen|]. split.
    + assert (G : forall rs ss, length ss = length rs ->
                  map ri_Index (set_steps rs ss) = map ri_Index rs).
      { induction rs as [|r rs IH]; intros [|s ss] Hl; cbn in *; try lia; [reflexivity|].
        rewrite IH by lia. reflexivity. }
      apply G. rewrite length_count_changes, length_map. reflexivity.
    + split; [|split; [|reflexivity]].
      * intros r Hr. apply nth_error_set_steps in Hr as (r0 & s & Hr0 & Hs & ->).
        destruct raw as [|x raw]; [discriminate|]. cbn in Hs. injection Hs as <-.
        reflexivity.
      * intros k a b ra rb Hra Hrb Ha Hb.
        apply nth_error_set_steps in Ha as (a0 & sa & Ha0 & Hsa & ->).
        apply nth_error_set_steps in Hb as (b0 & sb & Hb0 & Hsb & ->).
        cbn [ri_Step].
        rewrite Ha0 in Hra. injection Hra as <-. rewrite Hb0 in Hrb. injection Hrb as <-.
        destruct raw as [|x raw]; [destruct k; discriminate|].
        cbn [map count_changes] in Hsa, Hsb.
        apply (count_changes_from_step (map ri_Step raw) (ri_Step x) 1 k
                 (ri_Step a0) (ri_Step b0) sa sb); try assumption.
        -- change (ri_Step x :: map ri_Step raw) with (map ri_Step (x :: raw)).
           rewrite nth_error_map, Ha0. reflexivity.
        -- change (ri_Step x :: map ri_Step raw) with (map ri_Step (x :: raw)).
           rewrite nth_error_map, Hb0. reflexivity.
Qed.

Lemma runinfo_step_counter_witness :
  exists rows raw,
    read_data_runInfo_ndc8 example_runinfo_file = Ok rows /\
    read_data_runInfo_rec example_runinfo_file = Ok raw /\
    length rows = length raw.
Proof.
  destruct (read_data_runInfo_ndc8 example_runinfo_file) as [rows|e] eqn:E;
    [|vm_compute in E; discriminate].
  destruct (runinfo_step_counter _ _ E) as (raw & Hraw & _ & Hlen & _).
  exists rows, raw. split; [reflexivity|]. split; [exact Hraw | exact Hlen].
Defined.

(** ** Main-sample numbering *)

Lemma number_rows_index n rec :
  map m_Index (number_rows (Z.of_nat n) rec) = map Z.of_nat (seq n (length rec)).
Proof.
  revert n. induction rec as [|[v c] rec IH]; intros n; [reflexivity|].
  cbn [number_rows map length seq]. f_equal.
  replace (Z.of_nat n + 1) with (Z.of_nat (S n)) by lia. apply IH.
Qed.

Lemma number_rows_values k rec :
  map (fun r => (m_Voltage r, m_Current r)) (number_rows k rec) = rec.
Proof.
  revert k. induction rec as [|[v c] rec IH]; intros k; [reflexivity|].
  cbn [number_rows map]. f_equal. apply IH.
Qed.

(** C10.  [read_ndc_8] numbers the decoded (voltage, current) pairs itself:
    in block order, the n-th pair gets Index n, so the Index column is exactly
    1, 2, ..., N. *)
Theorem read_ndc_8_index buf rows :
  read_ndc_8 buf = Ok rows ->
  exists rec,
    read_ndc_8_rec buf = Ok rec /\
    map (fun r => (m_Voltage r, m_Current r)) rows = rec /\
    map m_Index rows = map Z.of_nat (seq 1 (length rows)).
Proof.
  unfold read_ndc_8. intros H.
  destruct (read_ndc_8_rec buf) as [rec|e]; [|discriminate].
  cbn [bind] in H. injection H as <-. exists rec.
  split; [reflexivity|]. split; [apply number_rows_values|].
  assert (Hl : length (number_rows 1 rec) = length rec).
  { rewrite <- (length_map (fun r => (m_Voltage r, m_Current r))).
    now rewrite number_rows_values. }
  rewrite Hl. exact (number_rows_index 1 rec).
Qed.

Lemma read_ndc_8_index_witness :
  exists rows rec,
    read_ndc_8 example_sample_file = Ok rows /\
    read_ndc_8_rec example_sample_file = Ok rec /\
    map m_Index rows = map Z.of_nat (seq 1 (length rows)).
Proof.
  destruct (read_ndc_8 example_sample_file) as [rows|e] eqn:E;
    [|vm_compute in E; discriminate].
  destruct (read_ndc_8_index _ _ E) as (rec & Hrec & _ & Hidx).
  exists rows, rec. split; [reflexivity|]. split; [exact Hrec | exact Hidx].
Defined.

(** ** Version routing *)

Lemma tbind_ok {A B} t (a : A) (k : A -> traced B) :
  tbind (t, Ok a) k = (t ++ fst (k a), snd (k a)).
Proof. unfold tbind. destruct (k a); reflexivity. Qed.

Lemma tbind_err {A B} t e (k : A -> traced B) : tbind (t, Err e) k = (t, Err e).
Proof. reflexivity. Qed.

Lemma revision_range server rev : revision server = Ok rev -> 0 <= rev <= 9.
Proof.
  unfold revision, py_int_of_char. destruct (String.get 14 server) as [c|]; [|discriminate].
  destruct (_ && _) eqn:E; [|discriminate]. intros H. injection H as <-.
  apply andb_true_iff in E as [E1 E2]. apply Z.leb_le in E1, E2. lia.
Qed.

Lemma tbind_fst {A B} (m : traced A) (k : A -> traced B) :
  fst (tbind m k) = fst m ++ match snd m with Ok a => fst (k a) | Err _ => [] end.
Proof.
  destruct m as [t [a|e]]; cbn [tbind fst snd].
  - destruct (k a); reflexivity.
  - symmetry. apply app_nil_r.
Qed.

Lemma read_aux_members_trace state_dict multiplier_dict zf names acc :
  Forall (aux_member_event names)
    (fst (read_aux_members state_dict multiplier_dict zf names acc)).
Proof.
  revert acc. induction names as [|f names IH]; intros acc; cbn [read_aux_members].
  - constructor.
  - assert (Hw : forall l, Forall (aux_member_event names) l ->
                   Forall (aux_member_event (f :: names)) l).
    { intros l. apply Forall_impl. intros e (g & Hg & Hm & He).
      exists g. split; [right; exact Hg | split; assumption]. }
    destruct (aux_name_match f) eqn:Ef; [|apply Hw, IH].
    rewrite tbind_fst. apply Forall_app. split.
    + constructor; [|constructor].
      exists f. split; [left; reflexivity | split; [exact Ef | left; reflexivity]].
    + destruct (snd (extract zf f)) as [b|e]; [|constructor].
      rewrite tbind_fst. apply Forall_app. split.
      * constructor; [|constructor].
        exists f. split; [left; reflexivity | split; [exact Ef | right; reflexivity]].
      * destruct (snd (decode RNdc f _)); [apply Hw, IH | constructor].
Qed.

Lemma read_aux_members_none state_dict multiplier_dict zf names acc :
  (forall f, In f names -> aux_name_match f = false) ->
  read_aux_members state_dict multiplier_dict zf names acc = tret acc.
Proof.
  revert acc. induction names as [|f names IH]; intros acc H; [reflexivity|].
  cbn [read_aux_members]. rewrite (H f (or_introl eq_refl)).
  apply IH. intros g Hg. apply H. right. exact Hg.
Qed.

Lemma merge_aux_main data acc tbl :
  merge_aux data acc = Ok tbl ->
  exists cols rows, tbl = LegacyTable cols rows /\ map fst rows = data.
Proof.
  unfold merge_aux. destruct (snd acc) as [|r rs].
  - intros H. injection H as <-. do 2 eexists. split; [reflexivity|].
    rewrite map_map. apply map_id.
  - destruct (pivot acc) as [pvt|e]; cbn [bind]; [|discriminate].
    intros H. injection H as <-. do 2 eexists. split; [reflexivity|].
    unfold join_on_index. rewrite map_map. apply map_id.
Qed.

(** C4.  [read_ndax] routes on [int(server[14])] alone: a revision above 8
    raises [NotImplementedError] before any member is extracted or decoded;
    revision 8 extracts data.ndc and decodes it with [read_ndc_8] first;
    revisions up to 7 extract data.ndc and decode it with [read_ndc], then
    only extract and decode, with the same [read_ndc], the auxiliary-channel
    members whose name matches "_<digits>.ndc", and the rows of the table are
    the main rows of data.ndc; without such members nothing else is read. *)
Theorem read_ndax_routes (state_dict : state_table) (multiplier_dict : multiplier_table)
  server zf rev :
  revision server = Ok rev ->
  (8 < rev -> read_ndax state_dict multiplier_dict server zf = ([], Err NotImplementedErr)) /\
  (rev = 8 -> forall data, member zf "data.ndc"%string = Some data ->
     exists t, fst (read_ndax state_dict multiplier_dict server zf) =
               Extract "data.ndc"%string :: Decode RNdc8 "data.ndc"%string :: t) /\
  (rev <= 7 -> forall data, member zf "data.ndc"%string = Some data ->
     (exists t, fst (read_ndax state_dict multiplier_dict server zf) =
                Extract "data.ndc"%string :: Decode RNdc "data.ndc"%string :: t /\
                Forall (aux_member_event (namelist zf)) t) /\
     (forall tbl, snd (read_ndax state_dict multiplier_dict server zf) = Ok tbl ->
        exists dfs cols rows, read_ndc state_dict multiplier_dict data = Ok dfs /\
          tbl = LegacyTable cols rows /\ map fst rows = fst dfs) /\
     ((forall f, In f (namelist zf) -> aux_name_match f = false) ->
      read_ndax state_dict multiplier_dict server zf =
      ([Extract "data.ndc"%string; Decode RNdc "data.ndc"%string],
       match read_ndc state_dict multiplier_dict data with
       | Ok dfs => Ok (LegacyTable [] (map (fun d => (d, [])) (fst dfs)))
       | Err e => Err e
       end))).
Proof.
  intros Hrev. unfold read_ndax, lift. rewrite Hrev, tbind_ok. cbn [fst snd app].
  split; [|split].
  - intros Hgt. replace (8 <? rev) with true by (symmetry; apply Z.ltb_lt; lia).
    reflexivity.
  - intros -> data Hd. cbn [Z.ltb Z.compare]. unfold extract. rewrite Hd, tbind_ok.
    cbn [fst snd app Z.ltb Z.compare Pos.compare Pos.compare_cont]. unfold decode.
    destruct (read_ndc_8 data) as [df|e].
    + rewrite tbind_ok. cbn [fst app]. eexists. reflexivity.
    + rewrite tbind_err. cbn [fst app]. eexists. reflexivity.
  - intros Hle data Hd.
    replace (8 <? rev) with false by (symmetry; apply Z.ltb_ge; lia).
    unfold extract. rewrite Hd, tbind_ok. cbn [fst snd app].
    replace (7 <? rev) with false by (symmetry; apply Z.ltb_ge; lia).
    unfold decode. destruct (read_ndc state_dict multiplier_dict data) as [dfs|e] eqn:Er.
    + rewrite tbind_ok. cbn [fst snd app].
      pose proof (read_aux_members_trace state_dict multiplier_dict zf (namelist zf) (false, []))
        as Htr.
      destruct (read_aux_members state_dict multiplier_dict zf (namelist zf) (false, []))
        as [t [acc|e]] eqn:Ea.
      * rewrite tbind_ok. cbn [fst snd app] in Htr |- *. split; [|split].
        -- exists (t ++ []). split; [reflexivity|]. rewrite app_nil_r. exact Htr.
        -- intros tbl Ht. destruct (merge_aux_main (fst dfs) acc tbl Ht) as (cols & rows & E1 & E2).
           exists dfs, cols, rows. auto.
        -- intros Hno. rewrite read_aux_members_none in Ea by exact Hno.
           injection Ea as <- <-. reflexivity.
      * rewrite tbind_err. cbn [fst snd] in Htr |- *. split; [|split].
        -- exists t. split; [reflexivity | exact Htr].
        -- discriminate.
        -- intros Hno. rewrite read_aux_members_none in Ea by exact Hno. discriminate Ea.
    + rewrite tbind_err. cbn [fst snd]. split; [|split].
      * exists []. split; [reflexivity | constructor].
      * discriminate.
      * reflexivity.
Qed.

Lemma read_ndax_routes_witness :
  read_ndax example_state_dict example_multiplier_dict "BTS_Server_Ver9.0"%string
    (mk_archive [] (fun _ => None)) = ([], Err NotImplementedErr).
Proof.
  apply (proj1 (read_ndax_routes example_state_dict example_multiplier_dict
                  "BTS_Server_Ver9.0"%string (mk_archive [] (fun _ => None)) 9 eq_refl)).
  lia.
Defined.

(** ** Assembling the legacy main table *)

Lemma existsb_index_in (z : Z) seen : existsb (Z.eqb z) seen = true <-> In z seen.
Proof.
  rewrite existsb_exists. split.
  - intros (x & Hx & E). apply Z.eqb_eq in E. now subst.
  - intros H. exists z. split; [exact H | apply Z.eqb_refl].
Qed.

Lemma drop_duplicates_from_fresh seen rows :
  Forall (fun r => ~ In (Index r) seen) (drop_duplicates_from seen rows) /\
  NoDup (map Index (drop_duplicates_from seen rows)).
Proof.
  revert seen. induction rows as [|r rs IH]; intros seen; cbn [drop_duplicates_from].
  - split; constructor.
  - destruct (existsb (Z.eqb (Index r)) seen) eqn:E; [apply IH|].
    destruct (IH (Index r :: seen)) as [Hf Hn]. split.
    + constructor.
      * intros Hin. apply existsb_index_in in Hin. congruence.
      * refine (Forall_impl _ _ Hf). intros x Hx Hin. apply Hx. right. exact Hin.
    + cbn [map]. constructor; [|exact Hn].
      intros Hin. apply in_map_iff in Hin as (x & Ex & Hx).
      rewrite Forall_forall in Hf. apply (Hf x Hx). left. symmetry. exact Ex.
Qed.

(** [drop_duplicates] keeps a row exactly when no earlier row has its Index. *)
Lemma in_drop_duplicates_from seen rows r :
  In r (drop_duplicates_from seen rows) <->
  exists pre post, rows = pre ++ r :: post /\ ~ In (Index r) seen /\
                   ~ In (Index r) (map Index pre).
Proof.
  revert seen. induction rows as [|x rs IH]; intros seen; cbn [drop_duplicates_from].
  - split; [intros []|]. intros (pre & post & E & _). destruct pre; discriminate.
  - destruct (existsb (Z.eqb (Index x)) seen) eqn:E.
    + apply existsb_index_in in E. rewrite IH. split.
      * intros (pre & post & -> & H1 & H2). exists (x :: pre), post.
        split; [reflexivity|]. split; [exact H1|].
        cbn [map In]. intros [Hx | Hx]; [congruence | contradiction].
      * intros (pre & post & Eq & H1 & H2). destruct pre as [|y pre].
        -- injection Eq as -> _. contradiction.
        -- injection Eq as -> ->. exists pre, post. split; [reflexivity|].
           split; [exact H1|]. intros Hin. apply H2. right. exact Hin.
    + assert (Hx : ~ In (Index x) seen) by (rewrite <- existsb_index_in; congruence).
      cbn [In]. rewrite IH. split.
      * intros [<- | (pre & post & -> & H1 & H2)].
        -- exists [], rs. repeat split; auto.
        -- exists (x :: pre), post. split; [reflexivity|].
           split; [intros Hin; apply H1; right; exact Hin|].
           cbn [map In]. intros [Hy | Hy]; [apply H1; left; exact Hy | contradiction].
      * intros (pre & post & Eq & H1 & H2). destruct pre as [|y pre].
        -- injection Eq as -> _. left. reflexivity.
        -- injection Eq as -> ->. right. exists pre, post. split; [reflexivity|].
           split.
           ++ cbn [In]. intros [Hy | Hy]; [apply H2; left; exact Hy | contradiction].
           ++ intros Hin. apply H2. right. exact Hin.
Qed.

Lemma is_monotonic_increasing_sorted l :
  is_monotonic_increasing l = true -> Sorted Z.le l.
Proof.
  induction l as [|a l IH]; intros H; [constructor|].
  destruct l as [|b l]; [repeat constructor|].
  cbn [is_monotonic_increasing] in H. apply andb_true_iff in H as [H1 H2].
  constructor; [exact (IH H2)|]. constructor. apply Z.leb_le. exact H1.
Qed.

Lemma sorted_le_nodup_lt l : Sorted Z.le l -> NoDup l -> Sorted Z.lt l.
Proof.
  induction 1 as [|a l Hs IH Hhd]; intros Hn; [constructor|].
  inversion Hn as [|? ? Hnotin Hn']; subst.
  constructor; [exact (IH Hn')|].
  destruct Hhd as [|b l' Hab]; constructor.
  assert (a <> b) by (intros ->; apply Hnotin; left; reflexivity). lia.
Qed.

Lemma insert_by_index_perm r rows : Permutation (insert_by_index r rows) (r :: rows).
Proof.
  induction rows as [|r' rs IH]; cbn [insert_by_index]; [reflexivity|].
  destruct (Index r <=? Index r'); [reflexivity|].
  rewrite IH. apply perm_swap.
Qed.

Lemma sort_by_index_perm rows : Permutation (sort_by_index rows) rows.
Proof.
  induction rows as [|r rs IH]; cbn [sort_by_index]; [reflexivity|].
  rewrite insert_by_index_perm. apply perm_skip. exact IH.
Qed.

Lemma insert_by_index_sorted r rows :
  Sorted Z.le (map Index rows) -> Sorted Z.le (map Index (insert_by_index r rows)).
Proof.
  induction rows as [|r' rs IH]; intros Hs; cbn [insert_by_index map].
  - repeat constructor.
  - destruct (Z.leb_spec (Index r) (Index r')) as [Hle | Hgt].
    + cbn [map]. constructor; [exact Hs | constructor; exact Hle].
    + inversion Hs as [|? ? Hs' Hhd]; subst.
      cbn [map]. constructor; [exact (IH Hs')|].
      destruct rs as [|r'' rs]; cbn [insert_by_index map].
      * constructor. lia.
      * destruct (Index r <=? Index r''); cbn [map]; constructor;
          [lia | inversion Hhd; assumption].
Qed.

Lemma sort_by_index_sorted rows : Sorted Z.le (map Index (sort_by_index rows)).
Proof.
  induction rows as [|r rs IH]; cbn [sort_by_index]; [constructor|].
  apply insert_by_index_sorted. exact IH.
Qed.

Section LegacyTable.

Variable state_dict : state_table.
Variable multiplier_dict : multiplier_table.

Lemma read_ndc_inv buf df aux :
  read_ndc state_dict multiplier_dict buf = Ok (df, aux) ->
  exists recs, read_ndc_scan state_dict multiplier_dict buf = Ok recs /\
    df = assemble_ndc (main_rows recs) /\
    build_aux_df (py_slice 517 525 buf) (aux_rows recs) = Ok aux.
Proof.
  unfold read_ndc. cbv zeta.
  destruct (read_ndc_scan _ _ buf) as [recs|e]; [|discriminate].
  cbn [bind]. destruct (build_aux_df (py_slice 517 525 buf) (aux_rows recs)) as [a|e] eqn:Ea;
    [|discriminate].
  cbn [bind]. intros H. injection H as <- <-. exists recs. auto.
Qed.

(** C5.  The main table of [read_ndc] has strictly increasing, hence unique,
    Index values; its rows are exactly the rows of the scan that no earlier
    row shares an Index with (first occurrences, no error), and when these are
    already in non-decreasing Index order that order is kept. *)
Theorem read_ndc_index_increasing buf df aux :
  read_ndc state_dict multiplier_dict buf = Ok (df, aux) ->
  exists recs,
    read_ndc_scan state_dict multiplier_dict buf = Ok recs /\
    Sorted Z.lt (map Index df) /\
    (forall r, In r df <->
       exists pre post, main_rows recs = pre ++ r :: post /\
                        ~ In (Index r) (map Index pre)) /\
    (is_monotonic_increasing (map Index (drop_duplicates (main_rows recs))) = true ->
     df = drop_duplicates (main_rows recs)).
Proof.
  intros H. apply read_ndc_inv in H as (recs & Hscan & -> & _).
  exists recs. split; [exact Hscan|].
  set (dd := drop_duplicates (main_rows recs)).
  assert (Hnd : NoDup (map Index dd)) by apply (drop_duplicates_from_fresh [] _).
  assert (Hin : forall r, In r dd <->
            exists pre post, main_rows recs = pre ++ r :: post /\
                             ~ In (Index r) (map Index pre)).
  { intros r. unfold dd, drop_duplicates. rewrite in_drop_duplicates_from. split.
    - intros (pre & post & E & _ & H2). eauto.
    - intros (pre & post & E & H2). exists pre, post. auto. }
  unfold assemble_ndc. fold dd.
  destruct (is_monotonic_increasing (map Index dd)) eqn:Hm.
  - split; [|split; [exact Hin | reflexivity]].
    apply sorted_le_nodup_lt; [apply is_monotonic_increasing_sorted; exact Hm | exact Hnd].
  - split; [|split; [|discriminate]].
    + apply sorted_le_nodup_lt; [apply sort_by_index_sorted|].
      apply (Permutation_NoDup (Permutation_map Index (Permutation_sym (sort_by_index_perm dd)))).
      exact Hnd.
    + intros r. rewrite <- Hin. split; apply Permutation_in;
        [apply sort_by_index_perm | apply Permutation_sym, sort_by_index_perm].
Qed.

End LegacyTable.

Lemma read_ndc_index_increasing_witness :
  exists df aux,
    read_ndc example_state_dict example_multiplier_dict example_legacy_file = Ok (df, aux) /\
    map Index df = [1; 2] /\ Sorted Z.lt (map Index df).
Proof.
  destruct (read_ndc example_state_dict example_multiplier_dict example_legacy_file)
    as [[df aux]|e] eqn:E; [|vm_compute in E; discriminate].
  exists df, aux. split; [reflexivity|].
  destruct (read_ndc_index_increasing _ _ _ _ _ E) as (recs & _ & Hs & _).
  split; [|exact Hs].
  vm_compute in E. injection E as <- _. reflexivity.
Defined.

(** ** The auxiliary table of the legacy scan *)

Lemma bytes_eqb_eq a b : bytes_eqb a b = true -> a = b.
Proof.
  revert b. induction a as [|x a IH]; intros [|y b] H; try discriminate; [reflexivity|].
  cbn in H. apply andb_true_iff in H as [H1 H2].
  apply Byte.byte_dec_bl in H1. f_equal; [exact H1 | exact (IH b H2)].
Qed.

Lemma find_in_spec sub l p0 p :
  find_in sub l p0 = Some p ->
  exists k, p = (p0 + k)%nat /\ firstn (length sub) (skipn k l) = sub.
Proof.
  revert p0. induction l as [|x l IH]; intros p0 H; cbn [find_in] in H.
  - destruct (bytes_eqb _ sub) eqn:E; [|discriminate]. injection H as <-.
    exists 0%nat. split; [lia|]. exact (bytes_eqb_eq _ _ E).
  - destruct (bytes_eqb _ sub) eqn:E.
    + injection H as <-. exists 0%nat. split; [lia|]. exact (bytes_eqb_eq _ _ E).
    + destruct (IH (S p0) H) as (k & -> & Hk). exists (S k). split; [lia|]. exact Hk.
Qed.

Lemma mm_find_spec sub buf start p :
  mm_find sub buf start = Some p ->
  firstn (length sub) (skipn p buf) = sub /\ (Nat.min start (length buf) <= p)%nat.
Proof.
  unfold mm_find. intros H. apply find_in_spec in H as (k & -> & Hk).
  rewrite skipn_skipn in Hk. split; [|lia].
  replace (Nat.min start (length buf) + k)%nat with (k + Nat.min start (length buf))%nat
    by lia. exact Hk.
Qed.

Lemma mm_find_nil buf start p :
  mm_find [] buf start = Some p -> p = Nat.min start (length buf).
Proof.
  unfold mm_find. destruct (skipn (Nat.min start (length buf)) buf); cbn;
    intros H; injection H as <-; reflexivity.
Qed.

Lemma first_byte_py_slice h buf :
  firstn 1 (py_slice h (h + record_len) buf) = firstn 1 (skipn h buf).
Proof.
  unfold py_slice. rewrite firstn_firstn. f_equal. unfold record_len. lia.
Qed.

(** The type byte of a record fixes the variant of an auxiliary record. *)
Definition tag_of (s : scanned) : option Byte.byte :=
  match s with
  | SAux (A65 _) => Some Byte.x65
  | SAux (A74 _) => Some Byte.x74
  | _ => None
  end.

Section AuxScan.

Variable state_dict : state_table.
Variable multiplier_dict : multiplier_table.

Lemma dispatch_record_tag bytes s b :
  dispatch_record state_dict multiplier_dict bytes = Ok s -> tag_of s = Some b ->
  firstn 1 bytes = [b].
Proof.
  unfold dispatch_record. destruct (firstn 1 bytes) as [|c [|d l]] eqn:E.
  - intros H. injection H as <-. discriminate.
  - destruct (Byte.eqb c Byte.x55) eqn:E55.
    { destruct (bytes_to_list_ndc _ _ bytes); [|discriminate].
      intros H. injection H as <-. discriminate. }
    destruct (Byte.eqb c Byte.x65) eqn:E65.
    { apply Byte.byte_dec_bl in E65. subst c.
      destruct (aux_bytes_65_to_list_ndc bytes); [|discriminate].
      intros H Ht. injection H as <-. cbn in Ht. injection Ht as <-. reflexivity. }
    destruct (Byte.eqb c Byte.x74) eqn:E74.
    { apply Byte.byte_dec_bl in E74. subst c.
      destruct (aux_bytes_74_to_list_ndc bytes); [|discriminate].
      intros H Ht. injection H as <-. cbn in Ht. injection Ht as <-. reflexivity. }
    intros H. injection H as <-. discriminate.
  - intros H. injection H as <-. discriminate.
Qed.

Lemma dispatch_record_aux bytes s b :
  dispatch_record state_dict multiplier_dict bytes = Ok s ->
  firstn 1 bytes = [b] -> (b = Byte.x65 \/ b = Byte.x74) -> tag_of s = Some b.
Proof.
  unfold dispatch_record. intros H Eb Hb. rewrite Eb in H.
  destruct Hb as [-> | ->]; cbn in H.
  - destruct (aux_bytes_65_to_list_ndc bytes); [|discriminate].
    injection H as <-. reflexivity.
  - destruct (aux_bytes_74_to_list_ndc bytes); [|discriminate].
    injection H as <-. reflexivity.
Qed.

(** Every record the scan visits starts with the identifier's first byte. *)
Definition at_anchor (buf identifier : list Byte.byte) (h : nat) : Prop :=
  firstn 1 (skipn h buf) = firstn 1 identifier /\
  (identifier = [] -> (length buf <= h)%nat).

Lemma scan_ndc_tags fuel buf identifier h recs :
  scan_ndc state_dict multiplier_dict fuel buf identifier h = Ok recs ->
  at_anchor buf identifier h ->
  Forall (fun s => forall b, tag_of s = Some b -> firstn 1 identifier = [b]) recs.
Proof.
  revert h recs. induction fuel as [|fuel IH]; intros h recs H [Hfirst Hnil];
    cbn [scan_ndc] in H; [discriminate|].
  destruct (Nat.ltb (length buf) h) eqn:Hlt; [discriminate|].
  apply Nat.ltb_ge in Hlt.
  destruct (dispatch_record _ _ _) as [r|e] eqn:Ed; [|discriminate]. cbn [bind] in H.
  assert (Hr : forall b, tag_of r = Some b -> firstn 1 identifier = [b]).
  { intros b Hb. rewrite <- Hfirst, <- first_byte_py_slice.
    exact (dispatch_record_tag _ _ _ Ed Hb). }
  destruct (mm_find identifier buf (h + record_len)) as [h'|] eqn:Ef.
  - destruct (scan_ndc _ _ fuel buf identifier h') as [rest|e] eqn:Es; [|discriminate].
    cbn [bind] in H. injection H as <-. constructor; [exact Hr|].
    apply (IH h' rest Es). split.
    + destruct identifier as [|b id'] eqn:Eid.
      * apply mm_find_nil in Ef. specialize (Hnil eq_refl).
        rewrite skipn_all2 by lia. reflexivity.
      * apply mm_find_spec in Ef as [Ef _]. rewrite <- Ef.
        rewrite firstn_firstn. reflexivity.
    + intros ->. apply mm_find_nil in Ef. specialize (Hnil eq_refl). lia.
  - injection H as <-. constructor; [exact Hr | constructor].
Qed.

Lemma scan_ndc_head fuel buf identifier h recs :
  scan_ndc state_dict multiplier_dict (S fuel) buf identifier h = Ok recs ->
  exists r rest, recs = r :: rest /\
    dispatch_record state_dict multiplier_dict (py_slice h (h + record_len) buf) = Ok r.
Proof.
  cbn [scan_ndc]. destruct (Nat.ltb (length buf) h); [discriminate|].
  destruct (dispatch_record _ _ _) as [r|e]; [|discriminate]. cbn [bind].
  destruct (mm_find identifier buf (h + record_len)).
  - destruct (scan_ndc _ _ fuel buf identifier n) as [rest|e]; [|discriminate].
    cbn [bind]. intros H. injection H as <-. eauto.
  - intros H. injection H as <-. eauto.
Qed.

End AuxScan.

Lemma in_aux_rows a recs : In a (aux_rows recs) <-> In (SAux a) recs.
Proof.
  induction recs as [|s recs IH]; [reflexivity|].
  destruct s as [r|a'|t]; cbn [aux_rows In]; rewrite IH;
    split; intros H; try tauto.
  - destruct H as [H|H]; [discriminate | exact H].
  - destruct H as [<- | H]; [left; reflexivity | right; exact H].
  - destruct H as [H|H]; [injection H as ->; left; reflexivity | right; exact H].
  - destruct H as [H|H]; [discriminate | exact H].
Qed.

Lemma aux_frame65_all aux :
  (forall a, In a aux -> exists r, a = A65 r) ->
  exists rows, aux_frame65 aux = Ok rows /\ map A65 rows = aux.
Proof.
  induction aux as [|a aux IH]; intros H; [exists []; split; reflexivity|].
  destruct (H a (or_introl eq_refl)) as [r ->].
  destruct IH as (rows & E & Em); [intros b Hb; apply H; right; exact Hb|].
  exists (r :: rows). cbn [aux_frame65]. rewrite E. split; [reflexivity|].
  cbn [map]. rewrite Em. reflexivity.
Qed.

Lemma aux_frame74_all aux :
  (forall a, In a aux -> exists r, a = A74 r) ->
  exists rows, aux_frame74 aux = Ok rows /\ map A74 rows = aux.
Proof.
  induction aux as [|a aux IH]; intros H; [exists []; split; reflexivity|].
  destruct (H a (or_introl eq_refl)) as [r ->].
  destruct IH as (rows & E & Em); [intros b Hb; apply H; right; exact Hb|].
  exists (r :: rows). cbn [aux_frame74]. rewrite E. split; [reflexivity|].
  cbn [map]. rewrite Em. reflexivity.
Qed.

Section AuxTable.

Variable state_dict : state_table.
Variable multiplier_dict : multiplier_table.

(** C8.  The auxiliary table of [read_ndc] follows the auxiliary variant the
    scan observed: with a 0x65 record it is the Index/Aux/V/T table of all
    auxiliary records, with a 0x74 record the Index/Aux/V/T/t table, and when
    the scan met no auxiliary record it is the empty table. *)
Theorem read_ndc_aux_columns buf df aux :
  read_ndc state_dict multiplier_dict buf = Ok (df, aux) ->
  exists recs,
    read_ndc_scan state_dict multiplier_dict buf = Ok recs /\
    ((exists a, In (SAux (A65 a)) recs) ->
       exists rows, aux = AuxVT rows /\ map A65 rows = aux_rows recs) /\
    ((exists a, In (SAux (A74 a)) recs) ->
       exists rows, aux = AuxVTt rows /\ map A74 rows = aux_rows recs) /\
    (aux_rows recs = [] -> aux = AuxEmpty).
Proof.
  intros H. destruct (read_ndc_inv state_dict multiplier_dict buf df aux H)
    as (recs & Hs & _ & Ha).
  exists recs. split; [exact Hs|].
  set (identifier := py_slice 517 525 buf) in *.
  assert (Hanchor : at_anchor buf identifier ndc_header).
  { split.
    - unfold identifier, py_slice. rewrite firstn_firstn. reflexivity.
    - intros Hnil. unfold identifier, py_slice in Hnil.
      destruct (skipn 517 buf) as [|x l] eqn:Es; [|discriminate].
      apply (f_equal (@length _)) in Es. rewrite length_skipn in Es.
      cbn in Es. unfold ndc_header. lia. }
  assert (Htags := scan_ndc_tags state_dict multiplier_dict _ _ _ _ _ Hs Hanchor).
  rewrite Forall_forall in Htags.
  assert (Hid : forall b a, In (SAux a) recs -> tag_of (SAux a) = Some b ->
                 firstn 1 identifier = [b]).
  { intros b a Hin Hb. exact (Htags _ Hin b Hb). }
  split; [|split].
  - intros [a Hin].
    assert (E : firstn 1 identifier = [Byte.x65]) by (apply (Hid _ _ Hin); reflexivity).
    unfold build_aux_df in Ha. rewrite E in Ha. cbn in Ha.
    destruct (aux_frame65_all (aux_rows recs)) as (rows & Ef & Em).
    { intros [r|r] Hr; [eauto|]. exfalso.
      apply in_aux_rows in Hr.
      assert (E' : firstn 1 identifier = [Byte.x74]) by (apply (Hid _ _ Hr); reflexivity).
      rewrite E in E'. discriminate. }
    rewrite Ef in Ha. cbn in Ha. injection Ha as <-. eauto.
  - intros [a Hin].
    assert (E : firstn 1 identifier = [Byte.x74]) by (apply (Hid _ _ Hin); reflexivity).
    unfold build_aux_df in Ha. rewrite E in Ha. cbn in Ha.
    destruct (aux_frame74_all (aux_rows recs)) as (rows & Ef & Em).
    { intros [r|r] Hr; [|eauto]. exfalso.
      apply in_aux_rows in Hr.
      assert (E' : firstn 1 identifier = [Byte.x65]) by (apply (Hid _ _ Hr); reflexivity).
      rewrite E in E'. discriminate. }
    rewrite Ef in Ha. cbn in Ha. injection Ha as <-. eauto.
  - intros Hnone.
    destruct (scan_ndc_head state_dict multiplier_dict _ _ _ _ _ Hs) as (r & rest & -> & Hd).
    assert (Hfirst : firstn 1 (py_slice ndc_header (ndc_header + record_len) buf) =
                     firstn 1 identifier).
    { rewrite first_byte_py_slice. exact (proj1 Hanchor). }
    unfold build_aux_df in Ha.
    destruct (firstn 1 identifier) as [|b [|c l]] eqn:E;
      [injection Ha as <-; reflexivity | | injection Ha as <-; reflexivity].
    assert (Hno : forall b', (b = Byte.x65 \/ b = Byte.x74) -> b' = b -> False).
    { intros b' Hb _. pose proof (dispatch_record_aux _ _ _ _ _ Hd Hfirst Hb) as Ht.
      destruct r as [r|[r|r]|t]; try discriminate. all: cbn in Hnone; discriminate. }
    destruct (Byte.eqb b Byte.x65) eqn:E65.
    { apply Byte.byte_dec_bl in E65. exfalso. exact (Hno b (or_introl E65) eq_refl). }
    destruct (Byte.eqb b Byte.x74) eqn:E74.
    { apply Byte.byte_dec_bl in E74. exfalso. exact (Hno b (or_intror E74) eq_refl). }
    injection Ha as <-. reflexivity.
Qed.

End AuxTable.

Lemma read_ndc_aux_columns_witness :
  exists df aux recs,
    read_ndc example_state_dict example_multiplier_dict example_aux_file = Ok (df, aux) /\
    read_ndc_scan example_state_dict example_multiplier_dict example_aux_file = Ok recs /\
    (exists a, In (SAux (A65 a)) recs) /\
    exists rows, aux = AuxVT rows /\ map A65 rows = aux_rows recs.
Proof.
  destruct (read_ndc example_state_dict example_multiplier_dict example_aux_file)
    as [[df aux]|e] eqn:E; [|vm_compute in E; discriminate].
  destruct (read_ndc_aux_columns _ _ _ _ _ E) as (recs & Hs & H65 & _ & _).
  assert (Hin : exists a, In (SAux (A65 a)) recs).
  { vm_compute in Hs. injection Hs as <-. eexists. left. reflexivity. }
  exists df, aux, recs. split; [reflexivity|]. split; [exact Hs|].
  split; [exact Hin | exact (H65 Hin)].
Defined.

(** ** Short trailing blocks of the fixed-block files *)

Lemma length_py_slice_neg a k b :
  length (py_slice_neg a k b) = (length b - k - a)%nat.
Proof.
  unfold py_slice_neg, py_slice. rewrite length_firstn, length_skipn. lia.
Qed.

Lemma chunks_exact n k : forall fuel bs, (0 < n)%nat ->
  length bs = (k * n)%nat -> (length bs <= fuel)%nat ->
  length (chunks n fuel bs) = k.
Proof.
  induction k as [|k IH]; intros fuel bs Hn Hl Hf.
  - destruct bs; [|discriminate]. destruct fuel; reflexivity.
  - destruct bs as [|x bs']; [cbn in Hl; lia|].
    destruct fuel as [|fuel]; [cbn in Hf; lia|].
    cbn [chunks length]. f_equal. apply IH; [exact Hn| |].
    + rewrite length_skipn. cbn [length] in *. lia.
    + rewrite length_skipn. cbn [length] in *. lia.
Qed.

Lemma concat_chunks n : forall fuel bs,
  (0 < n)%nat -> (length bs <= fuel)%nat -> concat (chunks n fuel bs) = bs.
Proof.
  induction fuel as [|fuel IH]; intros bs Hn Hf.
  - destruct bs; [reflexivity | cbn in Hf; lia].
  - destruct bs as [|x bs']; [reflexivity|].
    cbn [chunks concat]. rewrite IH; [apply firstn_skipn | exact Hn|].
    rewrite length_skipn. cbn [length] in *. lia.
Qed.

Lemma chunks_sizes n : forall fuel bs,
  (0 < n)%nat -> Forall (fun c => (0 < length c <= n)%nat) (chunks n fuel bs).
Proof.
  induction fuel as [|fuel IH]; intros bs Hn; [constructor|].
  destruct bs as [|x bs']; [constructor|].
  cbn [chunks]. constructor; [|apply IH; exact Hn].
  rewrite length_firstn. cbn [length]. lia.
Qed.

Lemma read_blocks_ok buf :
  (block_len <= length buf)%nat ->
  read_blocks buf = Ok (chunks block_len (length (skipn block_len buf)) (skipn block_len buf)).
Proof.
  intros H. unfold read_blocks. destruct (Nat.ltb (length buf) block_len) eqn:E.
  - apply Nat.ltb_lt in E. lia.
  - reflexivity.
Qed.

Lemma map_result_app {A B} (f : A -> result (list B)) l1 l2 ys1 ys2 :
  map_result f l1 = Ok ys1 -> map_result f l2 = Ok ys2 ->
  map_result f (l1 ++ l2) = Ok (ys1 ++ ys2).
Proof.
  revert ys1. induction l1 as [|x l1 IH]; intros ys1 H1 H2.
  - cbn in H1. injection H1 as <-. exact H2.
  - cbn [map_result] in H1. destruct (f x) as [y|e] eqn:E; [|discriminate].
    cbn [bind] in H1. destruct (map_result f l1) as [zs|e] eqn:E1; [|discriminate].
    cbn [bind] in H1. injection H1 as <-.
    cbn [app map_result]. rewrite E. cbn [bind]. rewrite (IH zs eq_refl H2).
    cbn [bind]. rewrite app_assoc. reflexivity.
Qed.

Lemma map_result_length_le {A B} (f : A -> result (list B)) l ys :
  (forall x zs, f x = Ok zs -> (length zs <= 1)%nat) ->
  map_result f l = Ok ys -> (length ys <= length l)%nat.
Proof.
  intros Hf. revert ys. induction l as [|x l IH]; intros ys H.
  - cbn in H. injection H as <-. reflexivity.
  - cbn [map_result] in H. destruct (f x) as [zs|e] eqn:E; [|discriminate].
    cbn [bind] in H. destruct (map_result f l) as [ws|e] eqn:E'; [|discriminate].
    cbn [bind] in H. injection H as <-. rewrite length_app.
    specialize (Hf x zs E). specialize (IH ws eq_refl). cbn [length]. lia.
Qed.

Lemma map_result_length_eq {A B} (f : A -> result (list B)) l ys :
  (forall x zs, f x = Ok zs -> length zs = 1%nat) ->
  map_result f l = Ok ys -> length ys = length l.
Proof.
  intros Hf. revert ys. induction l as [|x l IH]; intros ys H.
  - cbn in H. injection H as <-. reflexivity.
  - cbn [map_result] in H. destruct (f x) as [zs|e] eqn:E; [|discriminate].
    cbn [bind] in H. destruct (map_result f l) as [ws|e] eqn:E'; [|discriminate].
    cbn [bind] in H. injection H as <-. rewrite length_app.
    specialize (Hf x zs E). specialize (IH ws eq_refl). cbn [length]. lia.
Qed.

(** A successful block scan decodes each payload as whole sub-records: every
    payload length is a multiple of the sub-record size, and the decoded
    sub-records cover the payloads exactly. *)
Lemma scan_blocks_whole {A} fmt trim (f : list pyval -> result (list A)) blocks out :
  (0 < calcsize fmt)%nat ->
  scan_blocks fmt trim f blocks = Ok out ->
  Forall (fun b => (length (py_slice_neg 132 trim b) mod calcsize fmt = 0)%nat) blocks /\
  exists items,
    (length items * calcsize fmt =
       list_sum (map (fun b => length (py_slice_neg 132 trim b)) blocks))%nat /\
    map_result f items = Ok out.
Proof.
  intros Hn. unfold scan_blocks. revert out.
  induction blocks as [|b blocks IH]; intros out H.
  - cbn in H. injection H as <-. split; [constructor|]. exists []. split; reflexivity.
  - cbn [map_result] in H.
    destruct (iter_unpack fmt (py_slice_neg 132 trim b)) as [items|e] eqn:Eit;
      [|discriminate].
    cbn [bind] in H. destruct (map_result f items) as [y|e] eqn:Ey; [|discriminate].
    cbn [bind] in H.
    destruct (map_result _ blocks) as [ys|e] eqn:Eys; [|discriminate].
    cbn [bind] in H. injection H as <-.
    destruct (IH ys eq_refl) as [Hm (items' & Hl' & Hr')].
    unfold iter_unpack in Eit.
    set (p := py_slice_neg 132 trim b) in *.
    destruct (Nat.eqb (length p mod calcsize fmt) 0) eqn:Emod; [|discriminate].
    apply Nat.eqb_eq in Emod. injection Eit as <-.
    split; [constructor; [exact Emod | exact Hm]|].
    exists (map (decode_fields fmt) (chunks (calcsize fmt) (length p) p) ++ items').
    split.
    + rewrite length_app, length_map.
      rewrite (chunks_exact (calcsize fmt) (length p / calcsize fmt)).
      * cbn [map]. rewrite Nat.mul_add_distr_r, Hl'. change (list_sum (?x :: ?l)) with (x + list_sum l)%nat. fold p.
        pose proof (Nat.div_mod_eq (length p) (calcsize fmt)). lia.
      * exact Hn.
      * pose proof (Nat.div_mod_eq (length p) (calcsize fmt)). lia.
      * lia.
    + apply map_result_app; assumption.
Qed.

Lemma ndc8_item_one i ys : ndc8_item i = Ok ys -> length ys = 1%nat.
Proof.
  unfold ndc8_item. destruct i as [|[v|] [|[c|] []]]; try discriminate.
  intros H. injection H as <-. reflexivity.
Qed.

Lemma runinfo_item_le i ys : runinfo_item i = Ok ys -> (length ys <= 1)%nat.
Proof.
  unfold runinfo_item.
  destruct i as [|[t|] [|x [|[ts|] [|[st|] [|[ix|] [|y []]]]]]]; try discriminate.
  destruct (negb (ix =? 0)); intros H; injection H as <-; cbn; lia.
Qed.

Lemma step_item_le sd i ys : step_item sd i = Ok ys -> (length ys <= 1)%nat.
Proof.
  unfold step_item.
  destruct i as [|[c|] [|[si|] [|x [|[st|] [|y []]]]]]; try discriminate.
  destruct (negb (si =? 0)).
  - destruct (dict_get sd st); [|discriminate]. cbn [bind].
    intros H. injection H as <-. cbn; lia.
  - intros H. injection H as <-. cbn; lia.
Qed.

Lemma fixed_scan_whole {A} fmt trim (f : list pyval -> result (list A)) buf rec :
  (block_len <= length buf)%nat -> (0 < calcsize fmt)%nat ->
  (let* blocks := read_blocks buf in scan_blocks fmt trim f blocks) = Ok rec ->
  let blocks := chunks block_len (length (skipn block_len buf)) (skipn block_len buf) in
  Forall (fun b => ((length b - trim - 132) mod calcsize fmt = 0)%nat) blocks /\
  exists items,
    (length items * calcsize fmt = list_sum (map (fun b => length b - trim - 132) blocks))%nat /\
    map_result f items = Ok rec.
Proof.
  intros Hlen Hn H. rewrite (read_blocks_ok buf Hlen) in H. cbn [bind] in H.
  destruct (scan_blocks_whole fmt trim f _ rec Hn H) as [Hm (items & Hl & Hr)].
  split.
  - eapply Forall_impl; [|exact Hm]. intros b Hb. cbv beta in Hb |- *. rewrite length_py_slice_neg in Hb. exact Hb.
  - exists items. split; [|exact Hr]. rewrite Hl. f_equal. apply map_ext.
    intros b. apply length_py_slice_neg.
Qed.

(** C9 (amended).  The revision 8 scanners cut the bytes after the 4096-byte
    header into blocks of at most 4096 bytes, the last one possibly shorter,
    and decode each payload [bytes[132:-trim]] as whole sub-records only: when
    a scanner returns, every payload length is a multiple of the sub-record
    size (8, 47, 37 bytes) and the decoded sub-records cover the payloads
    exactly (one sample per 8 bytes; at most one run-info or step row per
    47 or 37 bytes, padding entries being dropped).  A payload that is not a
    multiple of the size therefore leaves the scanner without a result. *)
Theorem fixed_block_whole_subrecords (state_dict : state_table) buf :
  (block_len <= length buf)%nat ->
  exists blocks,
    read_blocks buf = Ok blocks /\
    concat blocks = skipn block_len buf /\
    Forall (fun b => (0 < length b <= block_len)%nat) blocks /\
    (forall rec, read_ndc_8_rec buf = Ok rec ->
       Forall (fun b => ((length b - 4 - 132) mod 8 = 0)%nat) blocks /\
       (length rec * 8 = list_sum (map (fun b => length b - 4 - 132) blocks))%nat) /\
    (forall rec, read_data_runInfo_rec buf = Ok rec ->
       Forall (fun b => ((length b - 63 - 132) mod 47 = 0)%nat) blocks /\
       (length rec * 47 <= list_sum (map (fun b => length b - 63 - 132) blocks))%nat) /\
    (forall rec, read_data_step_rec state_dict buf = Ok rec ->
       Forall (fun b => ((length b - 5 - 132) mod 37 = 0)%nat) blocks /\
       (length rec * 37 <= list_sum (map (fun b => length b - 5 - 132) blocks))%nat).
Proof.
  intros Hlen.
  exists (chunks block_len (length (skipn block_len buf)) (skipn block_len buf)).
  split; [exact (read_blocks_ok buf Hlen)|].
  split; [apply concat_chunks; [unfold block_len; lia | reflexivity]|].
  split; [apply chunks_sizes; unfold block_len; lia|].
  split; [|split].
  - intros rec H.
    destruct (fixed_scan_whole fmt_ff 4 ndc8_item buf rec Hlen ltac:(cbn; lia) H)
      as [Hm (items & Hl & Hr)].
    split; [exact Hm|].
    rewrite (map_result_length_eq _ _ _ ndc8_item_one Hr). exact Hl.
  - intros rec H.
    destruct (fixed_scan_whole fmt_runinfo 63 runinfo_item buf rec Hlen ltac:(cbn; lia) H)
      as [Hm (items & Hl & Hr)].
    split; [exact Hm|].
    pose proof (map_result_length_le _ _ _ runinfo_item_le Hr).
    change (calcsize fmt_runinfo) with 47%nat in Hl. lia.
  - intros rec H.
    destruct (fixed_scan_whole fmt_step 5 (step_item state_dict) buf rec Hlen
                ltac:(cbn; lia) H) as [Hm (items & Hl & Hr)].
    split; [exact Hm|].
    pose proof (map_result_length_le _ _ _ (step_item_le state_dict) Hr).
    change (calcsize fmt_step) with 37%nat in Hl. lia.
Qed.

Lemma fixed_block_whole_subrecords_witness :
  (block_len <= length example_short_tail_file)%nat /\
  (exists rec, read_ndc_8_rec example_short_tail_file = Ok rec /\ length rec = 496%nat) /\
  exists blocks,
    read_blocks example_short_tail_file = Ok blocks /\
    concat blocks = skipn block_len example_short_tail_file /\
    Forall (fun b => (0 < length b <= block_len)%nat) blocks /\
    (forall rec, read_ndc_8_rec example_short_tail_file = Ok rec ->
       Forall (fun b => ((length b - 4 - 132) mod 8 = 0)%nat) blocks /\
       (length rec * 8 = list_sum (map (fun b => length b - 4 - 132) blocks))%nat) /\
    (forall rec, read_data_runInfo_rec example_short_tail_file = Ok rec ->
       Forall (fun b => ((length b - 63 - 132) mod 47 = 0)%nat) blocks /\
       (length rec * 47 <= list_sum (map (fun b => length b - 63 - 132) blocks))%nat) /\
    (forall rec, read_data_step_rec example_state_dict example_short_tail_file = Ok rec ->
       Forall (fun b => ((length b - 5 - 132) mod 37 = 0)%nat) blocks /\
       (length rec * 37 <= list_sum (map (fun b => length b - 5 - 132) blocks))%nat).
Proof.
  assert (Hlen : (block_len <= length example_short_tail_file)%nat).
  { apply Nat.leb_le. vm_compute. reflexivity. }
  split; [exact Hlen|]. split.
  - eexists. split; [vm_compute; reflexivity | reflexivity].
  - exact (fixed_block_whole_subrecords example_state_dict _ Hlen).
Defined.

(** C9.  A trailing block whose payload is not a whole number of sub-records
    makes [struct.iter_unpack] raise: with a 137-byte trailing block (one
    payload byte) [read_ndc_8] fails, and so do the run-info and step
    scanners on 196- and 138-byte trailing blocks. *)
Lemma fixed_block_short_tail_error :
  read_ndc_8 (zeros 4096 ++ zeros 137) = Err StructError /\
  read_data_runInfo_ndc8 (zeros 4096 ++ zeros 196) = Err StructError /\
  read_data_step_ndc8 example_state_dict (zeros 4096 ++ zeros 138) = Err StructError.
Proof.
  split; [|split]; vm_compute; reflexivity.
Qed.

(** ** Merging run-info into the main samples (read_ndax, lines 52-59) *)

Lemma strongly_sorted_split {A} (R : A -> A -> Prop) pre x post :
  StronglySorted R (pre ++ x :: post) ->
  (forall y, In y pre -> R y x) /\ (forall y, In y post -> R x y).
Proof.
  induction pre as [|p pre IH]; intros H; cbn [app] in H.
  - apply StronglySorted_inv in H as [_ H]. split; [intros y []|].
    intros y Hy. rewrite Forall_forall in H. exact (H y Hy).
  - apply StronglySorted_inv in H as [H Hf]. destruct (IH H) as [H1 H2].
    split; [|exact H2]. intros y [<- | Hy]; [|exact (H1 y Hy)].
    rewrite Forall_forall in Hf. apply Hf. apply in_or_app. right. left. reflexivity.
Qed.

Lemma filter_index_sorted ri z :
  StronglySorted (fun a b => ri_Index a < ri_Index b) ri ->
  filter (fun r => ri_Index r =? z) ri =
  match find (fun r => ri_Index r =? z) ri with None => [] | Some r => [r] end.
Proof.
  induction ri as [|r ri IH]; intros H; [reflexivity|].
  apply StronglySorted_inv in H as [H Hf]. cbn [filter find].
  destruct (ri_Index r =? z) eqn:E.
  - f_equal. apply Z.eqb_eq in E. subst z.
    rewrite Forall_forall in Hf. clear IH H.
    induction ri as [|r' ri IH']; [reflexivity|].
    cbn [filter]. destruct (ri_Index r' =? ri_Index r) eqn:E'.
    + apply Z.eqb_eq in E'. specialize (Hf r' (or_introl eq_refl)). lia.
    + apply IH'. intros y Hy. apply Hf. right. exact Hy.
  - exact (IH H).
Qed.

Lemma merge_runinfo_sorted data ri :
  StronglySorted (fun a b => ri_Index a < ri_Index b) ri ->
  merge_runinfo data ri =
  map (fun d => let m := find (fun r => ri_Index r =? m_Index d) ri in
         mk_joined (m_Voltage d) (m_Current d) (m_Index d)
           (option_map ri_Time m) (option_map ri_Timestamp m) (option_map ri_Step m)) data.
Proof.
  intros H. unfold merge_runinfo. induction data as [|d data IH]; [reflexivity|].
  change (flat_map ?f (d :: data)) with (f d ++ flat_map f data).
  change (map ?g (d :: data)) with (g d :: map g data).
  rewrite IH. cbv beta zeta. rewrite (filter_index_sorted ri (m_Index d) H).
  destruct (find (fun r => ri_Index r =? m_Index d) ri); reflexivity.
Qed.

Lemma nth_error_number_rows k s p :
  nth_error (number_rows k s) p =
  option_map (fun '(v, c) => mk_ndc8_row v c (k + Z.of_nat p)) (nth_error s p).
Proof.
  revert k p. induction s as [|[v c] s IH]; intros k p; [destruct p; reflexivity|].
  destruct p as [|p]; cbn [number_rows nth_error].
  - cbn. do 2 f_equal. lia.
  - rewrite IH. destruct (nth_error s p) as [[v' c']|]; [|reflexivity].
    cbn. do 2 f_equal. lia.
Qed.

Lemma filter_number_rows z s T :
  filter (fun d => m_Index d <=? T) (number_rows z s) =
  number_rows z (firstn (Z.to_nat (T - z + 1)) s).
Proof.
  revert z. induction s as [|[v c] s IH]; intros z; [destruct (Z.to_nat _); reflexivity|].
  cbn [number_rows filter m_Index].
  destruct (z <=? T) eqn:E.
  - apply Z.leb_le in E.
    replace (Z.to_nat (T - z + 1)) with (S (Z.to_nat (T - (z + 1) + 1))) by lia.
    cbn [firstn number_rows]. f_equal. apply IH.
  - apply Z.leb_gt in E. rewrite IH.
    replace (Z.to_nat (T - (z + 1) + 1)) with 0%nat by lia.
    replace (Z.to_nat (T - z + 1)) with 0%nat by lia. reflexivity.
Qed.

Lemma length_ffill_from {A} (last : option A) xs : length (ffill_from last xs) = length xs.
Proof.
  revert last. induction xs as [|x xs IH]; intros last; [reflexivity|].
  cbn [ffill_from length]. f_equal. apply IH.
Qed.

Lemma ffill_from_carry {A} (xs : list (option A)) last k :
  (forall p, (p <= k)%nat -> nth p xs None = None) -> (k < length xs)%nat ->
  nth k (ffill_from last xs) None = last.
Proof.
  revert last k. induction xs as [|x xs IH]; intros last k Hn Hk; [cbn in Hk; lia|].
  assert (Hx : x = None) by exact (Hn 0%nat ltac:(lia)).
  subst x. destruct k as [|k]; [reflexivity|].
  cbn [ffill_from nth]. apply IH; [|cbn in Hk; lia].
  intros p Hp. exact (Hn (S p) ltac:(lia)).
Qed.

Lemma ffill_from_nth {A} (xs : list (option A)) last a k v :
  nth a xs None = Some v -> (a <= k)%nat -> (k < length xs)%nat ->
  (forall p, (a < p <= k)%nat -> nth p xs None = None) ->
  nth k (ffill_from last xs) None = Some v.
Proof.
  revert last a k. induction xs as [|x xs IH]; intros last a k Ha Hak Hk Hn;
    [cbn in Hk; lia|].
  destruct a as [|a].
  - cbn in Ha. subst x. destruct k as [|k]; [reflexivity|].
    cbn [ffill_from nth]. apply ffill_from_carry; [|cbn in Hk; lia].
    intros p Hp. exact (Hn (S p) ltac:(lia)).
  - destruct k as [|k]; [lia|]. cbn [ffill_from nth]. cbn [nth] in Ha.
    apply (IH _ a); [exact Ha | lia | cbn in Hk; lia |].
    intros p Hp. exact (Hn (S p) ltac:(lia)).
Qed.

Lemma prev_valid_at xs a va k :
  nth a xs None = Some va -> (a < k)%nat ->
  (forall p, (a < p < k)%nat -> nth p xs None = None) ->
  prev_valid xs k = Some (a, va).
Proof.
  induction k as [|k IH]; intros Ha Hak Hn; [lia|].
  cbn [prev_valid]. destruct (Nat.eq_dec k a) as [->|Hne].
  - rewrite Ha. reflexivity.
  - rewrite (Hn k ltac:(lia)). apply IH; [exact Ha | lia |].
    intros p Hp. apply Hn. lia.
Qed.

Lemma first_valid_at l p b vb :
  nth b l None = Some vb -> (forall q, (q < b)%nat -> nth q l None = None) ->
  first_valid l p = Some ((p + b)%nat, vb).
Proof.
  revert p b. induction l as [|x l IH]; intros p b Hb Hn; [destruct b; discriminate|].
  destruct b as [|b].
  - cbn in Hb. subst x. cbn. do 2 f_equal. lia.
  - assert (Hx : x = None) by exact (Hn 0%nat ltac:(lia)). subst x.
    cbn [first_valid]. rewrite (IH (S p) b Hb).
    + do 2 f_equal. lia.
    + intros q Hq. exact (Hn (S q) ltac:(lia)).
Qed.

Lemma next_valid_at xs k b vb :
  nth b xs None = Some vb -> (k < b)%nat ->
  (forall q, (k < q < b)%nat -> nth q xs None = None) ->
  next_valid xs k = Some (b, vb).
Proof.
  intros Hb Hkb Hn. unfold next_valid.
  rewrite (first_valid_at _ _ (b - S k) vb).
  - do 2 f_equal. lia.
  - rewrite nth_skipn. replace (S k + (b - S k))%nat with b by lia. exact Hb.
  - intros q Hq. rewrite nth_skipn. apply Hn. lia.
Qed.

Lemma interp_at_valid xs k v : nth k xs None = Some v -> interp_at xs k = Some v.
Proof. intros H. unfold interp_at. rewrite H. reflexivity. Qed.

Lemma interp_at_between xs a b va vb k :
  nth a xs None = Some va -> nth b xs None = Some vb -> (a <= k < b)%nat ->
  (forall p, (a < p < b)%nat -> nth p xs None = None) ->
  exists t, interp_at xs k = Some t /\ (t == lin va vb a b k)%Q.
Proof.
  intros Ha Hb Hk Hn. destruct (Nat.eq_dec k a) as [->|Hne].
  - exists va. split; [exact (interp_at_valid _ _ _ Ha)|].
    unfold lin. rewrite Z.sub_diag. change (inject_Z 0) with 0%Q.
    unfold Qdiv. rewrite Qmult_0_l, Qmult_0_r, Qplus_0_r. reflexivity.
  - exists (lin va vb a b k). split; [|reflexivity].
    unfold interp_at. rewrite (Hn k ltac:(lia)).
    rewrite (prev_valid_at xs a va k Ha ltac:(lia)) by (intros p Hp; apply Hn; lia).
    rewrite (next_valid_at xs k b vb Hb ltac:(lia)) by (intros q Hq; apply Hn; lia).
    reflexivity.
Qed.

Lemma nth_interpolate xs k :
  (k < length xs)%nat -> nth k (interpolate xs) None = interp_at xs k.
Proof.
  intros Hk. unfold interpolate.
  rewrite nth_indep with (d' := interp_at xs 0%nat)
    by (rewrite length_map, length_seq; exact Hk).
  rewrite map_nth, seq_nth by exact Hk. reflexivity.
Qed.

Lemma length_interpolate xs : length (interpolate xs) = length xs.
Proof. unfold interpolate. rewrite length_map, length_seq. reflexivity. Qed.

Lemma astype_int_some xs :
  (forall k, (k < length xs)%nat -> nth k xs None <> None) ->
  astype_int xs = Ok (map (fun o => match o with Some q => qtrunc q | None => 0 end) xs).
Proof.
  induction xs as [|x xs IH]; intros H; [reflexivity|].
  destruct x as [q|]; [|exfalso; exact (H 0%nat ltac:(cbn; lia) eq_refl)].
  cbn [astype_int]. rewrite IH; [reflexivity|].
  intros k Hk. exact (H (S k) ltac:(cbn; lia)).
Qed.

Lemma qtrunc_inject_Z z : qtrunc (inject_Z z) = z.
Proof.
  unfold qtrunc. destruct (Qle_bool 0 (inject_Z z)).
  - apply Qfloor_Z.
  - change (- inject_Z z)%Q with (inject_Z (- z)). rewrite Qfloor_Z. lia.
Qed.

Lemma lin_shift va vb a b k :
  (1 <= a)%nat -> (1 <= b)%nat -> (1 <= k)%nat ->
  lin va vb (a - 1) (b - 1) (k - 1) = lin va vb a b k.
Proof.
  intros Ha Hb Hk. unfold lin.
  replace (Z.of_nat (k - 1) - Z.of_nat (a - 1)) with (Z.of_nat k - Z.of_nat a) by lia.
  replace (Z.of_nat (b - 1) - Z.of_nat (a - 1)) with (Z.of_nat b - Z.of_nat a) by lia.
  reflexivity.
Qed.

Lemma nth_error_rebuild j steps times stamps k r s t z :
  nth_error j k = Some r -> nth_error steps k = Some s -> nth_error times k = Some t ->
  nth_error stamps k = Some z ->
  nth_error (rebuild j steps times stamps) k =
  Some (mk_mid (j_Voltage r) (j_Current r) (j_Index r) t (fromtimestamp z) s).
Proof.
  revert j steps times stamps. induction k as [|k IH];
    intros [|r' j] [|s' steps] [|t' times] [|z' stamps] H1 H2 H3 H4;
    cbn [nth_error] in H1, H2, H3, H4; try discriminate.
  - injection H1 as <-. injection H2 as <-. injection H3 as <-. injection H4 as <-.
    reflexivity.
  - cbn [rebuild nth_error]. exact (IH _ _ _ _ H1 H2 H3 H4).
Qed.

Lemma map_x_Index_rebuild j steps times stamps :
  (length j <= length steps)%nat -> (length j <= length times)%nat ->
  (length j <= length stamps)%nat ->
  map x_Index (rebuild j steps times stamps) = map j_Index j.
Proof.
  revert steps times stamps. induction j as [|r j IH];
    intros [|s steps] [|t times] [|z stamps] H1 H2 H3; cbn in *; try lia; try reflexivity.
  f_equal. apply IH; lia.
Qed.

Lemma last_opt_cons2 {A} (x y : A) l : last_opt (x :: y :: l) = last_opt (y :: l).
Proof.
  unfold last_opt. cbn [rev]. destruct (rev l ++ [y]) as [|h t] eqn:E.
  - exfalso. exact (app_cons_not_nil _ _ _ (eq_sym E)).
  - reflexivity.
Qed.

Lemma last_opt_in {A} (l : list A) x : last_opt l = Some x -> In x l.
Proof.
  unfold last_opt. destruct (rev l) as [|h t] eqn:E; [discriminate|].
  intros H. injection H as <-. apply in_rev. rewrite E. left. reflexivity.
Qed.

Lemma last_opt_cons {A} (x : A) l : exists y, last_opt (x :: l) = Some y.
Proof.
  unfold last_opt. cbn [rev]. destruct (rev l ++ [x]) as [|h t] eqn:E.
  - exfalso. exact (app_cons_not_nil _ _ _ (eq_sym E)).
  - eauto.
Qed.

Lemma bracket_cover rest : forall r0 z,
  ri_Index r0 <= z ->
  (forall rl, last_opt (r0 :: rest) = Some rl -> z <= ri_Index rl) ->
  (exists i ra rb, nth_error (r0 :: rest) i = Some ra /\
     nth_error (r0 :: rest) (S i) = Some rb /\ ri_Index ra <= z < ri_Index rb) \/
  (exists rl, last_opt (r0 :: rest) = Some rl /\ ri_Index rl = z).
Proof.
  induction rest as [|r1 rest IH]; intros r0 z H0 Hl.
  - right. exists r0. split; [reflexivity|]. specialize (Hl r0 eq_refl). lia.
  - destruct (Z_lt_le_dec z (ri_Index r1)) as [Hz|Hz].
    + left. exists 0%nat, r0, r1. repeat split; lia.
    + rewrite last_opt_cons2 in Hl |- *.
      destruct (IH r1 z Hz Hl) as [(i & ra & rb & Ha & Hb & Hr)|Hr].
      * left. exists (S i), ra, rb. split; [exact Ha|]. split; [exact Hb | exact Hr].
      * right. exact Hr.
Qed.

Lemma length_number_rows k s : length (number_rows k s) = length s.
Proof.
  revert k. induction s as [|[v c] s IH]; intros k; [reflexivity|].
  cbn [number_rows length]. f_equal. apply IH.
Qed.

Section JoinRunInfo.

Variable ri : list runinfo_row.
Hypothesis Hss : StronglySorted (fun a b => ri_Index a < ri_Index b) ri.

Lemma find_index_in r :
  In r ri -> find (fun x => ri_Index x =? ri_Index r) ri = Some r.
Proof.
  intros Hin. destruct (find (fun x => ri_Index x =? ri_Index r) ri) as [x|] eqn:E.
  - apply find_some in E as [Hx Ex]. apply Z.eqb_eq in Ex.
    destruct (in_split r ri Hin) as (pre & post & Hri).
    pose proof Hss as H. rewrite Hri in H.
    destruct (strongly_sorted_split _ _ _ _ H) as [H1 H2].
    rewrite Hri in Hx. apply in_app_or in Hx as [Hx|[<-|Hx]].
    + specialize (H1 x Hx). lia.
    + reflexivity.
    + specialize (H2 x Hx). lia.
  - exfalso. pose proof (find_none _ _ E r Hin) as F. cbn beta in F.
    rewrite Z.eqb_refl in F. discriminate.
Qed.

Lemma consecutive_split i ra rb :
  nth_error ri i = Some ra -> nth_error ri (S i) = Some rb ->
  exists pre post, ri = pre ++ ra :: rb :: post.
Proof.
  intros Ha Hb. destruct (nth_error_split ri i Ha) as (pre & l2 & Hri & Hl).
  rewrite Hri, nth_error_app2 in Hb by lia.
  replace (S i - length pre)%nat with 1%nat in Hb by lia.
  destruct l2 as [|rb' post]; [discriminate|]. cbn in Hb. injection Hb as ->.
  exists pre, post. exact Hri.
Qed.

Lemma find_index_gap i ra rb z :
  nth_error ri i = Some ra -> nth_error ri (S i) = Some rb ->
  ri_Index ra < z < ri_Index rb -> find (fun x => ri_Index x =? z) ri = None.
Proof.
  intros Ha Hb Hz. destruct (find (fun x => ri_Index x =? z) ri) as [x|] eqn:E;
    [|reflexivity].
  exfalso. apply find_some in E as [Hx Ex]. apply Z.eqb_eq in Ex.
  destruct (consecutive_split i ra rb Ha Hb) as (pre & post & Hri).
  pose proof Hss as H. rewrite Hri in H.
  destruct (strongly_sorted_split _ _ _ _ H) as [H1 _].
  assert (H' : StronglySorted (fun a b => ri_Index a < ri_Index b)
                 ((pre ++ [ra]) ++ rb :: post)) by (rewrite <- app_assoc; exact H).
  destruct (strongly_sorted_split _ _ _ _ H') as [_ H2].
  rewrite Hri in Hx. apply in_app_or in Hx as [Hx|[<-|[<-|Hx]]].
  - specialize (H1 x Hx). lia.
  - lia.
  - lia.
  - specialize (H2 x Hx). lia.
Qed.

Lemma merge_column {B} (C : joined_row -> option B) (G : runinfo_row -> B) s p :
  (forall v c i m, C (mk_joined v c i (option_map ri_Time m) (option_map ri_Timestamp m)
                        (option_map ri_Step m)) = option_map G m) ->
  (p < length s)%nat ->
  nth p (map C (merge_runinfo (number_rows 1 s) ri)) None =
  option_map G (find (fun r => ri_Index r =? Z.of_nat (S p)) ri).
Proof.
  intros HC Hp. rewrite (merge_runinfo_sorted _ _ Hss), map_map.
  destruct (nth_error s p) as [[v c]|] eqn:E; [|apply nth_error_None in E; lia].
  apply nth_error_nth. rewrite nth_error_map, nth_error_number_rows, E.
  cbn [option_map m_Index m_Voltage m_Current]. rewrite HC.
  replace (1 + Z.of_nat p) with (Z.of_nat (S p)) by lia. reflexivity.
Qed.

Variable rl : runinfo_row.
Hypothesis Hrl : last_opt ri = Some rl.
Hypothesis Hone : forall r, In r ri -> 1 <= ri_Index r.

Lemma index_le_last r : In r ri -> ri_Index r <= ri_Index rl.
Proof.
  intros Hin. pose proof Hrl as E. unfold last_opt in E.
  destruct (rev ri) as [|h t] eqn:Er; [discriminate|]. injection E as ->.
  assert (Hri : ri = rev t ++ [rl]).
  { rewrite <- (rev_involutive ri), Er. reflexivity. }
  pose proof Hss as H. rewrite Hri in H.
  destruct (strongly_sorted_split _ _ _ _ H) as [H1 _].
  rewrite Hri in Hin. apply in_app_or in Hin as [Hin|[<-|[]]].
  - specialize (H1 r Hin). lia.
  - lia.
Qed.

Section Column.

Variable B : Type.
Variable G : runinfo_row -> B.
Variable xs : list (option B).
Hypothesis Hlen : length xs = Z.to_nat (ri_Index rl).
Hypothesis Hcol : forall p, (p < length xs)%nat ->
  nth p xs None = option_map G (find (fun r => ri_Index r =? Z.of_nat (S p)) ri).

Lemma column_at r : In r ri -> nth (Z.to_nat (ri_Index r) - 1) xs None = Some (G r).
Proof.
  intros Hin. pose proof (Hone r Hin). pose proof (index_le_last r Hin).
  rewrite Hcol by lia.
  replace (Z.of_nat (S (Z.to_nat (ri_Index r) - 1))) with (ri_Index r) by lia.
  rewrite (find_index_in r Hin). reflexivity.
Qed.

Lemma column_gap i ra rb p :
  nth_error ri i = Some ra -> nth_error ri (S i) = Some rb ->
  ri_Index ra < Z.of_nat (S p) < ri_Index rb -> nth p xs None = None.
Proof.
  intros Ha Hb Hz. pose proof (index_le_last rb (nth_error_In _ _ Hb)).
  rewrite Hcol by lia. rewrite (find_index_gap i ra rb _ Ha Hb Hz). reflexivity.
Qed.

Lemma column_ffill i ra rb idx :
  nth_error ri i = Some ra -> nth_error ri (S i) = Some rb ->
  ri_Index ra <= idx < ri_Index rb ->
  nth (Z.to_nat idx - 1) (ffill xs) None = Some (G ra).
Proof.
  intros Ha Hb Hz. pose proof (Hone ra (nth_error_In _ _ Ha)).
  pose proof (index_le_last rb (nth_error_In _ _ Hb)).
  apply (ffill_from_nth xs None (Z.to_nat (ri_Index ra) - 1)).
  - apply column_at. exact (nth_error_In _ _ Ha).
  - lia.
  - lia.
  - intros p Hp. apply (column_gap i ra rb p Ha Hb). lia.
Qed.

Lemma column_ffill_last : nth (Z.to_nat (ri_Index rl) - 1) (ffill xs) None = Some (G rl).
Proof.
  pose proof (last_opt_in ri rl Hrl) as Hin. pose proof (Hone rl Hin).
  apply (ffill_from_nth xs None (Z.to_nat (ri_Index rl) - 1));
    [apply column_at; exact Hin | lia | lia |].
  intros p Hp. lia.
Qed.

End Column.

Section QColumn.

Variable G : runinfo_row -> Q.
Variable xs : list (option Q).
Hypothesis Hlen : length xs = Z.to_nat (ri_Index rl).
Hypothesis Hcol : forall p, (p < length xs)%nat ->
  nth p xs None = option_map G (find (fun r => ri_Index r =? Z.of_nat (S p)) ri).

Lemma column_interp i ra rb idx :
  nth_error ri i = Some ra -> nth_error ri (S i) = Some rb ->
  ri_Index ra <= idx < ri_Index rb ->
  exists t, nth (Z.to_nat idx - 1) (interpolate xs) None = Some t /\
    (t == lin (G ra) (G rb) (Z.to_nat (ri_Index ra)) (Z.to_nat (ri_Index rb))
                (Z.to_nat idx))%Q.
Proof.
  intros Ha Hb Hz. pose proof (Hone ra (nth_error_In _ _ Ha)).
  pose proof (index_le_last rb (nth_error_In _ _ Hb)).
  rewrite nth_interpolate by lia. rewrite <- lin_shift by lia.
  apply interp_at_between.
  - exact (column_at Q G xs Hlen Hcol ra (nth_error_In _ _ Ha)).
  - exact (column_at Q G xs Hlen Hcol rb (nth_error_In _ _ Hb)).
  - lia.
  - intros p Hp. apply (column_gap Q G xs Hlen Hcol i ra rb p Ha Hb). lia.
Qed.

Lemma column_interp_last :
  nth (Z.to_nat (ri_Index rl) - 1) (interpolate xs) None = Some (G rl).
Proof.
  pose proof (last_opt_in ri rl Hrl) as Hin. pose proof (Hone rl Hin).
  rewrite nth_interpolate by lia. apply interp_at_valid.
  exact (column_at Q G xs Hlen Hcol rl Hin).
Qed.

Lemma column_interp_some r0 rest p :
  ri = r0 :: rest -> ri_Index r0 = 1 -> (p < length xs)%nat ->
  nth p (interpolate xs) None <> None.
Proof.
  intros Hri H0 Hp.
  assert (Hl : forall rl', last_opt (r0 :: rest) = Some rl' -> Z.of_nat (S p) <= ri_Index rl').
  { rewrite <- Hri, Hrl. intros rl' E. injection E as <-. lia. }
  destruct (bracket_cover rest r0 (Z.of_nat (S p)) ltac:(lia) Hl)
    as [(i & ra & rb & Ha & Hb & Hz)|(rl' & Hrl' & Hz)].
  - rewrite <- Hri in Ha, Hb.
    destruct (column_interp i ra rb _ Ha Hb Hz) as (t & Ht & _).
    replace (Z.to_nat (Z.of_nat (S p)) - 1)%nat with p in Ht by lia.
    rewrite Ht. discriminate.
  - rewrite <- Hri, Hrl in Hrl'. injection Hrl' as <-.
    pose proof column_interp_last as Ht.
    replace (Z.to_nat (ri_Index rl) - 1)%nat with p in Ht by lia.
    rewrite Ht. discriminate.
Qed.

End QColumn.

End JoinRunInfo.

(** Lines 52-59 on numbered main samples: when the run-info Index values are
    strictly increasing, start at the first main Index 1 and end at or below
    the last one, the table is cut to Index 1..L, L the last run-info Index,
    one row each, with Step forward-filled and Time and Timestamp
    interpolated between the bracketing run-info records. *)
Lemma join_runinfo_rows (samples : list (fval * fval)) (ri : list runinfo_row) :
  Sorted (fun a b => ri_Index a < ri_Index b) ri ->
  option_map ri_Index (hd_error ri) = Some 1 ->
  (forall rl, last_opt ri = Some rl -> ri_Index rl <= Z.of_nat (length samples)) ->
  exists mid rl,
    join_runinfo (number_rows 1 samples) ri = Ok mid /\
    last_opt ri = Some rl /\
    map x_Index mid = map Z.of_nat (seq 1 (Z.to_nat (ri_Index rl))) /\
    (forall i ra rb idx,
       nth_error ri i = Some ra -> nth_error ri (S i) = Some rb ->
       ri_Index ra <= idx < ri_Index rb ->
       exists m, nth_error mid (Z.to_nat idx - 1) = Some m /\
         x_Step m = Some (ri_Step ra) /\
         (exists t, x_Time m = Some t /\
            (t == lin (ri_Time ra) (ri_Time rb)
                    (Z.to_nat (ri_Index ra)) (Z.to_nat (ri_Index rb)) (Z.to_nat idx))%Q) /\
         (exists t, x_Timestamp m = fromtimestamp (qtrunc t) /\
            (t == lin (inject_Z (ri_Timestamp ra)) (inject_Z (ri_Timestamp rb))
                    (Z.to_nat (ri_Index ra)) (Z.to_nat (ri_Index rb)) (Z.to_nat idx))%Q)) /\
    (exists m, nth_error mid (Z.to_nat (ri_Index rl) - 1) = Some m /\
       x_Step m = Some (ri_Step rl) /\ x_Time m = Some (ri_Time rl) /\
       x_Timestamp m = fromtimestamp (ri_Timestamp rl)).
Proof.
  intros Hsorted Hfirst Hlast.
  assert (Hss : StronglySorted (fun a b => ri_Index a < ri_Index b) ri).
  { apply Sorted_StronglySorted; [intros x y z H1 H2; lia | exact Hsorted]. }
  destruct ri as [|r0 rest] eqn:Eri; [discriminate|].
  cbn in Hfirst. injection Hfirst as H0.
  rewrite <- Eri in Hss, Hlast |- *.
  destruct (last_opt_cons r0 rest) as [rl Hrl]. rewrite <- Eri in Hrl.
  assert (Hone : forall r, In r ri -> 1 <= ri_Index r).
  { intros r Hin. rewrite Eri in Hin, Hss. apply StronglySorted_inv in Hss as [_ Hf].
    rewrite Forall_forall in Hf. destruct Hin as [<-|Hin]; [lia|].
    specialize (Hf r Hin). lia. }
  pose proof (Hlast rl Hrl) as Hrl_le.
  pose proof (Hone rl (last_opt_in _ _ Hrl)) as Hrl_1.
  set (T := Z.to_nat (ri_Index rl)).
  set (s' := firstn T samples).
  assert (Hs' : length s' = T) by (unfold s'; rewrite length_firstn; lia).
  assert (Htr : truncate_to_runinfo (number_rows 1 samples) ri = Ok (number_rows 1 s')).
  { unfold truncate_to_runinfo. rewrite Hrl, filter_number_rows.
    unfold s', T. do 3 f_equal. lia. }
  set (j := merge_runinfo (number_rows 1 s') ri).
  assert (Hj : length j = T).
  { unfold j. rewrite (merge_runinfo_sorted _ _ Hss), length_map, length_number_rows.
    exact Hs'. }
  set (xs_step := map j_Step j).
  set (xs_time := map j_Time j).
  set (xs_ts := map (fun r => option_map inject_Z (j_Timestamp r)) j).
  assert (Lstep : length xs_step = T) by (unfold xs_step; rewrite length_map; exact Hj).
  assert (Ltime : length xs_time = T) by (unfold xs_time; rewrite length_map; exact Hj).
  assert (Lts : length xs_ts = T) by (unfold xs_ts; rewrite length_map; exact Hj).
  assert (Cstep : forall p, (p < length xs_step)%nat -> nth p xs_step None =
            option_map ri_Step (find (fun r => ri_Index r =? Z.of_nat (S p)) ri)).
  { intros p Hp. apply (merge_column ri Hss j_Step ri_Step s' p); [reflexivity | lia]. }
  assert (Ctime : forall p, (p < length xs_time)%nat -> nth p xs_time None =
            option_map ri_Time (find (fun r => ri_Index r =? Z.of_nat (S p)) ri)).
  { intros p Hp. apply (merge_column ri Hss j_Time ri_Time s' p); [reflexivity | lia]. }
  assert (Cts : forall p, (p < length xs_ts)%nat -> nth p xs_ts None =
            option_map (fun r => inject_Z (ri_Timestamp r))
              (find (fun r => ri_Index r =? Z.of_nat (S p)) ri)).
  { intros p Hp. apply (merge_column ri Hss _ _ s' p); [|lia].
    intros v c i [m|]; reflexivity. }
  assert (Hsome : forall k, (k < length (interpolate xs_ts))%nat ->
                    nth k (interpolate xs_ts) None <> None).
  { intros k Hk. rewrite length_interpolate in Hk.
    exact (column_interp_some ri Hss rl Hrl Hone _ xs_ts Lts Cts r0 rest k Eri H0 Hk). }
  set (stamps := map (fun o => match o with Some q => qtrunc q | None => 0 end)
                   (interpolate xs_ts)).
  exists (rebuild j (ffill xs_step) (interpolate xs_time) stamps), rl.
  assert (Lf : length (ffill xs_step) = T) by (unfold ffill; rewrite length_ffill_from; exact Lstep).
  assert (Li : length (interpolate xs_time) = T) by (rewrite length_interpolate; exact Ltime).
  assert (Ls : length stamps = T) by (unfold stamps; rewrite length_map, length_interpolate; exact Lts).
  (* the row at position p, given its three column values *)
  assert (Hrow : forall p s t z, (p < T)%nat ->
            nth p (ffill xs_step) None = s -> nth p (interpolate xs_time) None = t ->
            nth p (interpolate xs_ts) None = Some z ->
            exists m, nth_error (rebuild j (ffill xs_step) (interpolate xs_time) stamps) p = Some m /\
              x_Step m = s /\ x_Time m = t /\ x_Timestamp m = fromtimestamp (qtrunc z)).
  { intros p s t z Hp Es Et Ez.
    destruct (nth_error j p) as [row|] eqn:Ej; [|apply nth_error_None in Ej; lia].
    eexists. split.
    - apply (nth_error_rebuild _ _ _ _ p row s t (qtrunc z) Ej).
      + rewrite <- Es. apply nth_error_nth'. lia.
      + rewrite <- Et. apply nth_error_nth'. lia.
      + unfold stamps. rewrite nth_error_map, (nth_error_nth' _ None) by
          (rewrite length_interpolate; lia).
        rewrite Ez. reflexivity.
    - cbn. auto. }
  split; [|split; [exact Hrl|split; [|split]]].
  - unfold join_runinfo. rewrite Htr. cbn [bind]. fold j.
    change (map j_Step j) with xs_step. change (map j_Time j) with xs_time.
    change (map (fun r => option_map inject_Z (j_Timestamp r)) j) with xs_ts.
    rewrite (astype_int_some _ Hsome). reflexivity.
  - rewrite map_x_Index_rebuild by lia.
    unfold j. rewrite (merge_runinfo_sorted _ _ Hss), map_map.
    transitivity (map m_Index (number_rows (Z.of_nat 1) s')).
    + apply map_ext. intros d. reflexivity.
    + rewrite number_rows_index, Hs'. reflexivity.
  - intros i ra rb idx Ha Hb Hz.
    pose proof (Hone ra (nth_error_In _ _ Ha)).
    pose proof (index_le_last ri Hss rl Hrl rb (nth_error_In _ _ Hb)).
    destruct (column_interp ri Hss rl Hrl Hone _ xs_time Ltime Ctime i ra rb idx Ha Hb Hz)
      as (t1 & Ht1 & Eq1).
    destruct (column_interp ri Hss rl Hrl Hone _ xs_ts Lts Cts i ra rb idx Ha Hb Hz)
      as (t2 & Ht2 & Eq2).
    destruct (Hrow (Z.to_nat idx - 1)%nat (Some (ri_Step ra)) (Some t1) t2 ltac:(lia)
      (column_ffill ri Hss rl Hrl Hone _ ri_Step xs_step Lstep Cstep i ra rb idx Ha Hb Hz)
      Ht1 Ht2) as (m & Hm & Es & Et & Ez).
    exists m. split; [exact Hm|]. split; [exact Es|].
    split; [exists t1; split; [exact Et | exact Eq1] | exists t2; split; [exact Ez | exact Eq2]].
  - destruct (Hrow (Z.to_nat (ri_Index rl) - 1)%nat (Some (ri_Step rl)) (Some (ri_Time rl))
      (inject_Z (ri_Timestamp rl)) ltac:(lia)
      (column_ffill_last ri Hss rl Hrl Hone _ ri_Step xs_step Lstep Cstep)
      (column_interp_last ri Hss rl Hrl Hone _ xs_time Ltime Ctime)
      (column_interp_last ri Hss rl Hrl Hone _ xs_ts Lts Cts)) as (m & Hm & Es & Et & Ez).
    exists m. split; [exact Hm|]. split; [exact Es|]. split; [exact Et|].
    rewrite Ez, qtrunc_inject_Z. reflexivity.
Qed.

(** C2.  With main samples 1..10 and run-info records at Index 2, 5 and 8
    the table is cut to the 8 rows of Index <= 8, so it never has 10 rows.
    Nothing fills the rows before the first run-info record either: row 1
    keeps a NaN Timestamp and [astype(int)] raises, although line 55 announces
    that missing data is filled in; the same holds for the three files of
    such an archive. *)
Lemma join_runinfo_leading_gap :
  (exists rows, truncate_to_runinfo (number_rows 1 example_samples10) example_ri258 = Ok rows /\
                length rows = 8%nat) /\
  join_runinfo (number_rows 1 example_samples10) example_ri258 = Err IntCastError /\
  read_ndax8 example_state_dict example_data10_file example_runinfo258_file
    example_step_file = Err IntCastError.
Proof.
  split; [eexists; split; [vm_compute; reflexivity | reflexivity]|].
  split; vm_compute; reflexivity.
Qed.

(** * Further properties of the readers *)

(** ** Legacy records cut short *)

Lemma unpack_py_slice_short fmt a c bs :
  (a < c)%nat -> (c - a)%nat = calcsize fmt -> (length bs < c)%nat ->
  unpack fmt (py_slice a c bs) = Err StructError.
Proof.
  intros Hac Hsz Hl. unfold unpack, py_slice.
  rewrite length_firstn, length_skipn.
  destruct (Nat.eqb_spec (Nat.min (c - a) (length bs - a)) (calcsize fmt)); [lia|].
  reflexivity.
Qed.

Ltac unpack_case :=
  match goal with
  | |- context [unpack ?f (py_slice ?a ?c ?bs)] =>
      destruct (Nat.leb_spec c (length bs));
      [ rewrite (unpack_py_slice f a c bs) by (cbn; lia); cbn [bind]; decode_slices
      | rewrite (unpack_py_slice_short f a c bs) by (cbn; lia); reflexivity ]
  end.

(** X1.  A record read by [read_ndc] may be shorter than 94 bytes (the last
    one of a file).  The main-record decoder raises [struct.error] when the
    record ends before byte 86, the 0x65 decoder when it ends before byte 43
    and the 0x74 decoder when it ends before byte 45. *)
Theorem truncated_records_struct_error (state_dict : state_table)
  (multiplier_dict : multiplier_table) bs :
  ((length bs < 86)%nat -> bytes_to_list_ndc state_dict multiplier_dict bs = Err StructError) /\
  ((length bs < 43)%nat -> aux_bytes_65_to_list_ndc bs = Err StructError) /\
  ((length bs < 45)%nat -> aux_bytes_74_to_list_ndc bs = Err StructError).
Proof.
  split; [|split]; intros H.
  - unfold bytes_to_list_ndc. repeat unpack_case. lia.
  - unfold aux_bytes_65_to_list_ndc. repeat unpack_case. lia.
  - unfold aux_bytes_74_to_list_ndc. repeat unpack_case. lia.
Qed.

Lemma truncated_records_struct_error_witness :
  bytes_to_list_ndc example_state_dict example_multiplier_dict
    (firstn 85 example_main_record) = Err StructError /\
  aux_bytes_65_to_list_ndc (firstn 42 (encode_aux65 1 1 12000 250)) = Err StructError /\
  aux_bytes_74_to_list_ndc (firstn 44 (encode_aux74 1 1 12000 250 3)) = Err StructError.
Proof.
  split; [|split].
  - apply (truncated_records_struct_error example_state_dict example_multiplier_dict).
    vm_compute. lia.
  - apply (truncated_records_struct_error example_state_dict example_multiplier_dict).
    vm_compute. lia.
  - apply (truncated_records_struct_error example_state_dict example_multiplier_dict).
    vm_compute. lia.
Defined.

(** ** Auxiliary records *)

(** X2.  A 0x65 auxiliary record built from in-range raw values decodes back
    to them: Index u32@8, Aux u8@3, V = i32@31 / 10000, T = i16@41 / 10. *)
Theorem aux_bytes_65_roundtrip index aux v t :
  0 <= index < 2 ^ 32 -> 0 <= aux < 2 ^ 8 ->
  - 2 ^ 32 <= 2 * v < 2 ^ 32 -> - 2 ^ 16 <= 2 * t < 2 ^ 16 ->
  aux_bytes_65_to_list_ndc (encode_aux65 index aux v t) =
  Ok (mk_aux65 index aux (inject_Z v / 10000)%Q (inject_Z t / 10)%Q).
Proof.
  intros Hi Ha Hv Ht. unfold aux_bytes_65_to_list_ndc.
  repeat (rewrite unpack_py_slice by (cbn; lia); cbn [bind]; decode_slices).
  change (py_slice 3 4 (encode_aux65 index aux v t)) with (le_bytes 1 aux).
  change (py_slice 8 12 (encode_aux65 index aux v t)) with (le_bytes 4 index).
  change (py_slice 41 43 (encode_aux65 index aux v t)) with (le_bytes 2 t).
  change (py_slice 31 35 (encode_aux65 index aux v t)) with (le_bytes 4 v).
  rewrite !le_u_le_bytes_small by (cbn -[Z.pow]; lia).
  rewrite (le_s_le_bytes 2 t), (le_s_le_bytes 4 v) by (cbn -[Z.pow Z.mul]; lia).
  reflexivity.
Qed.

Lemma aux_bytes_65_roundtrip_witness :
  aux_bytes_65_to_list_ndc (encode_aux65 7 2 (-12000) (-55)) =
  Ok (mk_aux65 7 2 (inject_Z (-12000) / 10000)%Q (inject_Z (-55) / 10)%Q).
Proof. apply aux_bytes_65_roundtrip; lia. Defined.

(** X3.  A 0x74 auxiliary record built from in-range raw values decodes back
    to them: Index u32@8, Aux u8@3, V = i32@31 / 10000, T = i16@41 / 10 and
    t = i16@43 / 10. *)
Theorem aux_bytes_74_roundtrip index aux v t t2 :
  0 <= index < 2 ^ 32 -> 0 <= aux < 2 ^ 8 ->
  - 2 ^ 32 <= 2 * v < 2 ^ 32 -> - 2 ^ 16 <= 2 * t < 2 ^ 16 -> - 2 ^ 16 <= 2 * t2 < 2 ^ 16 ->
  aux_bytes_74_to_list_ndc (encode_aux74 index aux v t t2) =
  Ok (mk_aux74 index aux (inject_Z v / 10000)%Q (inject_Z t / 10)%Q (inject_Z t2 / 10)%Q).
Proof.
  intros Hi Ha Hv Ht Ht2. unfold aux_bytes_74_to_list_ndc.
  repeat (rewrite unpack_py_slice by (cbn; lia); cbn [bind]; decode_slices).
  change (py_slice 3 4 (encode_aux74 index aux v t t2)) with (le_bytes 1 aux).
  change (py_slice 8 12 (encode_aux74 index aux v t t2)) with (le_bytes 4 index).
  change (py_slice 41 43 (encode_aux74 index aux v t t2)) with (le_bytes 2 t).
  change (py_slice 43 45 (encode_aux74 index aux v t t2)) with (le_bytes 2 t2).
  change (py_slice 31 35 (encode_aux74 index aux v t t2)) with (le_bytes 4 v).
  rewrite !le_u_le_bytes_small by (cbn -[Z.pow]; lia).
  rewrite (le_s_le_bytes 2 t), (le_s_le_bytes 2 t2), (le_s_le_bytes 4 v)
    by (cbn -[Z.pow Z.mul]; lia).
  reflexivity.
Qed.

Lemma aux_bytes_74_roundtrip_witness :
  aux_bytes_74_to_list_ndc (encode_aux74 7 2 12010 251 (-3)) =
  Ok (mk_aux74 7 2 (inject_Z 12010 / 10000)%Q (inject_Z 251 / 10)%Q (inject_Z (-3) / 10)%Q).
Proof. apply aux_bytes_74_roundtrip; lia. Defined.

(** ** Invalid dates *)

(** X4.  A 94-byte main record whose multiplier and state are found but
    whose packed date and time is not a valid calendar date makes
    [_bytes_to_list_ndc] raise [ValueError] (from [datetime]). *)
Theorem bytes_to_list_ndc_bad_date (state_dict : state_table)
  (multiplier_dict : multiplier_table) bs multiplier state :
  length bs = 94%nat ->
  multiplier_dict (le_s (py_slice 82 86 bs)) = Some multiplier ->
  state_dict (le_u (py_slice 17 18 bs)) = Some state ->
  valid_datetime (le_u (py_slice 75 77 bs)) (le_u (py_slice 77 78 bs))
    (le_u (py_slice 78 79 bs)) (le_u (py_slice 79 80 bs))
    (le_u (py_slice 80 81 bs)) (le_u (py_slice 81 82 bs)) = false ->
  bytes_to_list_ndc state_dict multiplier_dict bs = Err ValueError.
Proof.
  intros Hl Hm Hs Hd. rewrite bytes_to_list_ndc_unfold by exact Hl.
  unfold dict_get, py_datetime. rewrite Hm, Hs, Hd. reflexivity.
Qed.

Lemma bytes_to_list_ndc_bad_date_witness :
  bytes_to_list_ndc example_state_dict example_multiplier_dict
    (encode_main 1 0 1 1 5000 36000 500 3600 0 7200 0 2023 2 30 10 20 30 0) = Err ValueError.
Proof.
  apply (bytes_to_list_ndc_bad_date _ _ _ 1%Q "CC_Chg"%string); vm_compute; reflexivity.
Defined.

(** ** Termination of the legacy scan *)

Ltac chase_matches :=
  repeat (cbn beta iota; match goal with
    | |- context [match ?x with _ => _ end] =>
        lazymatch x with
        | context [match _ with _ => _ end] => fail
        | _ => let E := fresh "E" in destruct x eqn:E
        end
    end).

Lemma dispatch_record_not_nt sd md bytes :
  dispatch_record sd md bytes <> Err NoTermination.
Proof.
  unfold dispatch_record, bytes_to_list_ndc, aux_bytes_65_to_list_ndc,
    aux_bytes_74_to_list_ndc, bind, unpack, dict_get, py_datetime.
  unfold not. chase_matches; intros H; discriminate H.
Qed.

(** X5.  [read_ndc] on a file shorter than the 517-byte header raises
    [ValueError] ([mm.seek] out of range). *)
Theorem read_ndc_short (state_dict : state_table) (multiplier_dict : multiplier_table) buf :
  (length buf < 517)%nat -> read_ndc state_dict multiplier_dict buf = Err ValueError.
Proof.
  intros Hl. unfold read_ndc, read_ndc_scan. cbn [scan_ndc].
  unfold ndc_header. replace (Nat.ltb (length buf) 517) with true
    by (symmetry; apply Nat.ltb_lt; exact Hl).
  reflexivity.
Qed.

Lemma read_ndc_short_witness :
  read_ndc example_state_dict example_multiplier_dict (zeros 100) = Err ValueError.
Proof. apply read_ndc_short. vm_compute. lia. Defined.

Lemma py_slice_nil_517 buf : length buf = 517%nat -> py_slice 517 525 buf = [].
Proof.
  intros H. unfold py_slice. rewrite skipn_all2 by lia. reflexivity.
Qed.

(** X6.  On a file of exactly 517 bytes the identifier is empty and
    [mm.find] keeps returning offset 517, so the scan loop of [read_ndc]
    never ends: however many rounds it is given, it is still running. *)
Theorem read_ndc_517_loops (state_dict : state_table) (multiplier_dict : multiplier_table) buf :
  length buf = 517%nat ->
  (forall fuel, scan_ndc state_dict multiplier_dict fuel buf (py_slice 517 525 buf) ndc_header
                = Err NoTermination) /\
  read_ndc state_dict multiplier_dict buf = Err NoTermination.
Proof.
  intros Hl.
  assert (Hs : forall fuel, scan_ndc state_dict multiplier_dict fuel buf
                              (py_slice 517 525 buf) ndc_header = Err NoTermination).
  { rewrite py_slice_nil_517 by exact Hl.
    induction fuel as [|fuel IH]; [reflexivity|].
    cbn [scan_ndc]. unfold ndc_header. rewrite Hl, Nat.ltb_irrefl.
    unfold py_slice at 1. rewrite skipn_all2 by lia.
    cbn [firstn dispatch_record bind].
    assert (Ef : mm_find [] buf (517 + record_len) = Some 517%nat).
    { unfold mm_find. rewrite Hl. cbn [Nat.min record_len Nat.add].
      rewrite skipn_all2 by lia. reflexivity. }
    rewrite Ef. unfold ndc_header in IH. rewrite IH. reflexivity. }
  split; [exact Hs|].
  unfold read_ndc, read_ndc_scan. rewrite Hs. reflexivity.
Qed.

Lemma read_ndc_517_loops_witness :
  read_ndc example_state_dict example_multiplier_dict (zeros 517) = Err NoTermination.
Proof. apply read_ndc_517_loops. reflexivity. Defined.

Lemma scan_ndc_enough sd md buf identifier :
  identifier <> [] ->
  forall fuel h, (length buf < h + fuel)%nat -> (0 < fuel)%nat ->
  scan_ndc sd md fuel buf identifier h <> Err NoTermination /\
  forall k, scan_ndc sd md (fuel + k) buf identifier h = scan_ndc sd md fuel buf identifier h.
Proof.
  intros Hid. induction fuel as [|f IH]; intros h Hlt Hpos; [lia|].
  cbn [scan_ndc Nat.add].
  destruct (Nat.ltb (length buf) h) eqn:Eh.
  { split; [discriminate | reflexivity]. }
  apply Nat.ltb_ge in Eh.
  pose proof (dispatch_record_not_nt sd md (py_slice h (h + record_len) buf)) as Hd.
  destruct (dispatch_record sd md (py_slice h (h + record_len) buf)) as [r|e];
    cbn [bind]; [|split; [congruence | reflexivity]].
  destruct (mm_find identifier buf (h + record_len)) as [h'|] eqn:Ef;
    [|split; [discriminate | reflexivity]].
  apply mm_find_spec in Ef as [Hm Hmin].
  assert (Hh' : (h' < length buf)%nat).
  { destruct (Nat.ltb_spec h' (length buf)) as [|Hge]; [assumption|].
    rewrite skipn_all2 in Hm by exact Hge. destruct identifier; [congruence|].
    discriminate. }
  assert (Hstep : (h + record_len <= h')%nat) by lia.
  unfold record_len in Hstep.
  assert (Hf : (0 < f)%nat) by lia.
  destruct (IH h' ltac:(lia) Hf) as [Hnt Hk].
  split.
  - destruct (scan_ndc sd md f buf identifier h'); cbn [bind]; [discriminate | exact Hnt].
  - intros k. rewrite Hk. reflexivity.
Qed.

(** X7.  On a file longer than 517 bytes the identifier is not empty, every
    round of the scan moves at least one record (94 bytes) forward, and the
    loop ends: the result of [read_ndc]'s scan is never the endless-loop
    outcome, and giving the loop more rounds than the file length does not
    change it. *)
Theorem read_ndc_scan_terminates (state_dict : state_table)
  (multiplier_dict : multiplier_table) buf :
  (518 <= length buf)%nat ->
  read_ndc_scan state_dict multiplier_dict buf <> Err NoTermination /\
  forall k, scan_ndc state_dict multiplier_dict (S (length buf) + k) buf
              (py_slice 517 525 buf) ndc_header =
            read_ndc_scan state_dict multiplier_dict buf.
Proof.
  intros Hl.
  assert (Hid : py_slice 517 525 buf <> []).
  { unfold py_slice. destruct (skipn 517 buf) eqn:E; [|discriminate].
    apply (f_equal (@length _)) in E. rewrite length_skipn in E. cbn in E. lia. }
  exact (scan_ndc_enough state_dict multiplier_dict buf _ Hid (S (length buf)) ndc_header
           ltac:(unfold ndc_header; lia) ltac:(lia)).
Qed.

Lemma read_ndc_scan_terminates_witness :
  read_ndc_scan example_state_dict example_multiplier_dict example_legacy_file
    <> Err NoTermination.
Proof. apply read_ndc_scan_terminates. vm_compute. lia. Defined.

(** ** Revision 8 files built block by block *)

Lemma length_zeros n : length (zeros n) = n.
Proof. apply repeat_length. Qed.

Lemma firstn_zeros k n : firstn k (zeros n) = zeros (Nat.min k n).
Proof.
  revert n. induction k as [|k IH]; intros [|n]; try reflexivity.
  cbn. f_equal. apply IH.
Qed.

Lemma chunks_concat n : forall (bs : list (list Byte.byte)) fuel, (0 < n)%nat ->
  Forall (fun b => length b = n) bs -> (length (concat bs) <= fuel)%nat ->
  chunks n fuel (concat bs) = bs.
Proof.
  induction bs as [|b bs IH]; intros fuel Hn Hall Hf.
  - destruct fuel; reflexivity.
  - apply Forall_cons_iff in Hall as [Hb Hall'].
    cbn [concat] in *. rewrite length_app in Hf.
    destruct fuel as [|fuel]; [lia|].
    destruct b as [|x b']; [cbn in Hb; lia|].
    cbn [chunks app]. change (x :: b' ++ concat bs) with ((x :: b') ++ concat bs).
    rewrite firstn_app, skipn_app, Hb, Nat.sub_diag, firstn_O, app_nil_r,
      skipn_O, firstn_all2, skipn_all2 by lia.
    cbn [app]. f_equal. apply IH; [exact Hn | exact Hall' | lia].
Qed.

Lemma length_concat_const n (bs : list (list Byte.byte)) :
  Forall (fun b => length b = n) bs -> length (concat bs) = (n * length bs)%nat.
Proof.
  induction 1 as [|b bs Hb _ IH]; cbn [concat length]; [lia|].
  rewrite length_app, Hb, IH. lia.
Qed.

Lemma concat_repeat_zeros n m : concat (repeat (zeros n) m) = zeros (n * m).
Proof.
  induction m as [|m IH]; cbn [repeat concat]; [rewrite Nat.mul_0_r; reflexivity|].
  rewrite IH. unfold zeros. rewrite <- repeat_app. f_equal. lia.
Qed.

Section Blocks.

Context {X : Type}.
Variable fmt : list fmt_item.
Variable trim cap : nat.
Variable enc : X -> list Byte.byte.
Hypothesis Hsize : (0 < calcsize fmt)%nat.
Hypothesis Henc : forall x, length (enc x) = calcsize fmt.
Hypothesis Hcap : (132 + cap * calcsize fmt + trim = 4096)%nat.

Lemma length_payload (es : list X) :
  length (concat (map enc es)) = (calcsize fmt * length es)%nat.
Proof.
  rewrite (length_concat_const (calcsize fmt)), length_map; [reflexivity|].
  apply Forall_forall. intros b Hb. apply in_map_iff in Hb as (x & <- & _). apply Henc.
Qed.

Lemma length_fixed_block_enc es :
  (length es <= cap)%nat -> length (fixed_block (map enc es)) = block_len.
Proof.
  intros H. unfold fixed_block, block_len.
  rewrite !length_app, !length_zeros, length_payload.
  assert (calcsize fmt * length es <= cap * calcsize fmt)%nat by nia. lia.
Qed.

Lemma block_payload es :
  (length es <= cap)%nat ->
  py_slice_neg 132 trim (fixed_block (map enc es)) =
  concat (map enc es ++ repeat (zeros (calcsize fmt)) (cap - length es)).
Proof.
  intros H. unfold py_slice_neg, py_slice.
  rewrite length_fixed_block_enc by exact H. unfold fixed_block, block_len.
  rewrite skipn_app, length_zeros, skipn_all2 by (rewrite length_zeros; lia).
  rewrite Nat.sub_diag, skipn_O. cbn [app].
  rewrite concat_app, concat_repeat_zeros, firstn_app, length_payload.
  rewrite firstn_all2 by (rewrite length_payload; nia).
  rewrite firstn_zeros, Nat.mul_sub_distr_l. do 2 f_equal. assert (calcsize fmt * length es <= calcsize fmt * cap)%nat by nia. lia.
Qed.

Lemma iter_unpack_block es :
  (length es <= cap)%nat ->
  iter_unpack fmt (py_slice_neg 132 trim (fixed_block (map enc es))) =
  Ok (map (decode_fields fmt) (map enc es ++ repeat (zeros (calcsize fmt)) (cap - length es))).
Proof.
  intros H. rewrite block_payload by exact H. unfold iter_unpack.
  assert (Hall : Forall (fun b => length b = calcsize fmt)
                   (map enc es ++ repeat (zeros (calcsize fmt)) (cap - length es))).
  { apply Forall_app. split.
    - apply Forall_forall. intros b Hb. apply in_map_iff in Hb as (x & <- & _). apply Henc.
    - apply Forall_forall. intros b Hb. apply repeat_spec in Hb as ->. apply length_zeros. }
  rewrite (length_concat_const _ _ Hall).
  rewrite Nat.mul_comm, Nat.Div0.mod_mul, Nat.eqb_refl.
  rewrite chunks_concat; [reflexivity | exact Hsize | exact Hall |].
  rewrite (length_concat_const _ _ Hall). lia.
Qed.

Lemma read_blocks_fixed_file (ess : list (list X)) :
  Forall (fun es => (length es <= cap)%nat) ess ->
  read_blocks (fixed_file (map (fun es => fixed_block (map enc es)) ess)) =
  Ok (map (fun es => fixed_block (map enc es)) ess).
Proof.
  intros Hall.
  assert (Hb : Forall (fun b => length b = block_len)
                 (map (fun es => fixed_block (map enc es)) ess)).
  { apply Forall_forall. intros b Hin. apply in_map_iff in Hin as (es & <- & Hes).
    apply length_fixed_block_enc. rewrite Forall_forall in Hall. exact (Hall es Hes). }
  unfold read_blocks, fixed_file.
  rewrite length_app, length_zeros.
  replace (Nat.ltb (block_len + length (concat (map (fun es => fixed_block (map enc es)) ess)))
             block_len) with false by (symmetry; apply Nat.ltb_ge; lia).
  rewrite skipn_app, length_zeros, skipn_all2 by (rewrite length_zeros; lia).
  rewrite Nat.sub_diag, skipn_O. cbn [app].
  rewrite chunks_concat; [reflexivity | unfold block_len; lia | exact Hb | lia].
Qed.

End Blocks.

Lemma map_result_ok {A B} (f : A -> result (list B)) (g : A -> list B) l :
  (forall x, In x l -> f x = Ok (g x)) -> map_result f l = Ok (concat (map g l)).
Proof.
  induction l as [|x l IH]; intros H; [reflexivity|].
  cbn [map_result map concat]. rewrite (H x (or_introl eq_refl)). cbn [bind].
  rewrite IH by (intros y Hy; apply H; right; exact Hy). reflexivity.
Qed.

Lemma map_result_map_ok {A C B} (f : C -> result (list B)) (h : A -> C) (g : A -> list B) l :
  (forall x, In x l -> f (h x) = Ok (g x)) -> map_result f (map h l) = Ok (concat (map g l)).
Proof.
  induction l as [|x l IH]; intros H; [reflexivity|].
  cbn [map_result map concat]. rewrite (H x (or_introl eq_refl)). cbn [bind].
  rewrite IH by (intros y Hy; apply H; right; exact Hy). reflexivity.
Qed.

Lemma map_result_repeat {A B} (f : A -> result (list B)) y z m :
  f y = Ok z -> map_result f (repeat y m) = Ok (concat (repeat z m)).
Proof.
  intros H. induction m as [|m IH]; [reflexivity|].
  cbn [map_result repeat concat]. rewrite H. cbn [bind]. rewrite IH. reflexivity.
Qed.

Section ScanFixed.

Context {X B : Type}.
Variable fmt : list fmt_item.
Variable trim cap : nat.
Variable enc : X -> list Byte.byte.
Variable f : list pyval -> result (list B).
Variable g : X -> list B.
Variable z : list B.
Hypothesis Hsize : (0 < calcsize fmt)%nat.
Hypothesis Henc : forall x, length (enc x) = calcsize fmt.
Hypothesis Hcap : (132 + cap * calcsize fmt + trim = 4096)%nat.
Hypothesis Hzero : f (decode_fields fmt (zeros (calcsize fmt))) = Ok z.

Lemma scan_fixed_file (ess : list (list X)) :
  Forall (fun es => (length es <= cap)%nat /\
                    forall x, In x es -> f (decode_fields fmt (enc x)) = Ok (g x)) ess ->
  (let* blocks := read_blocks (fixed_file (map (fun es => fixed_block (map enc es)) ess)) in
   scan_blocks fmt trim f blocks) =
  Ok (concat (map (fun es => concat (map g es) ++ concat (repeat z (cap - length es))) ess)).
Proof.
  intros Hall.
  rewrite (read_blocks_fixed_file fmt trim cap enc Hsize Henc Hcap)
    by (refine (Forall_impl _ _ Hall); intros es [H _]; exact H).
  cbn [bind]. unfold scan_blocks.
  apply map_result_map_ok. intros es Hes. cbv beta. rewrite Forall_forall in Hall.
  destruct (Hall es Hes) as [Hlen Hx].
  rewrite (iter_unpack_block fmt trim cap enc Hsize Henc Hcap es Hlen). cbn [bind].
  rewrite map_app, map_map, map_repeat.
  apply map_result_app.
  - apply map_result_map_ok. exact Hx.
  - apply map_result_repeat. exact Hzero.
Qed.

End ScanFixed.

Lemma decode_fields_app f fs a rest :
  length a = item_size f ->
  decode_fields (f :: fs) (a ++ rest) =
  (match f with FU _ => VInt (le_u a) | FS _ => VInt (le_s a) | FStr _ => VBytes a end)
    :: decode_fields fs rest.
Proof.
  intros H. cbn [decode_fields].
  rewrite firstn_app, skipn_app, H, Nat.sub_diag, firstn_O, skipn_O, app_nil_r,
    firstn_all2, skipn_all2 by lia. reflexivity.
Qed.

Lemma decode_fields_last f a :
  length a = item_size f ->
  decode_fields [f] a =
  [match f with FU _ => VInt (le_u a) | FS _ => VInt (le_s a) | FStr _ => VBytes a end].
Proof.
  intros H. cbn [decode_fields]. rewrite firstn_all2 by lia. reflexivity.
Qed.

Ltac decode_encoded :=
  repeat (rewrite decode_fields_app by reflexivity);
  rewrite decode_fields_last by reflexivity.

Lemma decode_encode_sample v c :
  0 <= v < 2 ^ 32 -> 0 <= c < 2 ^ 32 ->
  decode_fields fmt_ff (encode_sample v c) = [VInt v; VInt c].
Proof.
  intros Hv Hc. unfold fmt_ff, encode_sample. decode_encoded.
  rewrite !le_u_le_bytes_small by (cbn -[Z.pow Z.mul]; lia). reflexivity.
Qed.

Lemma decode_encode_runinfo t ts st i :
  - 2 ^ 32 <= 2 * t < 2 ^ 32 -> - 2 ^ 32 <= 2 * ts < 2 ^ 32 ->
  - 2 ^ 32 <= 2 * st < 2 ^ 32 -> - 2 ^ 32 <= 2 * i < 2 ^ 32 ->
  decode_fields fmt_runinfo (encode_runinfo t ts st i) =
  [VInt t; VBytes (zeros 29); VInt ts; VInt st; VInt i; VBytes (zeros 2)].
Proof.
  intros H1 H2 H3 H4. unfold fmt_runinfo, encode_runinfo. decode_encoded.
  rewrite (le_s_le_bytes 4 t), (le_s_le_bytes 4 ts), (le_s_le_bytes 4 st),
    (le_s_le_bytes 4 i) by (cbn -[Z.pow Z.mul]; lia).
  reflexivity.
Qed.

Lemma decode_encode_step c si s :
  - 2 ^ 32 <= 2 * c < 2 ^ 32 -> - 2 ^ 32 <= 2 * si < 2 ^ 32 -> - 2 ^ 8 <= 2 * s < 2 ^ 8 ->
  decode_fields fmt_step (encode_step c si s) =
  [VInt c; VInt si; VBytes (zeros 16); VInt s; VBytes (zeros 12)].
Proof.
  intros H1 H2 H3. unfold fmt_step, encode_step. decode_encoded.
  rewrite (le_s_le_bytes 4 c), (le_s_le_bytes 4 si), (le_s_le_bytes 1 s)
    by (cbn -[Z.pow Z.mul]; lia).
  reflexivity.
Qed.

(** X8.  A revision 8 [data.ndc] file made of full 4096-byte blocks, each
    holding at most 495 samples at the start of its payload, decodes to the
    samples in file order, voltage bits over 10000 and current bits as they
    are; the unused rest of each block's payload decodes as 495 - n zero
    samples, which [read_ndc_8] keeps (it has no padding filter), and the
    rows are numbered from 1 across all blocks. *)
Theorem read_ndc_8_blocks (ess : list (list (Z * Z))) :
  Forall (fun es => (length es <= 495)%nat /\
                    Forall (fun '(v, c) => 0 <= v < 2 ^ 32 /\ 0 <= c < 2 ^ 32) es) ess ->
  read_ndc_8 (fixed_file (map (fun es => fixed_block (map (fun '(v, c) => encode_sample v c) es)) ess)) =
  Ok (number_rows 1 (concat (map (fun es =>
        map (fun '(v, c) => (FDiv (F32 v) 10000, F32 c)) es ++
        repeat (FDiv (F32 0) 10000, F32 0) (495 - length es)) ess))).
Proof.
  intros Hall. unfold read_ndc_8, read_ndc_8_rec.
  rewrite (scan_fixed_file fmt_ff 4 495 (fun '(v, c) => encode_sample v c) ndc8_item
             (fun '(v, c) => [(FDiv (F32 v) 10000, F32 c)]) [(FDiv (F32 0) 10000, F32 0)]);
    [ | cbn; lia | intros [v c]; reflexivity | reflexivity | reflexivity | ].
  - cbn [bind]. do 3 f_equal. apply map_ext_in. intros es _. f_equal.
    + induction es as [|[v c] es IH]; [reflexivity|]. cbn [map concat app]. f_equal. exact IH.
    + generalize (495 - length es)%nat. intros m.
      induction m as [|m IH]; [reflexivity|]. cbn [repeat concat app]. f_equal. exact IH.
  - refine (Forall_impl _ _ Hall). intros es [Hl Hr]. split; [exact Hl|].
    intros [v c] Hin. rewrite Forall_forall in Hr. destruct (Hr _ Hin) as [Hv Hc].
    rewrite decode_encode_sample by assumption. reflexivity.
Qed.

Lemma read_ndc_8_blocks_witness :
  read_ndc_8 (fixed_file (map (fun es => fixed_block (map (fun '(v, c) => encode_sample v c) es))
                [[(1, 2); (3, 4)]; [(5, 6)]])) =
  Ok (number_rows 1 (concat (map (fun es =>
        map (fun '(v, c) => (FDiv (F32 v) 10000, F32 c)) es ++
        repeat (FDiv (F32 0) 10000, F32 0) (495 - length es)) [[(1, 2); (3, 4)]; [(5, 6)]]))).
Proof.
  apply read_ndc_8_blocks.
  repeat (first [apply Forall_nil | apply Forall_cons | split]); cbn; lia.
Defined.

Lemma concat_repeat_nil {A} m : concat (repeat (@nil A) m) = [].
Proof. induction m as [|m IH]; [reflexivity|]. exact IH. Qed.

Lemma concat_map_filter {A B} (p : A -> bool) (h : A -> B) l :
  concat (map (fun x => if p x then [h x] else []) l) = map h (filter p l).
Proof.
  induction l as [|x l IH]; [reflexivity|]. cbn [map concat filter].
  destruct (p x); cbn [app map]; rewrite IH; reflexivity.
Qed.

(** X9.  A revision 8 [data_runInfo.ndc] file of full blocks, each holding
    at most 83 records at the start of its payload, decodes to the records
    whose Index is not 0, in file order, with Time = raw / 1000 and the raw
    Timestamp and Index; the zero padding of the blocks and every record of
    Index 0 are dropped, and the Step column is [_count_changes] of the kept
    raw steps. *)
Theorem read_data_runInfo_ndc8_blocks (ess : list (list (Z * Z * Z * Z))) :
  Forall (fun es => (length es <= 83)%nat /\
    Forall (fun '(t, ts, st, i) => - 2 ^ 32 <= 2 * t < 2 ^ 32 /\ - 2 ^ 32 <= 2 * ts < 2 ^ 32 /\
                                   - 2 ^ 32 <= 2 * st < 2 ^ 32 /\ - 2 ^ 32 <= 2 * i < 2 ^ 32) es)
    ess ->
  read_data_runInfo_ndc8
    (fixed_file (map (fun es => fixed_block (map (fun '(t, ts, st, i) => encode_runinfo t ts st i) es)) ess)) =
  Ok (let rec := concat (map (fun es =>
                   map (fun '(t, ts, st, i) => mk_runinfo (inject_Z t / 1000)%Q ts st i)
                     (filter (fun '(_, _, _, i) => negb (i =? 0)) es)) ess) in
      set_steps rec (count_changes (map ri_Step rec))).
Proof.
  intros Hall. unfold read_data_runInfo_ndc8, read_data_runInfo_rec.
  rewrite (scan_fixed_file fmt_runinfo 63 83 (fun '(t, ts, st, i) => encode_runinfo t ts st i)
             runinfo_item
             (fun '(t, ts, st, i) =>
                if negb (i =? 0) then [mk_runinfo (inject_Z t / 1000)%Q ts st i] else [])
             []);
    [ | cbn; lia | intros [[[t ts] st] i]; reflexivity | reflexivity | reflexivity | ].
  - cbn [bind]. cbv zeta.
    replace (concat (map _ ess)) with
      (concat (map (fun es =>
         map (fun '(t, ts, st, i) => mk_runinfo (inject_Z t / 1000)%Q ts st i)
           (filter (fun '(_, _, _, i) => negb (i =? 0)) es)) ess)); [reflexivity|].
    f_equal. apply map_ext_in. intros es _.
    rewrite concat_repeat_nil, app_nil_r.
    rewrite <- concat_map_filter. f_equal. apply map_ext. intros [[[t ts] st] i].
    reflexivity.
  - refine (Forall_impl _ _ Hall). intros es [Hl Hr]. split; [exact Hl|].
    intros [[[t ts] st] i] Hin. rewrite Forall_forall in Hr.
    destruct (Hr _ Hin) as (H1 & H2 & H3 & H4).
    cbv beta iota. rewrite decode_encode_runinfo by assumption. unfold runinfo_item. destruct (negb (i =? 0)); reflexivity.
Qed.

Lemma read_data_runInfo_ndc8_blocks_witness :
  read_data_runInfo_ndc8
    (fixed_file (map (fun es => fixed_block (map (fun '(t, ts, st, i) => encode_runinfo t ts st i) es))
       [[(1000, 100, 5, 1); (0, 0, 0, 0); (2000, 200, 7, 2)]])) =
  Ok (let rec := concat (map (fun es =>
                   map (fun '(t, ts, st, i) => mk_runinfo (inject_Z t / 1000)%Q ts st i)
                     (filter (fun '(_, _, _, i) => negb (i =? 0)) es))
                   [[(1000, 100, 5, 1); (0, 0, 0, 0); (2000, 200, 7, 2)]]) in
      set_steps rec (count_changes (map ri_Step rec))).
Proof.
  apply read_data_runInfo_ndc8_blocks.
  repeat (first [apply Forall_nil | apply Forall_cons | split]); cbn; lia.
Defined.

(** X10.  A revision 8 [data_step.ndc] file of full blocks, each holding at
    most 107 records at the start of its payload, whose status codes of
    non-padding records (Step_Index <> 0) are in [state_dict], decodes to the
    records whose Step_Index is not 0, in file order, with Cycle = raw + 1,
    the raw Step_Index, the state name of the status code, and Step numbered
    1, 2, ... across all blocks. *)
Theorem read_data_step_ndc8_blocks (state_dict : state_table)
  (ess : list (list (Z * Z * Z * String.string))) :
  Forall (fun es => (length es <= 107)%nat /\
    Forall (fun '(c, si, s, name) => - 2 ^ 32 <= 2 * c < 2 ^ 32 /\ - 2 ^ 32 <= 2 * si < 2 ^ 32 /\
              - 2 ^ 8 <= 2 * s < 2 ^ 8 /\ (si <> 0 -> state_dict s = Some name)) es)
    ess ->
  read_data_step_ndc8 state_dict
    (fixed_file (map (fun es => fixed_block (map (fun '(c, si, s, _) => encode_step c si s) es)) ess)) =
  Ok (number_steps 1 (concat (map (fun es =>
        map (fun '(c, si, _, name) => (c + 1, si, name))
          (filter (fun '(_, si, _, _) => negb (si =? 0)) es)) ess))).
Proof.
  intros Hall. unfold read_data_step_ndc8, read_data_step_rec.
  rewrite (scan_fixed_file fmt_step 5 107 (fun '(c, si, s, _) => encode_step c si s)
             (step_item state_dict)
             (fun '(c, si, s, name) => if negb (si =? 0) then [(c + 1, si, name)] else [])
             []);
    [ | cbn; lia | intros [[[c si] s] name]; reflexivity | reflexivity | reflexivity | ].
  - cbn [bind]. do 3 f_equal. apply map_ext_in. intros es _.
    rewrite concat_repeat_nil, app_nil_r.
    rewrite <- concat_map_filter. f_equal. apply map_ext. intros [[[c si] s] name].
    reflexivity.
  - refine (Forall_impl _ _ Hall). intros es [Hl Hr]. split; [exact Hl|].
    intros [[[c si] s] name] Hin. rewrite Forall_forall in Hr.
    destruct (Hr _ Hin) as (H1 & H2 & H3 & H4).
    cbv beta iota. rewrite decode_encode_step by assumption. unfold step_item.
    destruct (Z.eqb_spec si 0) as [->|Hne]; [reflexivity|].
    cbn [negb]. unfold dict_get. rewrite (H4 Hne). reflexivity.
Qed.

Lemma read_data_step_ndc8_blocks_witness :
  read_data_step_ndc8 example_state_dict
    (fixed_file (map (fun es => fixed_block (map (fun '(c, si, s, _) => encode_step c si s) es))
       [[(0, 1, 1, "CC_Chg"%string); (0, 0, 0, "CC_Chg"%string); (3, 2, 1, "CC_Chg"%string)]])) =
  Ok (number_steps 1 (concat (map (fun es =>
        map (fun '(c, si, _, name) => (c + 1, si, name))
          (filter (fun '(_, si, _, _) => negb (si =? 0)) es))
        [[(0, 1, 1, "CC_Chg"%string); (0, 0, 0, "CC_Chg"%string); (3, 2, 1, "CC_Chg"%string)]]))).
Proof.
  apply read_data_step_ndc8_blocks.
  repeat (first [apply Forall_nil | apply Forall_cons | split]); cbn;
    first [lia | intros _; reflexivity | intros H; exfalso; lia].
Defined.

(** ** Revision 8 edges and the step join *)

(** X11.  A revision 8 file shorter than its 4096-byte header makes
    [read_ndc_8], [read_data_runInfo_ndc8] and [read_data_step_ndc8] raise
    [ValueError] ([mm.seek] out of range); on a file that is exactly the
    header the loops read no block: no samples, no run-info records are
    collected, and no steps. *)
Theorem fixed_block_files_short_or_empty (state_dict : state_table) buf :
  ((length buf < 4096)%nat ->
     read_ndc_8 buf = Err ValueError /\ read_data_runInfo_ndc8 buf = Err ValueError /\
     read_data_step_ndc8 state_dict buf = Err ValueError) /\
  (length buf = 4096%nat ->
     read_ndc_8 buf = Ok [] /\ read_data_runInfo_rec buf = Ok [] /\
     read_data_step_ndc8 state_dict buf = Ok []).
Proof.
  split.
  - intros Hl. unfold read_ndc_8, read_ndc_8_rec, read_data_runInfo_ndc8,
      read_data_runInfo_rec, read_data_step_ndc8, read_data_step_rec, read_blocks.
    replace (Nat.ltb (length buf) block_len) with true
      by (symmetry; apply Nat.ltb_lt; exact Hl).
    repeat split.
  - intros Hl. unfold read_ndc_8, read_ndc_8_rec, read_data_runInfo_rec,
      read_data_step_ndc8, read_data_step_rec, read_blocks.
    rewrite Hl. cbn [Nat.ltb Nat.leb block_len].
    rewrite skipn_all2 by (unfold block_len; lia).
    repeat split.
Qed.

Lemma fixed_block_files_short_or_empty_witness :
  read_ndc_8 (zeros 100) = Err ValueError /\ read_ndc_8 (zeros 4096) = Ok [] /\
  read_data_step_ndc8 example_state_dict (zeros 4096) = Ok [].
Proof.
  split; [|split].
  - apply (fixed_block_files_short_or_empty example_state_dict). vm_compute. lia.
  - apply (fixed_block_files_short_or_empty example_state_dict). vm_compute. reflexivity.
  - apply (fixed_block_files_short_or_empty example_state_dict). vm_compute. reflexivity.
Defined.

Lemma filter_all_false {A} (f : A -> bool) l :
  (forall x, In x l -> f x = false) -> filter f l = [].
Proof.
  induction l as [|x l IH]; intros H; [reflexivity|]. cbn [filter].
  rewrite (H x (or_introl eq_refl)). apply IH. intros y Hy. apply H. right. exact Hy.
Qed.

Lemma number_steps_ge k rec : Forall (fun r => k <= s_Step r) (number_steps k rec).
Proof.
  revert k. induction rec as [|[[c si] st] rec IH]; intros k; cbn [number_steps]; constructor.
  - cbn. lia.
  - refine (Forall_impl _ _ (IH (k + 1))). intros r Hr. lia.
Qed.

Lemma filter_number_steps k rec s :
  filter (fun r => s_Step r =? s) (number_steps k rec) =
  match (if k <=? s then nth_error (number_steps k rec) (Z.to_nat (s - k)) else None) with
  | Some r => [r]
  | None => []
  end.
Proof.
  revert k. induction rec as [|[[c si] st] rec IH]; intros k.
  - cbn [number_steps filter]. destruct (k <=? s); [destruct (Z.to_nat (s - k)) |]; reflexivity.
  - cbn [number_steps filter s_Step].
    destruct (Z.eqb_spec k s) as [<- | Hne].
    + rewrite Z.leb_refl, Z.sub_diag. cbn [Z.to_nat nth_error].
      f_equal. apply filter_all_false. intros r Hr.
      pose proof (number_steps_ge (k + 1) rec) as Hge. rewrite Forall_forall in Hge.
      specialize (Hge r Hr). apply Z.eqb_neq. lia.
    + rewrite IH. destruct (Z.leb_spec k s) as [Hle | Hgt].
      * replace (k + 1 <=? s) with true by (symmetry; apply Z.leb_le; lia).
        replace (Z.to_nat (s - k)) with (S (Z.to_nat (s - (k + 1)))) by lia.
        reflexivity.
      * replace (k + 1 <=? s) with false by (symmetry; apply Z.leb_gt; lia).
        reflexivity.
Qed.

Lemma merge_step_numbered (state_dict : state_table) buf st mid :
  read_data_step_ndc8 state_dict buf = Ok st ->
  merge_step mid st =
  map (fun d =>
    let r := match x_Step d with Some s => step_at st s | None => None end in
    mk_out (x_Voltage d) (x_Current d) (x_Index d) (x_Time d) (x_Timestamp d) (x_Step d)
      (option_map s_Cycle r) (option_map s_Step_Index r) (option_map s_Status r)) mid.
Proof.
  unfold read_data_step_ndc8. intros H.
  destruct (read_data_step_rec state_dict buf) as [rec|e]; [|discriminate].
  cbn [bind] in H. injection H as <-.
  unfold merge_step. induction mid as [|d mid IH]; [reflexivity|].
  cbn [flat_map map]. rewrite IH. f_equal.
  destruct (x_Step d) as [s|]; [|reflexivity].
  rewrite filter_number_steps. unfold step_at.
  destruct (if 1 <=? s then nth_error (number_steps 1 rec) (Z.to_nat (s - 1)) else None);
    reflexivity.
Qed.

Lemma read_ndc_8_numbered buf data :
  read_ndc_8 buf = Ok data -> exists samples, data = number_rows 1 samples.
Proof.
  unfold read_ndc_8. destruct (read_ndc_8_rec buf) as [rec|e]; [|discriminate].
  cbn [bind]. intros H. injection H as <-. exists rec. reflexivity.
Qed.

(** C2 (amended).  Lines 48-63 on the three files of a revision 8 archive:
    when the run-info Index values are strictly increasing, start at 1 and
    end at or below the number of main samples, the output has one row per
    Index 1..L, L the last run-info Index.  A row with Index_a <= Index <
    Index_b, for consecutive run-info records a and b, carries Step_a
    (forward fill) and the linear interpolations of Time and Timestamp
    between a and b at its Index (the Timestamp truncated to integer
    seconds); the row at L carries the last record's Step, Time and
    Timestamp; and each row carries the Cycle, Step_Index and Status of the
    step numbered by its Step (left join on Step), or none. *)
Theorem read_ndax8_merge (state_dict : state_table) data_buf ri_buf step_buf data ri st :
  read_ndc_8 data_buf = Ok data ->
  read_data_runInfo_ndc8 ri_buf = Ok ri ->
  read_data_step_ndc8 state_dict step_buf = Ok st ->
  Sorted (fun a b => ri_Index a < ri_Index b) ri ->
  option_map ri_Index (hd_error ri) = Some 1 ->
  (forall rl, last_opt ri = Some rl -> ri_Index rl <= Z.of_nat (length data)) ->
  exists out rl,
    read_ndax8 state_dict data_buf ri_buf step_buf = Ok out /\
    last_opt ri = Some rl /\
    map o_Index out = map Z.of_nat (seq 1 (Z.to_nat (ri_Index rl))) /\
    (forall i ra rb idx,
       nth_error ri i = Some ra -> nth_error ri (S i) = Some rb ->
       ri_Index ra <= idx < ri_Index rb ->
       exists o, nth_error out (Z.to_nat idx - 1) = Some o /\
         o_Step o = Some (ri_Step ra) /\
         (exists t, o_Time o = Some t /\
            (t == lin (ri_Time ra) (ri_Time rb)
                    (Z.to_nat (ri_Index ra)) (Z.to_nat (ri_Index rb)) (Z.to_nat idx))%Q) /\
         (exists t, o_Timestamp o = fromtimestamp (qtrunc t) /\
            (t == lin (inject_Z (ri_Timestamp ra)) (inject_Z (ri_Timestamp rb))
                    (Z.to_nat (ri_Index ra)) (Z.to_nat (ri_Index rb)) (Z.to_nat idx))%Q) /\
         o_Cycle o = option_map s_Cycle (step_at st (ri_Step ra)) /\
         o_Step_Index o = option_map s_Step_Index (step_at st (ri_Step ra)) /\
         o_Status o = option_map s_Status (step_at st (ri_Step ra))) /\
    (exists o, nth_error out (Z.to_nat (ri_Index rl) - 1) = Some o /\
       o_Step o = Some (ri_Step rl) /\ o_Time o = Some (ri_Time rl) /\
       o_Timestamp o = fromtimestamp (ri_Timestamp rl) /\
       o_Cycle o = option_map s_Cycle (step_at st (ri_Step rl)) /\
       o_Step_Index o = option_map s_Step_Index (step_at st (ri_Step rl)) /\
       o_Status o = option_map s_Status (step_at st (ri_Step rl))).
Proof.
  intros Hd Hri Hst Hs H1 Hl.
  destruct (read_ndc_8_numbered data_buf data Hd) as [samples ->].
  rewrite length_number_rows in Hl.
  destruct (join_runinfo_rows samples ri Hs H1 Hl) as (mid & rl & Hj & Hrl & Hx & Hb & Hlast).
  eexists. exists rl. split; [|split; [exact Hrl | split; [|split]]].
  - unfold read_ndax8. rewrite Hd, Hri. cbn [bind]. rewrite Hj. cbn [bind].
    rewrite Hst. cbn [bind]. rewrite (merge_step_numbered state_dict step_buf st mid Hst).
    reflexivity.
  - rewrite map_map, <- Hx. apply map_ext. intros d. reflexivity.
  - intros i ra rb idx Ha Hb' Hz.
    destruct (Hb i ra rb idx Ha Hb' Hz) as (m & Hm & Es & Et & Ets).
    eexists. rewrite nth_error_map, Hm. split; [reflexivity|]. cbn.
    rewrite Es. auto 6.
  - destruct Hlast as (m & Hm & Es & Et & Ets).
    eexists. rewrite nth_error_map, Hm. split; [reflexivity|]. cbn.
    rewrite Es. auto 7.
Qed.

Lemma read_ndax8_merge_witness :
  exists out, read_ndax8 example_state_dict example_data10_file example_runinfo158_file
                example_step_file = Ok out /\
    map o_Index out = map Z.of_nat (seq 1 8).
Proof.
  destruct (read_ndc_8 example_data10_file) as [data|e] eqn:E1;
    [|vm_compute in E1; discriminate E1].
  destruct (read_data_runInfo_ndc8 example_runinfo158_file) as [ri|e] eqn:E2;
    [|vm_compute in E2; discriminate E2].
  destruct (read_data_step_ndc8 example_state_dict example_step_file) as [st|e] eqn:E3;
    [|vm_compute in E3; discriminate E3].
  pose proof E1 as E1'. vm_compute in E1'. injection E1' as <-.
  pose proof E2 as E2'. vm_compute in E2'. injection E2' as <-.
  destruct (read_ndax8_merge example_state_dict _ _ _ _ _ _ E1 E2 E3)
    as (out & rl & Ho & Hl & Hx & _).
  - repeat constructor.
  - reflexivity.
  - intros rl Hrl. vm_compute in Hrl. injection Hrl as <-. vm_compute. intros H. discriminate H.
  - exists out. split; [exact Ho|]. rewrite Hx. vm_compute in Hl. injection Hl as <-.
    reflexivity.
Defined.

(** X12.  The left join of line 63 on a step table read by
    [read_data_step_ndc8] never duplicates or drops a row: each row gets the
    Cycle, Step_Index and Status of row [Step - 1] of the step table (whose
    Step is the row's Step), and no step columns when its Step is NaN or
    names no step. *)
Theorem merge_step_lookup (state_dict : state_table) buf st mid :
  read_data_step_ndc8 state_dict buf = Ok st ->
  merge_step mid st =
  map (fun d =>
    match (match x_Step d with
           | Some s => if 1 <=? s then nth_error st (Z.to_nat (s - 1)) else None
           | None => None
           end) with
    | Some r => mk_out (x_Voltage d) (x_Current d) (x_Index d) (x_Time d) (x_Timestamp d)
                  (x_Step d) (Some (s_Cycle r)) (Some (s_Step_Index r)) (Some (s_Status r))
    | None => mk_out (x_Voltage d) (x_Current d) (x_Index d) (x_Time d) (x_Timestamp d)
                  (x_Step d) None None None
    end) mid.
Proof.
  unfold read_data_step_ndc8. intros H.
  destruct (read_data_step_rec state_dict buf) as [rec|e]; [|discriminate].
  cbn [bind] in H. injection H as <-.
  unfold merge_step. induction mid as [|d mid IH]; [reflexivity|].
  cbn [flat_map map]. rewrite IH. f_equal.
  destruct (x_Step d) as [s|]; [|reflexivity].
  rewrite filter_number_steps.
  destruct (if 1 <=? s then nth_error (number_steps 1 rec) (Z.to_nat (s - 1)) else None);
    reflexivity.
Qed.

Lemma merge_step_lookup_witness :
  exists st, read_data_step_ndc8 example_state_dict example_step_file = Ok st /\
    map o_Step_Index (merge_step
      [mk_mid (F32 1) (F32 0) 1 (Some 1%Q) (fromtimestamp 100) (Some 2);
       mk_mid (F32 2) (F32 0) 2 (Some 2%Q) (fromtimestamp 200) None;
       mk_mid (F32 3) (F32 0) 3 (Some 3%Q) (fromtimestamp 300) (Some 5)] st) =
    [Some 2; None; None].
Proof.
  eexists. split; [vm_compute; reflexivity|].
  rewrite (merge_step_lookup example_state_dict example_step_file) by (vm_compute; reflexivity).
  vm_compute. reflexivity.
Defined.

(** X13.  On the revision 8 path, when the samples table is not empty, the
    last run-info Index is at least 1 and no run-info record has Index 1,
    the first sample keeps a NaN Timestamp after interpolation and
    [astype(int)] raises. *)
Theorem join_runinfo_missing_first_index buf data ri r :
  read_ndc_8 buf = Ok data -> data <> [] ->
  last_opt ri = Some r -> 1 <= ri_Index r ->
  (forall r', In r' ri -> ri_Index r' <> 1) ->
  join_runinfo data ri = Err IntCastError.
Proof.
  intros Hd Hne Hl H1 Hno.
  unfold read_ndc_8 in Hd. destruct (read_ndc_8_rec buf) as [rec|e]; [|discriminate].
  cbn [bind] in Hd. injection Hd as <-.
  destruct rec as [|[v c] rec]; [contradiction|].
  unfold join_runinfo, truncate_to_runinfo. rewrite Hl. cbn [bind number_rows filter m_Index].
  replace (1 <=? ri_Index r) with true by (symmetry; apply Z.leb_le; exact H1).
  set (rest := filter _ (number_rows (1 + 1) rec)).
  unfold merge_runinfo. cbn [flat_map m_Index].
  rewrite (filter_all_false (fun r0 => ri_Index r0 =? 1) ri)
    by (intros r' Hr'; apply Z.eqb_neq; exact (Hno r' Hr')).
  cbn [app map j_Timestamp option_map].
  unfold interpolate. cbn [length seq map].
  unfold interp_at at 1. cbn [nth prev_valid astype_int bind].
  reflexivity.
Qed.

Lemma join_runinfo_missing_first_index_witness :
  exists data, read_ndc_8 example_data10_file = Ok data /\
    join_runinfo data example_ri258 = Err IntCastError.
Proof.
  eexists. split; [vm_compute; reflexivity|].
  apply (join_runinfo_missing_first_index example_data10_file _ _ (mk_runinfo 8%Q 800 2 8)).
  - vm_compute. reflexivity.
  - intros H. discriminate H.
  - vm_compute. reflexivity.
  - cbn. lia.
  - intros r' Hr. vm_compute in Hr. destruct Hr as [<- | [<- | [<- | []]]]; cbn; lia.
Defined.

Lemma string_get_none n s : (String.length s <= n)%nat -> String.get n s = None.
Proof.
  revert n. induction s as [|a s IH]; intros n H; [destruct n; reflexivity|].
  destruct n as [|n]; cbn in H; [lia|]. cbn. apply IH. lia.
Qed.

(** X14.  [read_ndax] raises before extracting any data file when the
    server version string has no character at position 14 ([IndexError]) or
    that character is not a decimal digit ([ValueError] from [int]). *)
Theorem read_ndax_bad_version (state_dict : state_table) (multiplier_dict : multiplier_table)
  server zf :
  ((String.length server <= 14)%nat ->
     read_ndax state_dict multiplier_dict server zf = ([], Err IndexError)) /\
  (forall c, String.get 14 server = Some c ->
     (Ascii.nat_of_ascii c < 48 \/ 57 < Ascii.nat_of_ascii c)%nat ->
     read_ndax state_dict multiplier_dict server zf = ([], Err ValueError)).
Proof.
  split.
  - intros H. unfold read_ndax, lift, revision. rewrite string_get_none by exact H.
    reflexivity.
  - intros c Hc Hd. unfold read_ndax, lift, revision. rewrite Hc. unfold py_int_of_char.
    replace ((48 <=? Z.of_nat (Ascii.nat_of_ascii c)) && (Z.of_nat (Ascii.nat_of_ascii c) <=? 57))
      with false; [reflexivity|].
    symmetry. apply andb_false_iff.
    destruct Hd; [left; apply Z.leb_gt | right; apply Z.leb_gt]; lia.
Qed.

Lemma read_ndax_bad_version_witness :
  read_ndax example_state_dict example_multiplier_dict "BTS 8"%string
    (mk_archive [] (fun _ => None)) =
    ([], Err IndexError) /\
  read_ndax example_state_dict example_multiplier_dict "BTSServer7.0.x.1"%string
    (mk_archive [] (fun _ => None)) =
    ([], Err ValueError).
Proof.
  split.
  - apply (read_ndax_bad_version example_state_dict example_multiplier_dict). vm_compute. lia.
  - apply (proj2 (read_ndax_bad_version example_state_dict example_multiplier_dict
             "BTSServer7.0.x.1"%string (mk_archive [] (fun _ => None))) "."%char); vm_compute;
      [reflexivity | lia].
Defined.

(** ** Auxiliary-channel members of a legacy archive *)

Lemma read_aux_members_all state_dict multiplier_dict zf names acc
  (aux_of : String.string -> aux_table) :
  (forall f, In f names -> aux_name_match f = true ->
     exists b dfs, member zf f = Some b /\
       read_ndc state_dict multiplier_dict b = Ok dfs /\ snd dfs = aux_of f) ->
  read_aux_members state_dict multiplier_dict zf names acc =
  (flat_map (fun f => [Extract f; Decode RNdc f]) (filter aux_name_match names),
   Ok (fold_left (fun a f => concat_aux a (aux_of f)) (filter aux_name_match names) acc)).
Proof.
  revert acc. induction names as [|f names IH]; intros acc H; [reflexivity|].
  assert (H' : forall g, In g names -> aux_name_match g = true ->
                 exists b dfs, member zf g = Some b /\
                   read_ndc state_dict multiplier_dict b = Ok dfs /\ snd dfs = aux_of g)
    by (intros g Hg; apply H; right; exact Hg).
  cbn [read_aux_members filter]. destruct (aux_name_match f) eqn:Ef; [|apply IH, H'].
  destruct (H f (or_introl eq_refl) Ef) as (b & dfs & Hb & Hr & Ha).
  unfold extract. rewrite Hb, tbind_ok. unfold decode. rewrite Hr, tbind_ok.
  rewrite Ha, (IH _ H'). reflexivity.
Qed.

(** X15.  On a revision 7 (or older) archive whose data.ndc and whose
    members matching "_<digits>.ndc" all read without error, [read_ndax]
    extracts and decodes data.ndc, then each matching member in
    [zf.namelist()] order, and returns the main table of data.ndc joined
    with the concatenation of the members' auxiliary tables. *)
Theorem read_ndax_legacy_members (state_dict : state_table)
  (multiplier_dict : multiplier_table) server zf rev data dfs
  (aux_of : String.string -> aux_table) :
  revision server = Ok rev -> rev <= 7 ->
  member zf "data.ndc"%string = Some data ->
  read_ndc state_dict multiplier_dict data = Ok dfs ->
  (forall f, In f (namelist zf) -> aux_name_match f = true ->
     exists b dfs_f, member zf f = Some b /\
       read_ndc state_dict multiplier_dict b = Ok dfs_f /\ snd dfs_f = aux_of f) ->
  read_ndax state_dict multiplier_dict server zf =
  (Extract "data.ndc"%string :: Decode RNdc "data.ndc"%string ::
     flat_map (fun f => [Extract f; Decode RNdc f]) (filter aux_name_match (namelist zf)),
   merge_aux (fst dfs)
     (fold_left (fun a f => concat_aux a (aux_of f))
        (filter aux_name_match (namelist zf)) (false, []))).
Proof.
  intros Hrev Hle Hd Hr Hm. unfold read_ndax, lift. rewrite Hrev, tbind_ok.
  replace (8 <? rev) with false by (symmetry; apply Z.ltb_ge; lia).
  unfold extract. rewrite Hd, tbind_ok.
  replace (7 <? rev) with false by (symmetry; apply Z.ltb_ge; lia).
  unfold decode. rewrite Hr, tbind_ok.
  rewrite (read_aux_members_all state_dict multiplier_dict zf (namelist zf) (false, []) aux_of Hm).
  rewrite tbind_ok. cbn [app]. rewrite app_nil_r. reflexivity.
Qed.

Lemma read_ndax_legacy_members_witness :
  fst (read_ndax example_state_dict example_multiplier_dict "BTS_Server_Ver7.0"%string
         example_legacy_archive) =
    [Extract "data.ndc"; Decode RNdc "data.ndc"; Extract "data_1.ndc"; Decode RNdc "data_1.ndc"]%string /\
  exists rows,
    snd (read_ndax example_state_dict example_multiplier_dict "BTS_Server_Ver7.0"%string
           example_legacy_archive) = Ok (LegacyTable ["V1"; "T1"]%string rows) /\
    map (fun r => Index (fst r)) rows = [1; 2].
Proof.
  destruct (read_ndc example_state_dict example_multiplier_dict example_legacy_file)
    as [dfs|e] eqn:Ed; [|vm_compute in Ed; discriminate Ed].
  rewrite (read_ndax_legacy_members example_state_dict example_multiplier_dict
             "BTS_Server_Ver7.0"%string example_legacy_archive 7 example_legacy_file dfs
             (fun _ => match read_ndc example_state_dict example_multiplier_dict
                               example_aux_file with
                       | Ok d => snd d
                       | Err _ => AuxEmpty
                       end)).
  - pose proof Ed as Ed'. vm_compute in Ed'. injection Ed' as <-.
    split; [reflexivity|]. eexists. split; [vm_compute; reflexivity | reflexivity].
  - reflexivity.
  - lia.
  - reflexivity.
  - exact Ed.
  - intros f Hin Hm. cbn in Hin.
    destruct Hin as [<-|[<-|[<-|[]]]]; [discriminate Hm | discriminate Hm |].
    exists example_aux_file. eexists. split; [reflexivity|].
    split; [vm_compute; reflexivity | vm_compute; reflexivity].
Defined.

Lemma In_insert_uniq a x l : In a (insert_uniq x l) <-> a = x \/ In a l.
Proof.
  induction l as [|y l IH]; cbn [insert_uniq].
  - cbn. intuition.
  - destruct (Z.ltb_spec x y); [cbn; intuition|].
    destruct (Z.eqb_spec x y) as [<-|Hne]; [cbn; intuition|].
    cbn. rewrite IH. intuition.
Qed.

Lemma In_sorted_uniq a l : In a (sorted_uniq l) <-> In a l.
Proof.
  induction l as [|x l IH]; [reflexivity|]. cbn [sorted_uniq fold_right].
  fold (sorted_uniq l). rewrite In_insert_uniq, IH. cbn. intuition.
Qed.

Lemma HdRel_insert_uniq y x l : HdRel Z.lt y l -> y < x -> HdRel Z.lt y (insert_uniq x l).
Proof.
  intros H Hyx. destruct l as [|z l]; cbn [insert_uniq].
  - constructor. exact Hyx.
  - inversion H; subst. destruct (x <? z); [constructor; exact Hyx|].
    destruct (x =? z); constructor; assumption.
Qed.

Lemma Sorted_insert_uniq x l : Sorted Z.lt l -> Sorted Z.lt (insert_uniq x l).
Proof.
  induction l as [|y l IH]; intros H; cbn [insert_uniq].
  - repeat constructor.
  - destruct (Z.ltb_spec x y) as [Hlt|Hge].
    + constructor; [exact H | constructor; exact Hlt].
    + destruct (Z.eqb_spec x y) as [_|Hne]; [exact H|].
      inversion H; subst. constructor; [apply IH; assumption|].
      apply HdRel_insert_uniq; [assumption | lia].
Qed.

Lemma Sorted_sorted_uniq l : Sorted Z.lt (sorted_uniq l).
Proof.
  induction l as [|x l IH]; [constructor|]. cbn [sorted_uniq fold_right].
  apply Sorted_insert_uniq. exact IH.
Qed.

Lemma find_index_pairs {B} (g : Z -> B) i l :
  find (fun p => fst p =? i) (map (fun j => (j, g j)) l) =
  option_map (fun j => (j, g j)) (find (fun j => j =? i) l).
Proof.
  induction l as [|j l IH]; [reflexivity|]. cbn [map find fst].
  destruct (j =? i); [reflexivity | exact IH].
Qed.

Lemma pivot_cell_absent rows i x :
  ~ In i (map f_Index rows) -> pivot_cell rows i x = None.
Proof.
  intros H. unfold pivot_cell.
  destruct (find _ rows) as [r|] eqn:E; [|reflexivity].
  apply find_some in E as [Hin E]. apply andb_true_iff in E as [E _].
  apply Z.eqb_eq in E. subst i. exfalso. apply H, in_map. exact Hin.
Qed.

(** X16.  When the concatenated auxiliary rows are not empty and no (Index,
    Aux) pair repeats, the legacy table keeps every main row once, in order;
    its aux columns are V<a>, T<a> (and t<a> when a member had a t column)
    for the Aux channels a in ascending order, each seen channel once; and
    the cell of a main row is the value of the aux row with its Index and
    that channel, or NaN when there is none. *)
Theorem merge_aux_pivot_join data has_t rows :
  rows <> [] -> dup_keys rows = false ->
  merge_aux data (has_t, rows) =
    Ok (LegacyTable (map column_name (pivot_columns has_t (sorted_uniq (map f_Aux rows))))
          (map (fun d => (d, map (pivot_cell rows (Index d))
                               (pivot_columns has_t (sorted_uniq (map f_Aux rows))))) data)) /\
  Sorted Z.lt (sorted_uniq (map f_Aux rows)) /\
  (forall a, In a (sorted_uniq (map f_Aux rows)) <-> In a (map f_Aux rows)).
Proof.
  intros Hne Hdup. split; [|split; [apply Sorted_sorted_uniq | intros a; apply In_sorted_uniq]].
  unfold merge_aux. cbn [snd]. destruct rows as [|r rs]; [contradiction|].
  cbv iota beta. unfold pivot. cbn [fst snd]. rewrite Hdup. cbn [bind fst snd].
  set (rows := r :: rs). f_equal. f_equal.
  unfold join_on_index. apply map_ext. intros d. f_equal.
  rewrite find_index_pairs.
  destruct (find (fun j => j =? Index d) (sorted_uniq (map f_Index rows))) as [j|] eqn:Ef.
  - apply find_some in Ef as [_ Ej]. apply Z.eqb_eq in Ej. subst j. reflexivity.
  - cbn [option_map]. rewrite length_map.
    assert (Hni : ~ In (Index d) (map f_Index rows)).
    { rewrite <- In_sorted_uniq. intros Hin.
      pose proof (find_none _ _ Ef (Index d) Hin) as Hf. cbn in Hf.
      rewrite Z.eqb_refl in Hf. discriminate Hf. }
    induction (pivot_columns has_t (sorted_uniq (map f_Aux rows))) as [|x cs IH];
      [reflexivity|].
    cbn [map length repeat]. rewrite (pivot_cell_absent rows (Index d) x Hni), IH.
    reflexivity.
Qed.

Lemma merge_aux_pivot_join_witness :
  merge_aux [] (true, [mk_aux_flat 1 2 1%Q 25%Q None; mk_aux_flat 1 1 1%Q 24%Q (Some 3%Q)]) =
    Ok (LegacyTable ["V1"; "V2"; "T1"; "T2"; "t1"; "t2"]%string []).
Proof.
  destruct (merge_aux_pivot_join []
              true [mk_aux_flat 1 2 1%Q 25%Q None; mk_aux_flat 1 1 1%Q 24%Q (Some 3%Q)])
    as [H _].
  - discriminate.
  - reflexivity.
  - rewrite H. reflexivity.
Defined.
